(** * Quantitative-Finance: the three S&P 500 screening scripts

    A shallow embedding of the six scripts of
    [Projeto Plataforma Quantitativa] (the factor score, the Magic Formula
    and the dividend model, each in its first and its refactored "v2"
    form) and the properties of their scoring, exclusion and ranking
    steps.

    Modelling choices, used throughout:
    - Python numbers are exact rationals ([Q]); [==] of Python is [Qeq].
      Infinities and NaN are not modelled, and arithmetic is exact, with
      one exception: the product [dividendYield * 100] of the dividend
      scripts is rounded to binary64 as Python rounds it ([mul_float]),
      because the scripts round it to two decimals afterwards, where the
      last bit of the product decides on which side of a half it falls.
    - A key that [info.get] does not find is [None : option Q].
    - [try ... except Exception as e] is the error monad [py]: a raised
      exception carries the text of [str(e)].
    - What a script prints or logs is a list of [log_line]s; progress
      lines and the execution-time line are left out.
    - The calls into pandas are modelled by what pandas documents:
      [Series.rank(ascending=False)] is the average-method rank, computed
      as pandas computes it (walk over the sorted values); [sort_values]
      with its default [kind='quicksort'] returns a sorted permutation of
      the rows and promises nothing about the order of equal keys. *)

From Stdlib Require Import QArith Qpower Qround Qabs Lqa.
From stdpp Require Import base option list sets strings sorting.

(** ** Python values and exceptions *)

Inductive py (A : Type) : Type :=
| Return (a : A)
| Raise (e : string).
Arguments Return {A} a.
Arguments Raise {A} e.

Global Instance py_ret : MRet py := λ A a, Return a.
Global Instance py_bind : MBind py := λ A B f m,
  match m with
  | Return a => f a
  | Raise e => Raise e
  end.

Global Instance Q_inhabited : Inhabited Q := populate 0%Q.

(** Arithmetic on a value read from a dict: [None] in an arithmetic
    expression raises [TypeError]. *)
Definition num (v : option Q) : py Q :=
  match v with
  | Some q => Return q
  | None => Raise "unsupported operand type(s): 'NoneType'"
  end.

(** [a / b]: Python raises [ZeroDivisionError] on a zero divisor. *)
Definition truediv (a b : Q) : py Q :=
  if Qeq_bool b 0 then Raise "float division by zero" else Return (a / b)%Q.

(** What the scripts print or log.  A table row is the final rank, the
    ticker and the further numeric columns shown. *)
Definition table_row : Type := nat * string * list Q.

Inductive log_line : Type :=
| TopTable (rows : list table_row)
| StatTotal (n : nat)
| StatIncluded (n : nat)
| StatExcluded (n : nat)
| ExcludedDetail (ticker : string) (missing : list string)
| NoData
| NoCompanyList
| MissingMetrics (ticker : string)
| ProcessingError (ticker : string) (e : string).

(** ** pandas: [Series.rank] and [DataFrame.sort_values] *)

Global Instance Qle_dec : RelDecision Qle.
Proof.
  refine (λ x y, match Qlt_le_dec y x with
                 | left H => right (Qlt_not_le _ _ H)
                 | right H => left H
                 end).
Defined.

Definition Q_of_nat (n : nat) : Q := inject_Z (Z.of_nat n).

Module pandas.

(** [are_diff]: two neighbours of the sorted order hold different
    values. *)
Definition are_diff (a b : Q) : bool := negb (Qeq_bool a b).

(** The order of two indices by the values they point at. *)
Definition le_at (masked_vals : list Q) (i j : nat) : Prop :=
  (masked_vals !!! i <= masked_vals !!! j)%Q.

Global Instance le_at_dec masked_vals : RelDecision (le_at masked_vals) :=
  λ i j, Qle_dec (masked_vals !!! i) (masked_vals !!! j).

(** [np.lexsort]: the indices of [masked_vals] in ascending order of
    value. *)
Definition lexsort (masked_vals : list Q) : list nat :=
  merge_sort (le_at masked_vals) (seq 0 (length masked_vals)).

(** The state of the loop of [rank_sorted_1d]. *)
Record rank_state : Type := {
  dups : nat;
  sum_ranks : nat;
  out : list Q
}.

(** One iteration with [tiebreak == TIEBREAK_AVERAGE], one group and no
    missing values: the running position [i + 1] is added to
    [sum_ranks]; when the next value differs, every index of the run
    gets [sum_ranks / dups]. *)
Definition rank_sorted_step (masked_vals : list Q) (sort_indexer : list nat)
    (N : nat) (st : rank_state) (i : nat) : rank_state :=
  let at_end := bool_decide (i = N - 1) in
  let dups := S (dups st) in
  let sum_ranks := sum_ranks st + (i + 1) in
  let next_val_diff :=
    at_end || are_diff (masked_vals !!! (sort_indexer !!! i))
                       (masked_vals !!! (sort_indexer !!! (i + 1))) in
  if next_val_diff then
    {| dups := 0; sum_ranks := 0;
       out := foldl (λ o j, <[sort_indexer !!! j :=
                                (Q_of_nat sum_ranks / Q_of_nat dups)%Q]> o)
                    (out st) (seq (i + 1 - dups) dups) |}
  else
    {| dups := dups; sum_ranks := sum_ranks; out := out st |}.

Definition rank_sorted_1d (masked_vals : list Q) (sort_indexer : list nat)
  : list Q :=
  let N := length masked_vals in
  out (foldl (rank_sorted_step masked_vals sort_indexer N)
             {| dups := 0; sum_ranks := 0; out := replicate N 0%Q |}
             (seq 0 N)).

(** [rank_1d(values, ties_method="average", ascending=...)] *)
Definition rank_1d (values : list Q) (ascending : bool) : list Q :=
  let lexsort_indexer := lexsort values in
  let lexsort_indexer :=
    if ascending then lexsort_indexer else reverse lexsort_indexer in
  rank_sorted_1d values lexsort_indexer.

(** [Series.rank(ascending=False)] *)
Definition rank (values : list Q) (ascending : bool) : list Q :=
  rank_1d values ascending.

(** The order [sort_values(by, ascending=...)] establishes on the key. *)
Definition in_order {A : Type} (by_ : A → Q) (ascending : bool) (x y : A)
  : Prop :=
  if ascending then (by_ x <= by_ y)%Q else (by_ y <= by_ x)%Q.

(** [DataFrame.sort_values(by)] with the default [kind='quicksort']:
    the rows come back permuted into the order of the key.  The default
    kind is not a stable sort, so nothing more is known of the result. *)
Class SortValues : Type := {
  sort_values : ∀ {A : Type}, (A → Q) → bool → list A → list A;
  sort_values_Permutation : ∀ {A : Type} (by_ : A → Q) ascending df,
    sort_values by_ ascending df ≡ₚ df;
  sort_values_Sorted : ∀ {A : Type} (by_ : A → Q) ascending df,
    Sorted (in_order by_ ascending) (sort_values by_ ascending df)
}.

(** [df.head(n)] *)
Definition head {A : Type} (n : nat) (df : list A) : list A := take n df.

End pandas.

(** ** The ranking steps shared by the two-component scripts

    [df[r1] = df[c1].rank(ascending=False)], the same for the second
    component, [df['Combined_Rank'] = (df[r1] + df[r2]) / 2], then
    [df.sort_values('Combined_Rank').reset_index(drop=True)] and
    [df['Final_Rank'] = df.index + 1]. *)

Record scored (R : Type) : Type := {
  row : R;
  Rank_1 : Q;
  Rank_2 : Q;
  Combined_Rank : Q
}.
Arguments row {R} _.
Arguments Rank_1 {R} _.
Arguments Rank_2 {R} _.
Arguments Combined_Rank {R} _.

Record ranked (R : Type) : Type := {
  scored_row : scored R;
  Final_Rank : nat
}.
Arguments scored_row {R} _.
Arguments Final_Rank {R} _.

Section ranking.
Context `{pandas.SortValues} {R : Type} (c1 c2 : R → Q).

Definition add_ranks (df : list R) : list (scored R) :=
  let rank_1 := pandas.rank (c1 <$> df) false in
  let rank_2 := pandas.rank (c2 <$> df) false in
  imap (λ i r,
          let r1 := rank_1 !!! i in
          let r2 := rank_2 !!! i in
          {| row := r; Rank_1 := r1; Rank_2 := r2;
             Combined_Rank := ((r1 + r2) / 2)%Q |}) df.

Definition add_final_rank (df : list (scored R)) : list (ranked R) :=
  imap (λ index r, {| scored_row := r; Final_Rank := index + 1 |}) df.

Definition rank_rows (df : list R) : list (ranked R) :=
  add_final_rank (pandas.sort_values Combined_Rank true (add_ranks df)).

End ranking.

(** ** Carteira01 - USA (Fatores).py *)

Module Fatores.

(** The four entries of [stock.info] the script reads. *)
Record info : Type := {
  trailingPE : option Q;
  returnOnEquity : option Q;
  debtToEquity : option Q;
  dividendYield : option Q
}.

(** [None in [pe_ratio, roe, debt_to_equity, dividend_yield]] *)
Definition None_in (l : list (option Q)) : bool :=
  existsb (λ v, match v with None => true | Some _ => false end) l.

Definition score_of (pe_ratio roe debt_to_equity dividend_yield : Q) : Q :=
  ((- pe_ratio * 10) + (roe * 10) - (debt_to_equity / 10)
   + (dividend_yield * 100))%Q.

(** [calculate_score]: the body of the [try] in the [py] monad, then the
    [except] clause, which prints the error and returns [None]. *)
Definition calculate_score_try (stock_info : py info) : py (option Q) :=
  i ← stock_info;
  let pe_ratio := trailingPE i in
  let roe := returnOnEquity i in
  let debt_to_equity := debtToEquity i in
  let dividend_yield := dividendYield i in
  if None_in [pe_ratio; roe; debt_to_equity; dividend_yield] then
    Return None
  else
    pe ← num pe_ratio; r ← num roe;
    d ← num debt_to_equity; y ← num dividend_yield;
    Return (Some (score_of pe r d y)).

Definition calculate_score (ticker : string) (stock_info : py info)
  : option Q * list log_line :=
  match calculate_score_try stock_info with
  | Return s => (s, [])
  | Raise e => (None, [ProcessingError ticker e])
  end.

Section main.
Context `{pandas.SortValues}.
(** [yf ticker] is [yf.Ticker(ticker).info]. *)
Context (yf : string → py info).

(** The loop over [companies]: the scores appended and the lines
    printed. *)
Definition scores_of (companies : list string) : list (string * Q) :=
  omap (λ ticker, (λ score, (ticker, score))
                    <$> (calculate_score ticker (yf ticker)).1) companies.

Definition printed (companies : list string) : list log_line :=
  companies ≫= λ ticker, (calculate_score ticker (yf ticker)).2.

(** [sort_values(by='Score', ascending=False).reset_index(drop=True)]
    and [scores_df['Rank'] = scores_df.index + 1]. *)
Definition scores_df (scores : list (string * Q)) : list (nat * (string * Q)) :=
  imap (λ index r, (index + 1, r)) (pandas.sort_values snd false scores).

Definition main (companies : list string)
  : option (list table_row) * list log_line :=
  let scores := scores_of companies in
  if bool_decide (0 < length scores) then
    let top_10 :=
      pandas.head 10 ((λ r, (r.1, r.2.1, [])) <$> scores_df scores) in
    (Some top_10, printed companies ++ [TopTable top_10])
  else
    (None, printed companies ++ [NoData]).
End main.

End Fatores.

(** ** Carteira01 - USA (Fatores) - v2.py *)

Module FatoresV2.

Record StockScore : Type := { ticker : string; score : Q }.

(** [any(value is None for value in metrics.values())] *)
Definition any_None (metrics : list (string * option Q)) : bool :=
  existsb (λ kv, match kv.2 with None => true | Some _ => false end) metrics.

(** [metrics[k]] *)
Definition get (metrics : list (string * option Q)) (k : string) : option Q :=
  match list_find (λ kv, kv.1 = k) metrics with
  | Some (_, (_, v)) => v
  | None => None
  end.

Definition calculate_score_try (t : string) (stock_info : py Fatores.info)
  : py (option StockScore * list log_line) :=
  i ← stock_info;
  let metrics :=
    [("trailingPE", Fatores.trailingPE i);
     ("returnOnEquity", Fatores.returnOnEquity i);
     ("debtToEquity", Fatores.debtToEquity i);
     ("dividendYield", Fatores.dividendYield i)] in
  if any_None metrics then
    Return (None, [MissingMetrics t])
  else
    pe ← num (get metrics "trailingPE");
    r ← num (get metrics "returnOnEquity");
    d ← num (get metrics "debtToEquity");
    y ← num (get metrics "dividendYield");
    Return (Some {| ticker := t;
                    score := ((- pe * 10) + (r * 10) - (d / 10) + (y * 100))%Q |},
            []).

Definition calculate_score (t : string) (stock_info : py Fatores.info)
  : option StockScore * list log_line :=
  match calculate_score_try t stock_info with
  | Return r => r
  | Raise e => (None, [ProcessingError t e])
  end.

Section run_analysis.
Context `{pandas.SortValues}.
(** [yf ticker] is [yf.Ticker(ticker).info]. *)
Context (yf : string → py Fatores.info).

Definition scores_of (companies : list string) : list StockScore :=
  omap (λ t, (calculate_score t (yf t)).1) companies.

Definition logged (companies : list string) : list log_line :=
  companies ≫= λ t, (calculate_score t (yf t)).2.

(** [_prepare_results]: the sorted frame with its [Rank] column. *)
Definition scores_df (scores : list StockScore) : list (nat * StockScore) :=
  imap (λ index r, (index + 1, r)) (pandas.sort_values score false scores).

Definition _prepare_results (scores : list StockScore)
  : list table_row * list log_line :=
  let top_10 :=
    pandas.head 10 ((λ r, (r.1, ticker r.2, [])) <$> scores_df scores) in
  (top_10, [TopTable top_10]).

Definition run_analysis (companies : list string)
  : option (list table_row) * list log_line :=
  if bool_decide (length companies = 0) then (None, [NoCompanyList])
  else
    let scores := scores_of companies in
    if bool_decide (length scores = 0) then
      (None, logged companies ++ [NoData])
    else
      let '(top_10, log) := _prepare_results scores in
      (Some top_10, logged companies ++ log).
End run_analysis.

End FatoresV2.

(** ** Carteira02 - USA (Magic Formula).py *)

(** What the Magic Formula scripts read from [yfinance] for one ticker:
    whether the two statements are empty, the four entries of their first
    column and the three entries of [stock.info]. *)
Record statements : Type := {
  income_stmt_empty : bool;
  balance_sheet_empty : bool;
  EBIT : option Q;
  Total_Assets : option Q;
  Current_Assets : option Q;
  Current_Liabilities : option Q;
  marketCap : option Q;
  totalDebt : option Q;
  totalCash : option Q
}.

Definition is_None (v : option Q) : bool :=
  match v with None => true | Some _ => false end.

(** The columns of an included company in both Magic Formula scripts. *)
Record magic_row : Type := {
  mf_ticker : string;
  mf_roc : Q;
  mf_earnings_yield : Q
}.

(** [df[['Final_Rank', 'Ticker']]] *)
Definition magic_table_row (r : ranked magic_row) : table_row :=
  (Final_Rank r, mf_ticker (row (scored_row r)), []).

Module MagicFormula.

(** One dict per ticker: [{'Ticker', 'Status': 'Incluída', 'ROC',
    'EarningsYield'}] or [{'Ticker', 'Status': 'Excluída', 'Missing'}]. *)
Inductive result : Type :=
| Incluida (Ticker : string) (ROC EarningsYield : Q)
| Excluida (Ticker : string) (Missing : list string).

Definition required_data (s : statements) : list (string * option Q) :=
  [("EBIT", EBIT s); ("Total Assets", Total_Assets s);
   ("Current Assets", Current_Assets s);
   ("Current Liabilities", Current_Liabilities s);
   ("Market Cap", marketCap s); ("Total Debt", totalDebt s);
   ("Total Cash", totalCash s)].

Definition calculate_magic_formula_try (ticker : string) (stock : py statements)
  : py result :=
  s ← stock;
  if income_stmt_empty s || balance_sheet_empty s then
    Return (Excluida ticker ["Dados financeiros não disponíveis"])
  else
    let missing_data := filter (λ kv, is_None kv.2 = true) (required_data s) in
    if negb (bool_decide (length missing_data = 0)) then
      Return (Excluida ticker missing_data.*1)
    else
      total_assets ← num (Total_Assets s);
      current_assets ← num (Current_Assets s);
      let net_fixed_assets := (total_assets - current_assets)%Q in
      current_liabilities ← num (Current_Liabilities s);
      let working_capital := (current_assets - current_liabilities)%Q in
      market_cap ← num (marketCap s);
      total_debt ← num (totalDebt s);
      total_cash ← num (totalCash s);
      let enterprise_value := (market_cap + total_debt - total_cash)%Q in
      if Qeq_bool (working_capital + net_fixed_assets) 0
         || Qeq_bool enterprise_value 0 then
        Return (Excluida ticker ["Divisão por zero nos cálculos"])
      else
        ebit ← num (EBIT s);
        roc ← truediv ebit (working_capital + net_fixed_assets);
        earnings_yield ← truediv ebit enterprise_value;
        Return (Incluida ticker roc earnings_yield).

Definition calculate_magic_formula (ticker : string) (stock : py statements)
  : result :=
  match calculate_magic_formula_try ticker stock with
  | Return r => r
  | Raise e => Excluida ticker [e]
  end.

Definition Ticker_of (r : result) : string :=
  match r with Incluida t _ _ => t | Excluida t _ => t end.

Definition is_Incluida (r : result) : bool :=
  match r with Incluida _ _ _ => true | Excluida _ _ => false end.

Definition is_Excluida (r : result) : bool :=
  match r with Incluida _ _ _ => false | Excluida _ _ => true end.

(** [pd.DataFrame(included)]: one row per included dict. *)
Definition DataFrame (included : list result) : list magic_row :=
  omap (λ r, match r with
             | Incluida t roc ey => Some {| mf_ticker := t; mf_roc := roc;
                                            mf_earnings_yield := ey |}
             | Excluida _ _ => None
             end) included.

Definition detail (r : result) : list log_line :=
  match r with
  | Incluida _ _ _ => []
  | Excluida t missing => [ExcludedDetail t missing]
  end.

Section main.
Context `{pandas.SortValues}.
(** [yf ticker] is what [yf.Ticker(ticker)] gives for the statements. *)
Context (yf : string → py statements).

Definition all_results (companies : list string) : list result :=
  (λ ticker, calculate_magic_formula ticker (yf ticker)) <$> companies.

Definition included (all_results : list result) : list result :=
  filter (λ r, is_Incluida r = true) all_results.

Definition excluded (all_results : list result) : list result :=
  filter (λ r, is_Excluida r = true) all_results.

(** The ranked frame [scores_df] of the [if len(included) > 0] branch. *)
Definition scores_df (included : list result) : list (ranked magic_row) :=
  rank_rows mf_roc mf_earnings_yield (DataFrame included).

Definition main (companies : list string)
  : option (list table_row) * list log_line :=
  let all_results := all_results companies in
  let included := included all_results in
  let excluded := excluded all_results in
  if bool_decide (0 < length included) then
    let top_10 := pandas.head 10 (magic_table_row <$> scores_df included) in
    (Some top_10,
     [TopTable top_10; StatTotal (length all_results);
      StatIncluded (length included); StatExcluded (length excluded)]
     ++ (excluded ≫= detail))
  else
    (None, [NoData]).
End main.

End MagicFormula.

(** ** Carteira02 - USA (Magic Formula) - v2.py *)

Module MagicFormulaV2.

(** [StockData]: the seven entries, any of which may be [None]. *)
Record StockData : Type := {
  data_EBIT : option Q;
  data_Total_Assets : option Q;
  data_Current_Assets : option Q;
  data_Current_Liabilities : option Q;
  data_Market_Cap : option Q;
  data_Total_Debt : option Q;
  data_Total_Cash : option Q
}.

(** [StockResult]: [status] is ['Incluída'] with [roc] and
    [earnings_yield], or ['Excluída'] with [missing_data]. *)
Inductive StockResult : Type :=
| Incluida (ticker : string) (roc earnings_yield : Q)
| Excluida (ticker : string) (missing_data : list string).

Definition get_financial_data (t : string) (stock : py statements)
  : option StockData * list log_line :=
  match stock with
  | Raise e => (None, [ProcessingError t e])
  | Return s =>
      if income_stmt_empty s || balance_sheet_empty s then (None, [])
      else (Some {| data_EBIT := EBIT s;
                    data_Total_Assets := Total_Assets s;
                    data_Current_Assets := Current_Assets s;
                    data_Current_Liabilities := Current_Liabilities s;
                    data_Market_Cap := marketCap s;
                    data_Total_Debt := totalDebt s;
                    data_Total_Cash := totalCash s |}, [])
  end.

Definition items (data : StockData) : list (string * option Q) :=
  [("EBIT", data_EBIT data); ("Total_Assets", data_Total_Assets data);
   ("Current_Assets", data_Current_Assets data);
   ("Current_Liabilities", data_Current_Liabilities data);
   ("Market_Cap", data_Market_Cap data); ("Total_Debt", data_Total_Debt data);
   ("Total_Cash", data_Total_Cash data)].

Definition calculate_metrics (data : StockData) : py (Q * Q) :=
  total_assets ← num (data_Total_Assets data);
  current_assets ← num (data_Current_Assets data);
  let net_fixed_assets := (total_assets - current_assets)%Q in
  current_liabilities ← num (data_Current_Liabilities data);
  let working_capital := (current_assets - current_liabilities)%Q in
  market_cap ← num (data_Market_Cap data);
  total_debt ← num (data_Total_Debt data);
  total_cash ← num (data_Total_Cash data);
  let enterprise_value := (market_cap + total_debt - total_cash)%Q in
  let denominator := (working_capital + net_fixed_assets)%Q in
  if Qeq_bool denominator 0 || Qeq_bool enterprise_value 0 then
    Raise "Division by zero in calculations"
  else
    ebit ← num (data_EBIT data);
    roc ← truediv ebit denominator;
    earnings_yield ← truediv ebit enterprise_value;
    Return (roc, earnings_yield).

Definition analyze_stock (t : string) (stock : py statements)
  : StockResult * list log_line :=
  let '(financial_data, log) := get_financial_data t stock in
  match financial_data with
  | None => (Excluida t ["Dados financeiros não disponíveis"], log)
  | Some data =>
      let missing := (filter (λ kv, is_None kv.2 = true) (items data)).*1 in
      if negb (bool_decide (length missing = 0)) then (Excluida t missing, log)
      else
        match calculate_metrics data with
        | Return (roc, earnings_yield) => (Incluida t roc earnings_yield, log)
        | Raise e => (Excluida t [e], log)
        end
  end.

Definition ticker_of (r : StockResult) : string :=
  match r with Incluida t _ _ => t | Excluida t _ => t end.

Definition is_Incluida (r : StockResult) : bool :=
  match r with Incluida _ _ _ => true | Excluida _ _ => false end.

Definition is_Excluida (r : StockResult) : bool :=
  match r with Incluida _ _ _ => false | Excluida _ _ => true end.

(** [pd.DataFrame(included)] *)
Definition DataFrame (included : list StockResult) : list magic_row :=
  omap (λ r, match r with
             | Incluida t roc ey => Some {| mf_ticker := t; mf_roc := roc;
                                            mf_earnings_yield := ey |}
             | Excluida _ _ => None
             end) included.

Definition detail (r : StockResult) : list log_line :=
  match r with
  | Incluida _ _ _ => []
  | Excluida t missing => [ExcludedDetail t missing]
  end.

Section run_analysis.
Context `{pandas.SortValues}.
(** [yf ticker] is what [yf.Ticker(ticker)] gives for the statements. *)
Context (yf : string → py statements).

Definition prepare_rankings (results : list StockResult)
  : option (list (ranked magic_row)) * list log_line :=
  let included := filter (λ r, is_Incluida r = true) results in
  if bool_decide (length included = 0) then (None, [NoData])
  else (Some (rank_rows mf_roc mf_earnings_yield (DataFrame included)), []).

Definition print_results (results : list StockResult)
    (rankings_df : option (list (ranked magic_row))) : list log_line :=
  let top :=
    match rankings_df with
    | Some df => [TopTable (pandas.head 10 (magic_table_row <$> df))]
    | None => []
    end in
  let excluded := filter (λ r, is_Excluida r = true) results in
  top ++ [StatTotal (length results);
          StatIncluded (length results - length excluded);
          StatExcluded (length excluded)]
      ++ (excluded ≫= detail).

Definition results_of (companies : list string) : list StockResult :=
  (λ t, (analyze_stock t (yf t)).1) <$> companies.

Definition logged (companies : list string) : list log_line :=
  companies ≫= λ t, (analyze_stock t (yf t)).2.

Definition run_analysis (companies : list string)
  : option (list table_row) * list log_line :=
  if bool_decide (length companies = 0) then (None, [NoCompanyList])
  else
    let results := results_of companies in
    let '(rankings_df, warning) := prepare_rankings results in
    let log := print_results results rankings_df in
    (pandas.head 10 <$> (fmap magic_table_row <$> rankings_df),
     logged companies ++ warning ++ log).
End run_analysis.

End MagicFormulaV2.

(** ** Carteira03 - USA (Pagadoras de Dividendos).py *)

Record date : Type := { year : Z; month : Z; day : Z }.

(** The entries of [stock.info] the dividend scripts read. *)
Record dividend_info : Type := {
  info_dividendYield : option Q;
  info_currentPrice : option Q;
  info_shortName : option string;
  info_sector : option string
}.

(** The columns of an included company. *)
Record dividend_row : Type := {
  row_ticker : string;
  row_name : string;
  row_sector : string;
  row_current_price : Q;
  row_dividend_yield : Q;
  row_consecutive_years : Z
}.

(** Python's [round(x, ndigits)]: to the nearest multiple of
    [10 ** -ndigits], an exact half going to the even neighbour. *)
Definition round_half_even (x : Q) : Z :=
  let f := Qfloor x in
  match (x - inject_Z f ?= 1 # 2)%Q with
  | Lt => f
  | Gt => (f + 1)%Z
  | Eq => if Z.even f then f else (f + 1)%Z
  end.

Definition round (x : Q) (ndigits : Z) : Q :=
  (inject_Z (round_half_even (x * inject_Z (10 ^ ndigits)))
   / inject_Z (10 ^ ndigits))%Q.

(** The binary64 numbers of Python's [float]: a number [m * 2 ^ e] with
    [m < 2 ^ 53] and [-1074 <= e].  [floor_log2 a] is the [k] with
    [2 ^ k <= a < 2 ^ (k + 1)], for a positive [a]. *)
Definition floor_log2 (a : Q) : Z :=
  let k := (Z.log2 (Qnum a) - Z.log2 (Zpos (Qden a)))%Z in
  if Qle_bool (2 ^ k) a then k else (k - 1)%Z.

(** The exponent of the last bit of the binary64 numbers around a
    positive [a]; -1074 is the exponent of the subnormal numbers. *)
Definition ulp_exponent (a : Q) : Z := Z.max (floor_log2 a - 52) (-1074).

(** The binary64 number nearest to [x], an exact half going to the even
    significand.  Beyond the largest binary64 number, where Python has
    [inf], the model goes on with the rounded number. *)
Definition binary64 (x : Q) : Q :=
  match Qnum x with
  | Z0 => 0
  | Zpos _ =>
      let e := ulp_exponent x in
      inject_Z (round_half_even (x / 2 ^ e)) * 2 ^ e
  | Zneg _ =>
      let e := ulp_exponent (- x) in
      - (inject_Z (round_half_even (- x / 2 ^ e)) * 2 ^ e)
  end%Q.

(** [x * y] on floats: the exact product, rounded to binary64. *)
Definition mul_float (x y : Q) : Q := binary64 (x * y).
Arguments mul_float : simpl never.

(** [sorted(set(years))] *)
Definition sorted_set (years : list Z) : list Z :=
  merge_sort Z.le (remove_dups years).

(** The loop [for i in range(1, len(unique_years))] over the indices still
    to visit; leaving the recursion is the [break]. *)
Fixpoint consecutive_loop (unique_years : list Z) (range : list nat)
    (consecutive_years : Z) : Z :=
  match range with
  | [] => consecutive_years
  | i :: range' =>
      if bool_decide (unique_years !!! i = (unique_years !!! (i - 1)%nat + 1)%Z)
      then consecutive_loop unique_years range' (consecutive_years + 1)%Z
      else consecutive_years
  end.

Definition count_consecutive (index : list date) : Z :=
  let years := year <$> index in
  let unique_years := sorted_set years in
  consecutive_loop unique_years (seq 1 (length unique_years - 1)) 1%Z.

(** The two ranked columns of the dividend scripts: the yield in percent
    and the number of consecutive years. *)
Definition years_value (r : dividend_row) : Q :=
  inject_Z (row_consecutive_years r).

(** [df[['Final_Rank', 'Ticker', 'Dividend Yield (%)',
    'Anos de Dividendos Consecutivos']]] *)
Definition dividend_table_row (r : ranked dividend_row) : table_row :=
  let d := row (scored_row r) in
  (Final_Rank r, row_ticker d, [row_dividend_yield d; years_value d]).

Module Dividendos.

Inductive result : Type :=
| Incluida (r : dividend_row)
| Excluida (Ticker : string) (Missing : list string).

(** [stock_info] is [stock.info], [historico] the index of
    [stock.history(period="max")['Dividends']]. *)
Definition calculate_yield_and_dividend_years_try (ticker : string)
    (stock_info : py dividend_info) (historico : py (list date)) : py result :=
  info ← stock_info;
  let dividend_yield := mul_float (default 0%Q (info_dividendYield info)) 100 in
  let current_price := default 0%Q (info_currentPrice info) in
  let short_name := default "N/A" (info_shortName info) in
  let setor := default "N/A" (info_sector info) in
  dividendos ← historico;
  if bool_decide (length dividendos = 0) || Qeq_bool dividend_yield 0
     || Qeq_bool current_price 0 then
    Return (Excluida ticker ["Dados insuficientes"])
  else
    let anos_consecutivos := count_consecutive dividendos in
    Return (Incluida {| row_ticker := ticker;
                        row_name := short_name;
                        row_sector := setor;
                        row_current_price := current_price;
                        row_dividend_yield := round dividend_yield 2;
                        row_consecutive_years := anos_consecutivos |}).

Definition calculate_yield_and_dividend_years (ticker : string)
    (stock_info : py dividend_info) (historico : py (list date)) : result :=
  match calculate_yield_and_dividend_years_try ticker stock_info historico with
  | Return r => r
  | Raise e => Excluida ticker [e]
  end.

Definition Ticker_of (r : result) : string :=
  match r with Incluida d => row_ticker d | Excluida t _ => t end.

Definition is_Incluida (r : result) : bool :=
  match r with Incluida _ => true | Excluida _ _ => false end.

Definition is_Excluida (r : result) : bool :=
  match r with Incluida _ => false | Excluida _ _ => true end.

(** [pd.DataFrame(included)] *)
Definition DataFrame (included : list result) : list dividend_row :=
  omap (λ r, match r with
             | Incluida d => Some d
             | Excluida _ _ => None
             end) included.

Definition detail (r : result) : list log_line :=
  match r with
  | Incluida _ => []
  | Excluida t missing => [ExcludedDetail t missing]
  end.

Section main.
Context `{pandas.SortValues}.
(** [yf_info ticker] is [stock.info], [yf_history ticker] the index of
    the [Dividends] column of [stock.history(period="max")]. *)
Context (yf_info : string → py dividend_info)
        (yf_history : string → py (list date)).

Definition all_results (companies : list string) : list result :=
  (λ ticker, calculate_yield_and_dividend_years ticker (yf_info ticker)
               (yf_history ticker)) <$> companies.

Definition included (all_results : list result) : list result :=
  filter (λ r, is_Incluida r = true) all_results.

Definition excluded (all_results : list result) : list result :=
  filter (λ r, is_Excluida r = true) all_results.

Definition scores_df (included : list result) : list (ranked dividend_row) :=
  rank_rows row_dividend_yield years_value (DataFrame included).

Definition main (companies : list string)
  : option (list table_row) * list log_line :=
  let all_results := all_results companies in
  let included := included all_results in
  let excluded := excluded all_results in
  if bool_decide (0 < length included) then
    let top_10 := pandas.head 10 (dividend_table_row <$> scores_df included) in
    (Some top_10,
     [TopTable top_10; StatTotal (length all_results);
      StatIncluded (length included); StatExcluded (length excluded)]
     ++ (excluded ≫= detail))
  else
    (None, [NoData]).
End main.

End Dividendos.

(** ** Carteira03 - USA (Pagadoras de Dividendos) - v2.py *)

Module DividendosV2.

(** What [analyze_stock] reads of the value of [get_stock_info]: the
    keys ['dividend_yield'], ['current_price'], ['short_name'] and
    ['sector']. *)
Record stock_info_dict : Type := {
  dividend_yield : Q;
  current_price : Q;
  short_name : string;
  sector : string
}.

Inductive DividendResult : Type :=
| Incluida (r : dividend_row)
| Excluida (ticker : string) (missing_data : list string).

(** The script calls [StockInfo(...)] but neither defines nor imports
    this name (its first line imports [TypedDict]; no class is declared
    with it): looking the name up raises [NameError].  An interpreter
    that evaluates annotations at the [def] stops at the definition of
    [get_stock_info], which names [StockInfo] in its return annotation,
    and nothing of the script runs; the model is the script where it
    does run, with annotations evaluated lazily. *)
Definition StockInfo : py (Q → Q → string → string → stock_info_dict) :=
  Raise "name 'StockInfo' is not defined".

(** The body of the [try] of [get_stock_info]: [stock.info] is read, then
    the callee [StockInfo] is looked up, before its arguments are
    evaluated. *)
Definition get_stock_info_try (stock_info : py dividend_info)
  : py stock_info_dict :=
  info ← stock_info;
  make ← StockInfo;
  Return (make (mul_float (default 0%Q (info_dividendYield info)) 100)
               (default 0%Q (info_currentPrice info))
               (default "N/A" (info_shortName info))
               (default "N/A" (info_sector info))).

Definition get_stock_info (t : string) (stock_info : py dividend_info)
  : option stock_info_dict * list log_line :=
  match get_stock_info_try stock_info with
  | Return r => (Some r, [])
  | Raise e => (None, [ProcessingError t e])
  end.

(** [history] is the index of [history['Dividends']]. *)
Definition calculate_consecutive_years (history : list date) : Z :=
  if bool_decide (length history = 0) then 0%Z
  else count_consecutive history.

Definition analyze_stock (t : string) (stock_info : py dividend_info)
    (stock_history : py (list date)) : DividendResult * list log_line :=
  let '(info, log) := get_stock_info t stock_info in
  match info with
  | None => (Excluida t ["Dados básicos não disponíveis"], log)
  | Some stock_info =>
      if Qeq_bool (dividend_yield stock_info) 0
         || Qeq_bool (current_price stock_info) 0 then
        (Excluida t ["Dados insuficientes de dividendos"], log)
      else
        match stock_history with
        | Raise e => (Excluida t [e], log)
        | Return history =>
            let consecutive_years := calculate_consecutive_years history in
            (Incluida {| row_ticker := t;
                         row_name := short_name stock_info;
                         row_sector := sector stock_info;
                         row_current_price := current_price stock_info;
                         row_dividend_yield := round (dividend_yield stock_info) 2;
                         row_consecutive_years := consecutive_years |}, log)
        end
  end.

Definition ticker_of (r : DividendResult) : string :=
  match r with Incluida d => row_ticker d | Excluida t _ => t end.

Definition is_Incluida (r : DividendResult) : bool :=
  match r with Incluida _ => true | Excluida _ _ => false end.

Definition is_Excluida (r : DividendResult) : bool :=
  match r with Incluida _ => false | Excluida _ _ => true end.

(** [pd.DataFrame(included)] *)
Definition DataFrame (included : list DividendResult) : list dividend_row :=
  omap (λ r, match r with
             | Incluida d => Some d
             | Excluida _ _ => None
             end) included.

Definition detail (r : DividendResult) : list log_line :=
  match r with
  | Incluida _ => []
  | Excluida t missing => [ExcludedDetail t missing]
  end.

Section run_analysis.
Context `{pandas.SortValues}.
Context (yf_info : string → py dividend_info)
        (yf_history : string → py (list date)).

Definition prepare_rankings (results : list DividendResult)
  : option (list (ranked dividend_row)) * list log_line :=
  let included := filter (λ r, is_Incluida r = true) results in
  if bool_decide (length included = 0) then (None, [NoData])
  else (Some (rank_rows row_dividend_yield years_value (DataFrame included)),
        []).

Definition print_results (results : list DividendResult)
    (rankings_df : option (list (ranked dividend_row))) : list log_line :=
  let top :=
    match rankings_df with
    | Some df => [TopTable (pandas.head 10 (dividend_table_row <$> df))]
    | None => []
    end in
  let excluded := filter (λ r, is_Excluida r = true) results in
  top ++ [StatTotal (length results);
          StatIncluded (length results - length excluded);
          StatExcluded (length excluded)]
      ++ (excluded ≫= detail).

Definition results_of (companies : list string) : list DividendResult :=
  (λ t, (analyze_stock t (yf_info t) (yf_history t)).1) <$> companies.

Definition logged (companies : list string) : list log_line :=
  companies ≫= λ t, (analyze_stock t (yf_info t) (yf_history t)).2.

Definition run_analysis (companies : list string)
  : option (list table_row) * list log_line :=
  if bool_decide (length companies = 0) then (None, [NoCompanyList])
  else
    let results := results_of companies in
    let '(rankings_df, warning) := prepare_rankings results in
    let log := print_results results rankings_df in
    (pandas.head 10 <$> (fmap dividend_table_row <$> rankings_df),
     logged companies ++ warning ++ log).
End run_analysis.

End DividendosV2.

(** ** The average method, in the words of the specification

    In the descending order of a column the values greater than [v] come
    first, so the symbols holding [v] would occupy the positions
    [n_greater + 1 .. n_greater + n_equal]; each of them gets the mean of
    these positions. *)

Global Instance Qlt_dec : RelDecision Qlt.
Proof.
  refine (λ x y, match Qlt_le_dec x y with
                 | left H => left H
                 | right H => right (Qle_not_lt _ _ H)
                 end).
Defined.

Global Instance Qeq_dec' : RelDecision Qeq := Qeq_dec.

Definition n_greater (values : list Q) (v : Q) : nat :=
  length (filter (λ w, (v < w)%Q) values).

Definition n_equal (values : list Q) (v : Q) : nat :=
  length (filter (λ w, (w == v)%Q) values).

Definition positions_occupied (values : list Q) (v : Q) : list nat :=
  seq (S (n_greater values v)) (n_equal values v).

Definition mean (positions : list nat) : Q :=
  (Q_of_nat (sum_list positions) / Q_of_nat (length positions))%Q.

Definition average_rank (values : list Q) (v : Q) : Q :=
  mean (positions_occupied values v).

(** ** What the final ranking is to satisfy *)

(** [df] ranks the rows [included] by the two columns [c1] and [c2]: the
    final ranks are 1..K in this order, every included row appears once,
    each row carries the average-method rank of its value in both columns
    and their mean as combined rank, and a better final rank never goes
    with a greater combined rank. *)
Definition dense_ranking {R : Type} (c1 c2 : R → Q) (included : list R)
    (df : list (ranked R)) : Prop :=
  Final_Rank <$> df = seq 1 (length included)
  ∧ (row ∘ scored_row) <$> df ≡ₚ included
  ∧ (∀ a, a ∈ df →
       (Rank_1 (scored_row a)
        == average_rank (c1 <$> included) (c1 (row (scored_row a))))%Q
       ∧ (Rank_2 (scored_row a)
          == average_rank (c2 <$> included) (c2 (row (scored_row a))))%Q
       ∧ (Combined_Rank (scored_row a)
          == (Rank_1 (scored_row a) + Rank_2 (scored_row a)) / 2)%Q)
  ∧ (∀ a b, a ∈ df → b ∈ df →
       (Final_Rank a ≤ Final_Rank b →
        (Combined_Rank (scored_row a) <= Combined_Rank (scored_row b))%Q)
       ∧ ((Combined_Rank (scored_row a) < Combined_Rank (scored_row b))%Q →
          Final_Rank a < Final_Rank b)).

(** Two rows with equal combined rank keep, in [df], the order they have
    in [included] (the order of the universe). *)
Definition ties_keep_universe_order {R : Type} (included : list R)
    (df : list (ranked R)) : Prop :=
  ∀ i j x y a b,
    included !! i = Some x → included !! j = Some y → i < j →
    a ∈ df → b ∈ df →
    row (scored_row a) = x → row (scored_row b) = y →
    (Combined_Rank (scored_row a) == Combined_Rank (scored_row b))%Q →
    Final_Rank a < Final_Rank b.

(** ** A sort that meets [pandas.SortValues]

    stdpp's merge sort orders the rows by the key; it is not a stable
    sort, as [kind='quicksort'] is not. *)

Global Instance in_order_dec {A : Type} (by_ : A → Q) (ascending : bool) :
  RelDecision (pandas.in_order by_ ascending).
Proof.
  refine (λ x y, match ascending as b
                   return Decision (pandas.in_order by_ b x y) with
                 | true => Qle_dec (by_ x) (by_ y)
                 | false => Qle_dec (by_ y) (by_ x)
                 end).
Defined.

Global Instance in_order_total {A : Type} (by_ : A → Q) (ascending : bool) :
  Total (pandas.in_order by_ ascending).
Proof.
  intros x y. unfold pandas.in_order.
  destruct ascending, (Qlt_le_dec (by_ x) (by_ y)); auto using Qlt_le_weak.
Qed.

Definition merge_sort_values : pandas.SortValues := {|
  pandas.sort_values := λ A by_ ascending df,
    merge_sort (pandas.in_order by_ ascending) df;
  pandas.sort_values_Permutation := λ A by_ ascending df,
    merge_sort_Permutation (pandas.in_order by_ ascending) df;
  pandas.sort_values_Sorted := λ A by_ ascending df,
    Sorted_merge_sort (pandas.in_order by_ ascending) df
|}.

(** The tickers of a ranked frame, in the order of the final rank. *)
Definition ranked_tickers {R : Type} (ticker : R → string)
    (df : list (ranked R)) : list string :=
  (λ a, ticker (row (scored_row a))) <$> df.

(** The run of consecutive years that follows [prev] at the head of
    [rest]: the count of [consecutive_loop] read off the list itself. *)
Fixpoint run_from (prev : Z) (rest : list Z) : Z :=
  match rest with
  | [] => 0
  | y :: rest' =>
      if bool_decide (y = (prev + 1)%Z) then (1 + run_from y rest')%Z else 0%Z
  end.

(** The payment years of the example: 2019, 2020, 2021 and, after a gap,
    2023. *)
Definition years_2019_2023 : list Z := [2019; 2020; 2021; 2023]%Z.

(** A company that reports the given dividend yield and a price of 100. *)
Definition paying (yield : Q) : dividend_info :=
  {| info_dividendYield := Some yield; info_currentPrice := Some 100%Q;
     info_shortName := None; info_sector := None |}.

(** A log reports a ticker among the excluded: it gives the number of
    excluded companies and lists the ticker with its reasons. *)
Definition listed_among_excluded (log : list log_line) (ticker : string) : Prop :=
  (∃ n, StatExcluded n ∈ log) ∧ (∃ missing, ExcludedDetail ticker missing ∈ log).

(** A provider of [stock.info] for the factor scripts under which "BBB"
    reports no [trailingPE] and every other ticker reports all four
    metrics. *)
Definition factor_info (ticker : string) : py Fatores.info :=
  Return {| Fatores.trailingPE :=
              if String.eqb ticker "BBB" then None else Some 20%Q;
            Fatores.returnOnEquity := Some (1 # 5)%Q;
            Fatores.debtToEquity := Some 50%Q;
            Fatores.dividendYield := Some (3 # 100)%Q |}.

(** A provider under which every company lacks all four metrics. *)
Definition no_factor_info (ticker : string) : py Fatores.info :=
  Return {| Fatores.trailingPE := None; Fatores.returnOnEquity := None;
            Fatores.debtToEquity := None; Fatores.dividendYield := None |}.

(** A provider for the Magic Formula scripts under which "BBB" reports no
    EBIT and every other ticker reports all seven metrics. *)
Definition magic_statements (ticker : string) : py statements :=
  Return {| income_stmt_empty := false; balance_sheet_empty := false;
            EBIT := if String.eqb ticker "BBB" then None else Some 10%Q;
            Total_Assets := Some 50%Q; Current_Assets := Some 30%Q;
            Current_Liabilities := Some 10%Q; marketCap := Some 100%Q;
            totalDebt := Some 20%Q; totalCash := Some 20%Q |}.

(** A provider under which no company has financial statements. *)
Definition no_statements (ticker : string) : py statements :=
  Return {| income_stmt_empty := true; balance_sheet_empty := true;
            EBIT := None; Total_Assets := None; Current_Assets := None;
            Current_Liabilities := None; marketCap := None;
            totalDebt := None; totalCash := None |}.

(** Four companies of the Magic Formula model in two tied pairs: "AAA"
    and "BBB" have the combined rank 3.5, "CCC" and "DDD" the combined
    rank 1.5. *)
Definition two_tied_pairs : list MagicFormulaV2.StockResult :=
  [MagicFormulaV2.Incluida "AAA" 1 2; MagicFormulaV2.Incluida "BBB" 2 1;
   MagicFormulaV2.Incluida "CCC" 3 4; MagicFormulaV2.Incluida "DDD" 4 3]%Q.

(** The binary64 numbers that Python writes 0.00125, 0.03004 and
    0.03006. *)
Definition float_0_00125 : Q := 5764607523034235 # 4611686018427387904.
Definition float_0_03004 : Q := 8658440499597421 # 288230376151711744.
Definition float_0_03006 : Q := 8664205107120455 # 288230376151711744.

(** ** The invariant of the loop of [rank_sorted_1d]

    After [n] iterations over the indexer [idx] of the column [vals]: the
    last [dups] positions form an open run of equal values whose
    positions add up to [sum_ranks], strictly greater values come before
    the run, and every position before the run has its final rank. *)
Definition rank_inv (vals : list Q) (idx : list nat) (n : nat)
    (st : pandas.rank_state) : Prop :=
  let s := n - pandas.dups st in
  pandas.dups st ≤ n ∧
  pandas.sum_ranks st = sum_list (seq (S s) (pandas.dups st)) ∧
  length (pandas.out st) = length vals ∧
  (∀ j, s ≤ j → j ≤ n → j < length vals →
        (vals !!! (idx !!! j) == vals !!! (idx !!! s))%Q) ∧
  (∀ j, j < s → s < length vals →
        (vals !!! (idx !!! s) < vals !!! (idx !!! j))%Q) ∧
  (∀ j, j < s →
        (pandas.out st !!! (idx !!! j)
         == average_rank vals (vals !!! (idx !!! j)))%Q) ∧
  (n = length vals → pandas.dups st = 0).

(** ** Further notions used by the properties of the scripts *)

(** The sum of a column of numbers. *)
Definition sum_Q (values : list Q) : Q := foldr Qplus 0%Q values.

(** The number of values of a column smaller than [v]. *)
Definition n_smaller (values : list Q) (v : Q) : nat :=
  length (filter (λ w, (w < v)%Q) values).

(** Twice the values greater than [v] plus the values equal to it: twice
    the average rank of [v], less one. *)
Definition pair_count (values : list Q) (v : Q) : nat :=
  2 * n_greater values v + n_equal values v.

(** Two companies of the Magic Formula model of which the second is
    better on both components. *)
Definition dominated_pair : list magic_row :=
  [{| mf_ticker := "AAA"; mf_roc := 1; mf_earnings_yield := 1 |};
   {| mf_ticker := "BBB"; mf_roc := 3; mf_earnings_yield := 3 |}]%Q.

Definition scored_AAA : scored magic_row :=
  {| row := {| mf_ticker := "AAA"; mf_roc := 1; mf_earnings_yield := 1 |};
     Rank_1 := 2; Rank_2 := 2; Combined_Rank := 4 # 2 |}%Q.

Definition scored_BBB : scored magic_row :=
  {| row := {| mf_ticker := "BBB"; mf_roc := 3; mf_earnings_yield := 3 |};
     Rank_1 := 1; Rank_2 := 1; Combined_Rank := 2 # 2 |}%Q.

(** The column of ranks and the column of tickers of a printed table. *)
Definition table_ranks (table : list table_row) : list nat :=
  (λ r, r.1.1) <$> table.

Definition table_tickers (table : list table_row) : list string :=
  (λ r, r.1.2) <$> table.

(** A second sort that meets [pandas.SortValues]: merge sort of the rows
    taken in reverse.  On rows with equal keys its answer differs from
    that of [merge_sort_values]. *)
Definition merge_sort_reverse_values : pandas.SortValues := {|
  pandas.sort_values := λ A by_ ascending df,
    merge_sort (pandas.in_order by_ ascending) (reverse df);
  pandas.sort_values_Permutation := λ A by_ ascending df,
    transitivity (merge_sort_Permutation (pandas.in_order by_ ascending)
                    (reverse df))
                 (reverse_Permutation df);
  pandas.sort_values_Sorted := λ A by_ ascending df,
    Sorted_merge_sort (pandas.in_order by_ ascending) (reverse df)
|}.

(** The outcomes of the two Magic Formula scripts for one company say the
    same: both include it with the same two ratios, or both exclude
    it. *)
Definition same_magic_outcome (r1 : MagicFormula.result)
    (r2 : MagicFormulaV2.StockResult) : Prop :=
  match r1, r2 with
  | MagicFormula.Incluida t1 roc1 ey1, MagicFormulaV2.Incluida t2 roc2 ey2 =>
      t1 = t2 ∧ roc1 = roc2 ∧ ey1 = ey2
  | MagicFormula.Excluida t1 _, MagicFormulaV2.Excluida t2 _ => t1 = t2
  | _, _ => False
  end.

(** A provider for the factor scripts under which "AAA" trades at half
    the price-earnings ratio of every other company, the three other
    metrics being equal. *)
Definition cheaper_AAA (ticker : string) : py Fatores.info :=
  Return {| Fatores.trailingPE :=
              Some (if String.eqb ticker "AAA" then 10 else 20)%Q;
            Fatores.returnOnEquity := Some (1 # 5)%Q;
            Fatores.debtToEquity := Some 50%Q;
            Fatores.dividendYield := Some (3 # 100)%Q |}.

(** Providers for the dividend scripts: every company yields 3 % at a
    price of 100 and has paid once, in March 2020. *)
Definition yielding_3_percent (ticker : string) : py dividend_info :=
  Return (paying (3 # 100)).

Definition paid_in_2020 (ticker : string) : py (list date) :=
  Return [{| year := 2020; month := 3; day := 1 |}].

(** * Properties *)

(** ** The average-method rank *)

Lemma Q_of_nat_pos n : 0 < n → (0 < Q_of_nat n)%Q.
Proof.
  intros. unfold Q_of_nat. change 0%Q with (inject_Z 0).
  rewrite <- Zlt_Qlt. lia.
Qed.

Lemma sum_list_seq_S a k : sum_list (seq a (S k)) = sum_list (seq a k) + (a + k).
Proof. rewrite seq_S, sum_list_with_app. simpl. lia. Qed.

(** Twice the sum of the positions [a .. a + k - 1]. *)
Lemma sum_list_seq_twice a k : 2 * sum_list (seq a k) = k * (2 * a + k - 1).
Proof.
  induction k as [|k IH]; [done|].
  rewrite sum_list_seq_S. nia.
Qed.

Lemma mean_seq g e :
  0 < e → (mean (seq (S g) e) == Q_of_nat g + (Q_of_nat e + 1) / 2)%Q.
Proof.
  intros He. unfold mean. rewrite length_seq.
  pose proof (sum_list_seq_twice (S g) e) as Hs.
  assert (Q_of_nat (sum_list (seq (S g) e)) * 2
          == Q_of_nat e * (2 * Q_of_nat g + Q_of_nat e + 1))%Q as Hq.
  { assert (Z.of_nat (sum_list (seq (S g) e)) * 2
            = Z.of_nat e * (2 * Z.of_nat g + Z.of_nat e + 1))%Z as Hz by nia.
    unfold Q_of_nat, inject_Z, Qeq, Qmult, Qplus. simpl. nia. }
  pose proof (Q_of_nat_pos e He).
  field_simplify_eq; [|lra]. lra.
Qed.

Lemma StronglySorted_lookup_lt {A} (R : relation A) (l : list A) a b x y :
  StronglySorted R l → l !! a = Some x → l !! b = Some y → a < b → R x y.
Proof.
  intros Hs. revert a b. induction Hs as [|z l Hs IH Hall]; intros a b Ha Hb Hab.
  - by rewrite lookup_nil in Ha.
  - destruct b as [|b]; [lia|]. destruct a as [|a]; simpl in *.
    + simplify_eq. rewrite Forall_forall in Hall. apply Hall.
      by eapply list_elem_of_lookup_2.
    + eapply IH; eauto. lia.
Qed.

Lemma length_filter_Forall {A} (P : A → Prop) `{∀ x, Decision (P x)} (l : list A) :
  Forall P l → length (filter P l) = length l.
Proof.
  induction 1 as [|x l Hx Hl IH]; [done|].
  rewrite filter_cons_True by done. simpl. by rewrite IH.
Qed.

Lemma length_filter_Forall_not {A} (P : A → Prop) `{∀ x, Decision (P x)}
    (l : list A) :
  Forall (λ x, ¬ P x) l → length (filter P l) = 0.
Proof.
  induction 1 as [|x l Hx Hl IH]; [done|].
  by rewrite filter_cons_False.
Qed.

Lemma length_filter_ge_split (v : Q) (l : list Q) :
  Forall (λ w, (v <= w)%Q) l →
  length (filter (λ w, (v < w)%Q) l) + length (filter (λ w, (w == v)%Q) l)
  = length l.
Proof.
  induction 1 as [|w l Hw Hl IH]; [done|].
  rewrite !filter_cons. simpl.
  destruct (decide (v < w)%Q), (decide (w == v)%Q); simpl; try lia; lra.
Qed.

Lemma length_filter_gt_eq (v : Q) (l : list Q) :
  length (filter (λ w, (v < w)%Q) l) + length (filter (λ w, (w == v)%Q) l)
  ≤ length l.
Proof.
  induction l as [|w l IH]; [done|]. rewrite !filter_cons.
  destruct (decide (v < w)%Q), (decide (w == v)%Q); simpl; try lia; lra.
Qed.

Section rank_sorted.
Variable vals : list Q.
Variable idx : list nat.
Hypothesis idx_perm : idx ≡ₚ seq 0 (length vals).
Hypothesis idx_sorted :
  StronglySorted (λ i j, (vals !!! j <= vals !!! i)%Q) idx.

Local Abbreviation N := (length vals).
Local Abbreviation sv j := (vals !!! (idx !!! j)).

Lemma idx_length : length idx = N.
Proof. by rewrite idx_perm, length_seq. Qed.

Lemma idx_NoDup : NoDup idx.
Proof. rewrite idx_perm. apply NoDup_seq. Qed.

Lemma idx_lookup j : j < N → idx !! j = Some (idx !!! j).
Proof. intros. apply list_lookup_lookup_total_lt. by rewrite idx_length. Qed.

Lemma idx_bound j : j < N → idx !!! j < N.
Proof.
  intros Hj. assert (idx !!! j ∈ seq 0 N) as Hin.
  { rewrite <- idx_perm. eapply list_elem_of_lookup_2, idx_lookup, Hj. }
  apply elem_of_seq in Hin. lia.
Qed.

Lemma idx_inj i j : i < N → j < N → idx !!! i = idx !!! j → i = j.
Proof.
  intros Hi Hj Heq. eapply NoDup_lookup; [apply idx_NoDup| |].
  - by apply idx_lookup.
  - rewrite Heq. by apply idx_lookup.
Qed.

Lemma idx_surj k : k < N → ∃ j, j < N ∧ idx !!! j = k.
Proof.
  intros Hk. assert (k ∈ idx) as Hin.
  { rewrite idx_perm. apply elem_of_seq. lia. }
  apply list_elem_of_lookup_1 in Hin as [j Hj]. exists j.
  pose proof (lookup_lt_Some _ _ _ Hj) as Hlt. rewrite idx_length in Hlt.
  split; [done|]. by apply list_lookup_total_correct.
Qed.

Lemma sv_sorted a b : a ≤ b → b < N → (sv b <= sv a)%Q.
Proof.
  intros Hab Hb. destruct (decide (a = b)) as [->|Hne]; [apply Qle_refl|].
  assert (a < N) as Ha by lia.
  exact (StronglySorted_lookup_lt _ idx a b _ _ idx_sorted
           (idx_lookup a Ha) (idx_lookup b Hb) ltac:(lia)).
Qed.

(** The column read through the indexer is the column, reordered. *)
Lemma sorted_vals_Permutation : (λ k, vals !!! k) <$> idx ≡ₚ vals.
Proof.
  rewrite idx_perm. apply reflexive_eq, list_eq. intros i.
  rewrite list_lookup_fmap.
  destruct (decide (i < N)) as [Hi|Hi].
  - rewrite lookup_seq_lt by done. simpl.
    by rewrite list_lookup_lookup_total_lt.
  - rewrite lookup_seq_ge, lookup_ge_None_2 by lia. done.
Qed.

Lemma sorted_vals_split s e :
  s + e ≤ N →
  (λ k, vals !!! k) <$> idx
  = ((λ k, vals !!! k) <$> take s idx)
    ++ ((λ k, vals !!! k) <$> take e (drop s idx))
    ++ ((λ k, vals !!! k) <$> drop (s + e) idx).
Proof.
  intros. rewrite <- !fmap_app. f_equal.
  rewrite <- (take_drop s idx) at 1. f_equal.
  rewrite <- (take_drop e (drop s idx)) at 1. f_equal.
  by rewrite drop_drop.
Qed.

(** A run [s .. s + e - 1] of the sorted order holding [v], with greater
    values before it and smaller values after it, fixes both counts. *)
Lemma counts_of_run s e v :
  s + e ≤ N →
  (∀ j, j < s → (v < sv j)%Q) →
  (∀ j, s ≤ j → j < s + e → (sv j == v)%Q) →
  (∀ j, s + e ≤ j → j < N → (sv j < v)%Q) →
  n_greater vals v = s ∧ n_equal vals v = e.
Proof.
  intros Hle Hgt Heq Hlt. unfold n_greater, n_equal.
  rewrite <- !sorted_vals_Permutation, (sorted_vals_split s e Hle).
  rewrite !filter_app, !length_app.
  assert (Forall (λ w, (v < w)%Q) ((λ k, vals !!! k) <$> take s idx)) as H1.
  { apply Forall_fmap, Forall_lookup_2. intros j k Hj.
    apply lookup_take_Some in Hj as [Hj ?].
    apply list_lookup_total_correct in Hj as <-. by apply Hgt. }
  assert (Forall (λ w, (w == v)%Q)
            ((λ k, vals !!! k) <$> take e (drop s idx))) as H2.
  { apply Forall_fmap, Forall_lookup_2. intros j k Hj.
    apply lookup_take_Some in Hj as [Hj ?]. rewrite lookup_drop in Hj.
    apply list_lookup_total_correct in Hj as <-. apply Heq; lia. }
  assert (Forall (λ w, (w < v)%Q) ((λ k, vals !!! k) <$> drop (s + e) idx))
    as H3.
  { apply Forall_fmap, Forall_lookup_2. intros j k Hj.
    rewrite lookup_drop in Hj.
    pose proof (lookup_lt_Some _ _ _ Hj) as Hb. rewrite idx_length in Hb.
    apply list_lookup_total_correct in Hj as <-. apply Hlt; lia. }
  split.
  - rewrite (length_filter_Forall _ _ H1).
    rewrite (length_filter_Forall_not (λ w, (v < w)%Q)),
            (length_filter_Forall_not (λ w, (v < w)%Q)).
    + rewrite length_fmap, length_take, idx_length. lia.
    + eapply Forall_impl; [exact H3|]. simpl. intros. lra.
    + eapply Forall_impl; [exact H2|]. simpl. intros. lra.
  - rewrite (length_filter_Forall _ _ H2).
    rewrite (length_filter_Forall_not (λ w, (w == v)%Q)),
            (length_filter_Forall_not (λ w, (w == v)%Q)).
    + rewrite length_fmap, length_take, length_drop, idx_length. lia.
    + eapply Forall_impl; [exact H3|]. simpl. intros. lra.
    + eapply Forall_impl; [exact H1|]. simpl. intros. lra.
Qed.

(** In the sorted order the positions that hold [v] are exactly the
    positions [n_greater .. n_greater + n_equal - 1], counted from 0:
    those of [positions_occupied], counted from 1. *)
Lemma positions_of_value p v :
  p < N →
  (sv p == v)%Q ↔
  n_greater vals v ≤ p ∧ p < n_greater vals v + n_equal vals v.
Proof.
  intros Hp.
  pose proof (sorted_vals_split p 1 ltac:(lia)) as Hsplit.
  assert (take 1 (drop p idx) = [idx !!! p]) as Hmid.
  { rewrite (drop_S idx (idx !!! p) p) by (by apply idx_lookup). done. }
  rewrite Hmid in Hsplit. simpl in Hsplit.
  assert (Forall (λ w, (sv p <= w)%Q) ((λ k, vals !!! k) <$> take p idx))
    as Hbefore.
  { apply Forall_fmap, Forall_lookup_2. intros j k Hj.
    apply lookup_take_Some in Hj as [Hj ?].
    apply list_lookup_total_correct in Hj as <-. apply sv_sorted; lia. }
  assert (Forall (λ w, (w <= sv p)%Q) ((λ k, vals !!! k) <$> drop (p + 1) idx))
    as Hafter.
  { apply Forall_fmap, Forall_lookup_2. intros j k Hj. rewrite lookup_drop in Hj.
    pose proof (lookup_lt_Some _ _ _ Hj) as Hb. rewrite idx_length in Hb.
    apply list_lookup_total_correct in Hj as <-. apply sv_sorted; lia. }
  assert (length ((λ k, vals !!! k) <$> take p idx) = p) as Hlen.
  { rewrite length_fmap, length_take, idx_length. lia. }
  assert (n_greater vals v
          = length (filter (λ w, (v < w)%Q) ((λ k, vals !!! k) <$> idx))) as ->
    by (unfold n_greater; by rewrite sorted_vals_Permutation).
  assert (n_equal vals v
          = length (filter (λ w, (w == v)%Q) ((λ k, vals !!! k) <$> idx))) as ->
    by (unfold n_equal; by rewrite sorted_vals_Permutation).
  rewrite Hsplit, !filter_app, !filter_cons, !length_app.
  set (A := (λ k, vals !!! k) <$> take p idx) in *.
  set (C := (λ k, vals !!! k) <$> drop (p + 1) idx) in *.
  pose proof (length_filter (λ w, (v < w)%Q) A) as HgA.
  pose proof (length_filter_gt_eq v A) as HsumA.
  rewrite Hlen in HgA, HsumA.
  pose proof (length_filter_ge_split v A) as HgeA. rewrite Hlen in HgeA.
  destruct (decide (v < sv p)%Q) as [Hgt|Hngt];
    destruct (decide (sv p == v)%Q) as [Heq|Hne]; simpl; try lra.
  - (* the value at [p] is greater than [v]: so are all values before *)
    rewrite (length_filter_Forall (λ w, (v < w)%Q) A)
      by (eapply Forall_impl; [exact Hbefore|]; simpl; intros; lra).
    split; [done|lia].
  - (* the value at [p] is [v]: no value after it is greater *)
    rewrite (length_filter_Forall_not (λ w, (v < w)%Q) C)
      by (eapply Forall_impl; [exact Hafter|]; simpl; intros; lra).
    split; [intros _|done].
    specialize (HgeA ltac:(eapply Forall_impl; [exact Hbefore|];
                             simpl; intros; lra)).
    lia.
  - (* the value at [p] is smaller than [v]: so are all values after *)
    rewrite (length_filter_Forall_not (λ w, (v < w)%Q) C),
            (length_filter_Forall_not (λ w, (w == v)%Q) C)
      by (eapply Forall_impl; [exact Hafter|]; simpl; intros; lra).
    split; [done|lia].
Qed.

Lemma writes_spec x a k (o : list Q) :
  length o = N → a + k ≤ N →
  length (foldl (λ o j, <[idx !!! j := x]> o) o (seq a k)) = N ∧
  ∀ j, j < N →
    foldl (λ o j, <[idx !!! j := x]> o) o (seq a k) !!! (idx !!! j)
    = if decide (a ≤ j ∧ j < a + k) then x else o !!! (idx !!! j).
Proof.
  intros Ho. induction k as [|k IH]; intros Hk.
  - split; [done|]. intros j Hj. simpl. case_decide; [lia|done].
  - destruct IH as [IHlen IHget]; [lia|].
    rewrite seq_S, foldl_app. simpl. split; [by rewrite length_insert|].
    intros j Hj. destruct (decide (j = a + k)) as [->|Hne].
    + rewrite list_lookup_total_insert_eq
        by (rewrite IHlen; apply idx_bound; lia).
      case_decide; [done|lia].
    + rewrite list_lookup_total_insert_ne
        by (intros Heq; apply idx_inj in Heq; lia).
      rewrite IHget by done. repeat case_decide; try done; lia.
Qed.

Lemma rank_inv_init :
  rank_inv vals idx 0 {| pandas.dups := 0; pandas.sum_ranks := 0;
                pandas.out := replicate N 0%Q |}.
Proof.
  unfold rank_inv. simpl. repeat split; try done; try lia.
  - by rewrite length_replicate.
  - intros j ? ? ?. assert (j = 0) as -> by lia. reflexivity.
Qed.

Lemma rank_inv_step n st :
  n < N → rank_inv vals idx n st →
  rank_inv vals idx (S n) (pandas.rank_sorted_step vals idx N st n).
Proof.
  intros Hn (Hd & Hsum & Hlen & Hrun & Hbefore & Hdone & _).
  unfold pandas.rank_sorted_step.
  set (s := n - pandas.dups st) in *.
  assert (S n - S (pandas.dups st) = s) as Hs by lia.
  assert (pandas.sum_ranks st + (n + 1)
          = sum_list (seq (S s) (S (pandas.dups st)))) as Hsum'.
  { rewrite sum_list_seq_S, Hsum. lia. }
  destruct (bool_decide (n = N - 1)
            || pandas.are_diff (sv n) (sv (n + 1)%nat)) eqn:Hdiff.
  - (* the run [s .. n] is closed *)
    assert (n + 1 < N → (sv (n + 1)%nat < sv n)%Q) as Hnext.
    { intros Hlt. apply orb_true_iff in Hdiff as [Hend|Hne].
      - apply bool_decide_eq_true in Hend. lia.
      - unfold pandas.are_diff in Hne. apply negb_true_iff in Hne.
        assert (¬ (sv n == sv (n + 1)%nat)%Q) as Hneq.
        { intros E. apply Qeq_bool_iff in E. congruence. }
        pose proof (sv_sorted n (n + 1) ltac:(lia) Hlt). lra. }
    assert (∀ j, s ≤ j → j ≤ n →
              average_rank vals (sv j)
              = (Q_of_nat (pandas.sum_ranks st + (n + 1))
                 / Q_of_nat (S (pandas.dups st)))%Q) as Havg.
    { intros j Hj1 Hj2.
      destruct (counts_of_run s (S (pandas.dups st)) (sv j)) as [Hg He].
      - lia.
      - intros j' Hj'. pose proof (Hbefore j' Hj' ltac:(lia)).
        pose proof (Hrun j Hj1 Hj2 ltac:(lia)). lra.
      - intros j' ? ?. pose proof (Hrun j' ltac:(lia) ltac:(lia) ltac:(lia)).
        pose proof (Hrun j Hj1 Hj2 ltac:(lia)). lra.
      - intros j' ? Hj'. assert (n + 1 < N) as Hlt by lia.
        pose proof (Hnext Hlt).
        pose proof (sv_sorted (n + 1) j' ltac:(lia) Hj').
        pose proof (Hrun n ltac:(lia) ltac:(lia) ltac:(lia)).
        pose proof (Hrun j Hj1 Hj2 ltac:(lia)). lra.
      - unfold average_rank, positions_occupied, mean.
        rewrite Hg, He, length_seq, Hsum'. done. }
    destruct (writes_spec
                (Q_of_nat (pandas.sum_ranks st + (n + 1))
                 / Q_of_nat (S (pandas.dups st)))%Q
                (n + 1 - S (pandas.dups st)) (S (pandas.dups st))
                (pandas.out st) Hlen ltac:(lia)) as [Hlen' Hget].
    unfold rank_inv. cbn [pandas.dups pandas.sum_ranks pandas.out].
    rewrite !Nat.sub_0_r.
    repeat split; try done; try lia.
    + intros j ? ? ?. assert (j = S n) as -> by lia. reflexivity.
    + intros j Hj Hlt. replace (S n) with (n + 1) in * by lia.
      pose proof (Hnext Hlt). pose proof (sv_sorted j n ltac:(lia) Hn). lra.
    + intros j Hj. rewrite Hget by lia. clear Hget.
      destruct (decide _) as [Hin|Hout].
      * rewrite (Havg j) by lia. reflexivity.
      * apply Hdone. lia.
  - (* the run stays open *)
    apply orb_false_iff in Hdiff as [Hend Heq].
    apply bool_decide_eq_false in Hend.
    unfold pandas.are_diff in Heq. apply negb_false_iff, Qeq_bool_iff in Heq.
    unfold rank_inv. cbn [pandas.dups pandas.sum_ranks pandas.out]. rewrite Hs.
    repeat split; try done; try lia.
    intros j Hj1 Hj2 Hj3. destruct (decide (j = S n)) as [->|Hne].
    + replace (S n) with (n + 1) by lia. rewrite <- Heq.
      apply Hrun; lia.
    + apply Hrun; lia.
Qed.

Lemma rank_inv_loop n :
  n ≤ N →
  rank_inv vals idx n (foldl (pandas.rank_sorted_step vals idx N)
                {| pandas.dups := 0; pandas.sum_ranks := 0;
                   pandas.out := replicate N 0%Q |} (seq 0 n)).
Proof.
  induction n as [|n IH]; intros Hn; [apply rank_inv_init|].
  rewrite seq_S, foldl_app. simpl. apply rank_inv_step; [lia|]. apply IH. lia.
Qed.

Lemma rank_sorted_1d_spec :
  length (pandas.rank_sorted_1d vals idx) = N ∧
  ∀ k, k < N →
    (pandas.rank_sorted_1d vals idx !!! k == average_rank vals (vals !!! k))%Q.
Proof.
  destruct (rank_inv_loop N (le_n _))
    as (Hd & Hsum & Hlen & Hrun & Hbefore & Hdone & Hend).
  unfold pandas.rank_sorted_1d. split; [done|].
  intros k Hk. destruct (idx_surj k Hk) as (j & Hj & <-).
  apply Hdone. rewrite Hend by done. lia.
Qed.

End rank_sorted.

Global Instance le_at_trans vals : Transitive (pandas.le_at vals).
Proof. intros i j k. unfold pandas.le_at. apply Qle_trans. Qed.

Global Instance le_at_total vals : Total (pandas.le_at vals).
Proof.
  intros i j. unfold pandas.le_at.
  destruct (Qlt_le_dec (vals !!! i) (vals !!! j)); [left|right]; lra.
Qed.

Lemma lexsort_Permutation values :
  pandas.lexsort values ≡ₚ seq 0 (length values).
Proof. apply merge_sort_Permutation. Qed.

Lemma lexsort_reverse_sorted values :
  StronglySorted (λ i j, (values !!! j <= values !!! i)%Q)
                 (reverse (pandas.lexsort values)).
Proof.
  apply Sorted_StronglySorted.
  - intros i j k ? ?. eapply Qle_trans; eauto.
  - apply (Sorted_reverse (pandas.le_at values)), Sorted_merge_sort, _.
Qed.

Lemma rank_descending_spec values :
  length (pandas.rank values false) = length values ∧
  ∀ k, k < length values →
    (pandas.rank values false !!! k == average_rank values (values !!! k))%Q.
Proof.
  unfold pandas.rank, pandas.rank_1d. apply rank_sorted_1d_spec.
  - rewrite reverse_Permutation. apply lexsort_Permutation.
  - apply lexsort_reverse_sorted.
Qed.

(** The positions of [positions_occupied] are those that hold the value
    in the descending order of the column. *)
Lemma positions_occupied_sorted values p v :
  p < length values →
  (values !!! (reverse (pandas.lexsort values) !!! p) == v)%Q ↔
  S p ∈ positions_occupied values v.
Proof.
  intros Hp. unfold positions_occupied. rewrite elem_of_seq.
  rewrite (positions_of_value values (reverse (pandas.lexsort values))
             ltac:(rewrite reverse_Permutation; apply lexsort_Permutation)
             (lexsort_reverse_sorted values) p v Hp).
  lia.
Qed.

Lemma n_greater_proper values v v' :
  (v == v')%Q → n_greater values v = n_greater values v'.
Proof.
  intros E. unfold n_greater. f_equal. apply list_filter_iff.
  intros w. by rewrite E.
Qed.

Lemma n_equal_proper values v v' :
  (v == v')%Q → n_equal values v = n_equal values v'.
Proof.
  intros E. unfold n_equal. f_equal. apply list_filter_iff.
  intros w. by rewrite E.
Qed.

Lemma average_rank_proper values v v' :
  (v == v')%Q → average_rank values v = average_rank values v'.
Proof.
  intros E. unfold average_rank, positions_occupied.
  by rewrite (n_greater_proper _ _ _ E), (n_equal_proper _ _ _ E).
Qed.

Lemma n_equal_pos values i v : values !! i = Some v → 0 < n_equal values v.
Proof.
  intros Hi. unfold n_equal.
  assert (v ∈ filter (λ w, (w == v)%Q) values) as Hin.
  { apply list_elem_of_filter. split; [reflexivity|].
    by eapply list_elem_of_lookup_2. }
  destruct (filter _ values); [by apply elem_of_nil in Hin|simpl; lia].
Qed.

Lemma average_rank_closed values i v :
  values !! i = Some v →
  (average_rank values v
   == Q_of_nat (n_greater values v) + (Q_of_nat (n_equal values v) + 1) / 2)%Q.
Proof. intros Hi. apply mean_seq. by eapply n_equal_pos. Qed.

Lemma n_equal_unique_max values i v :
  values !! i = Some v →
  (∀ j w, values !! j = Some w → j ≠ i → (w < v)%Q) →
  n_greater values v = 0 ∧ n_equal values v = 1.
Proof.
  intros Hi Hmax.
  rewrite <- (take_drop_middle values i v Hi).
  unfold n_greater, n_equal. rewrite !filter_app, !filter_cons, !length_app.
  assert (Forall (λ w, (w < v)%Q) (take i values)) as H1.
  { apply Forall_lookup_2. intros j w Hj. apply lookup_take_Some in Hj as [Hj ?].
    apply (Hmax j w Hj). lia. }
  assert (Forall (λ w, (w < v)%Q) (drop (S i) values)) as H2.
  { apply Forall_lookup_2. intros j w Hj. rewrite lookup_drop in Hj.
    apply (Hmax _ w Hj). lia. }
  assert (∀ l, Forall (λ w, (w < v)%Q) l →
               length (filter (λ w, (v < w)%Q) l) = 0
               ∧ length (filter (λ w, (w == v)%Q) l) = 0) as Hnone.
  { intros l Hl. split; apply length_filter_Forall_not;
      (eapply Forall_impl; [exact Hl|]; simpl; intros; lra). }
  destruct (Hnone _ H1) as [-> ->]. destruct (Hnone _ H2) as [E1 E2].
  destruct (decide (v < v)%Q) as [Hlt|_]; [lra|].
  destruct (decide (v == v)%Q) as [_|Hne]; [|by destruct Hne].
  simpl. rewrite E1, E2. done.
Qed.

Lemma rank_lookup values i v :
  values !! i = Some v →
  ∃ r, pandas.rank values false !! i = Some r
       ∧ (r == average_rank values v)%Q.
Proof.
  intros Hi. destruct (rank_descending_spec values) as [Hlen Hr].
  pose proof (lookup_lt_Some _ _ _ Hi) as Hlt.
  exists (pandas.rank values false !!! i). split.
  - apply list_lookup_lookup_total_lt. by rewrite Hlen.
  - rewrite (Hr i Hlt). by rewrite (list_lookup_total_correct _ _ _ Hi).
Qed.

Lemma add_ranks_lookup {R} (c1 c2 : R → Q) (df : list R) i s :
  add_ranks c1 c2 df !! i = Some s →
  df !! i = Some (row s)
  ∧ pandas.rank (c1 <$> df) false !! i = Some (Rank_1 s)
  ∧ pandas.rank (c2 <$> df) false !! i = Some (Rank_2 s)
  ∧ Combined_Rank s = ((Rank_1 s + Rank_2 s) / 2)%Q.
Proof.
  unfold add_ranks. rewrite list_lookup_imap. intros Hs.
  destruct (df !! i) as [x|] eqn:Hx; [|done]. simpl in Hs.
  injection Hs as <-. simpl.
  pose proof (lookup_lt_Some _ _ _ Hx) as Hlt.
  repeat split; apply list_lookup_lookup_total_lt;
    rewrite (proj1 (rank_descending_spec _)), length_fmap; done.
Qed.

(** C1.  For every rank component and every set of included symbols the
    fractional descending rank is the average-method rank: the rank of a
    symbol is the arithmetic mean of the positions that the symbols
    holding its value would occupy in descending order, and a symbol whose
    value is strictly the highest gets rank 1.  With [g] values greater
    and [e] values equal the mean is [g + (e + 1) / 2].  The positions
    are those that hold the value in the descending order of the column.
    The two rank columns of the scripts are these ranks of the two
    component columns.
    Two symbols tied for the best value both get 1.5 and a third, strictly
    lower one gets 3. *)
Theorem C1_fractional_rank_average_method :
  (∀ (values : list Q) (i : nat) (v : Q),
     values !! i = Some v →
     ∃ r, pandas.rank values false !! i = Some r
          ∧ (r == mean (positions_occupied values v))%Q
          ∧ (r == Q_of_nat (n_greater values v)
                  + (Q_of_nat (n_equal values v) + 1) / 2)%Q
          ∧ ((∀ j w, values !! j = Some w → j ≠ i → (w < v)%Q) → (r == 1)%Q))
  ∧ (∀ (values : list Q) (p : nat) (v : Q),
       p < length values →
       (values !!! (reverse (pandas.lexsort values) !!! p) == v)%Q ↔
       S p ∈ positions_occupied values v)
  ∧ (∀ (R : Type) (c1 c2 : R → Q) (df : list R) (i : nat) (s : scored R),
       add_ranks c1 c2 df !! i = Some s →
       pandas.rank (c1 <$> df) false !! i = Some (Rank_1 s)
       ∧ pandas.rank (c2 <$> df) false !! i = Some (Rank_2 s))
  ∧ (∀ a b : Q, (b < a)%Q →
       Forall2 Qeq (pandas.rank [a; a; b] false) [3 # 2; 3 # 2; 3]%Q).
Proof.
  split; [|split; [exact positions_occupied_sorted|split]].
  - intros values i v Hi. destruct (rank_lookup values i v Hi) as (r & Hr & Hav).
    exists r. split; [done|]. split; [done|].
    split; [by rewrite Hav, (average_rank_closed values i v Hi)|]. intros Hmax.
    destruct (n_equal_unique_max values i v Hi Hmax) as [Hg He].
    rewrite Hav. unfold average_rank, positions_occupied. rewrite Hg, He.
    reflexivity.
  - intros R c1 c2 df i s Hs. apply add_ranks_lookup in Hs. tauto.
  - intros a b Hab.
    assert (n_greater [a; a; b] a = 0 ∧ n_equal [a; a; b] a = 2
            ∧ n_greater [a; a; b] b = 2 ∧ n_equal [a; a; b] b = 1)
      as (Hga & Hea & Hgb & Heb).
    { unfold n_greater, n_equal. rewrite !filter_cons, !filter_nil.
      repeat (destruct (decide _)); simpl; try lra; done. }
    destruct (rank_lookup [a; a; b] 0 a eq_refl) as (r0 & H0 & E0).
    destruct (rank_lookup [a; a; b] 1 a eq_refl) as (r1 & H1 & E1).
    destruct (rank_lookup [a; a; b] 2 b eq_refl) as (r2 & H2 & E2).
    pose proof (proj1 (rank_descending_spec [a; a; b])) as Hlen.
    destruct (pandas.rank [a; a; b] false) as [|x0 [|x1 [|x2 [|? ?]]]];
      try done.
    simpl in H0, H1, H2. simplify_eq.
    unfold average_rank, positions_occupied in *.
    rewrite Hga, Hea in E0, E1. rewrite Hgb, Heb in E2.
    repeat constructor; [rewrite E0|rewrite E1|rewrite E2]; reflexivity.
Qed.

Lemma C1_witness :
  ∃ r, pandas.rank [5; 5; 3]%Q false !! 0 = Some r
       ∧ (r == mean (positions_occupied [5; 5; 3]%Q 5))%Q
       ∧ (r == 3 # 2)%Q.
Proof.
  destruct (proj1 C1_fractional_rank_average_method [5; 5; 3]%Q 0 5%Q eq_refl)
    as (r & Hr & Hm & _ & _).
  exists r. split; [done|]. split; [done|]. rewrite Hm. reflexivity.
Defined.

(** ** The ranking steps *)

Global Instance in_order_trans {A} (by_ : A → Q) asc :
  Transitive (pandas.in_order by_ asc).
Proof.
  intros x y z. unfold pandas.in_order. destruct asc; intros; lra.
Qed.

Lemma scored_row_add_final_rank {R} (l : list (scored R)) :
  scored_row <$> add_final_rank l = l.
Proof.
  apply list_eq. intros i. unfold add_final_rank.
  rewrite list_lookup_fmap, list_lookup_imap. by destruct (l !! i).
Qed.

Lemma Final_Rank_add_final_rank {R} (l : list (scored R)) :
  Final_Rank <$> add_final_rank l = seq 1 (length l).
Proof.
  apply list_eq. intros i. unfold add_final_rank.
  rewrite list_lookup_fmap, list_lookup_imap.
  destruct (l !! i) as [x|] eqn:Hx; simpl.
  - rewrite lookup_seq_lt by (by eapply lookup_lt_Some). f_equal. lia.
  - rewrite lookup_seq_ge; [done|]. by apply lookup_ge_None.
Qed.

Lemma add_final_rank_lookup {R} (l : list (scored R)) i a :
  add_final_rank l !! i = Some a ↔
  l !! i = Some (scored_row a) ∧ Final_Rank a = i + 1.
Proof.
  unfold add_final_rank. rewrite list_lookup_imap.
  destruct (l !! i) as [x|]; simpl; split.
  - intros [= <-]. done.
  - intros [[= ->] Hf]. destruct a as [s f]. simpl in *. by subst.
  - done.
  - intros [? _]; done.
Qed.

Lemma row_add_ranks {R} (c1 c2 : R → Q) (df : list R) :
  row <$> add_ranks c1 c2 df = df.
Proof.
  apply list_eq. intros i. unfold add_ranks.
  rewrite list_lookup_fmap, list_lookup_imap. by destruct (df !! i).
Qed.

Lemma length_add_ranks {R} (c1 c2 : R → Q) (df : list R) :
  length (add_ranks c1 c2 df) = length df.
Proof. unfold add_ranks. by rewrite length_imap. Qed.

(** Every row of [add_ranks] carries the average-method rank of its own
    value in each column, and the mean of the two as combined rank. *)
Lemma add_ranks_elem {R} (c1 c2 : R → Q) (df : list R) s :
  s ∈ add_ranks c1 c2 df →
  row s ∈ df
  ∧ (Rank_1 s == average_rank (c1 <$> df) (c1 (row s)))%Q
  ∧ (Rank_2 s == average_rank (c2 <$> df) (c2 (row s)))%Q
  ∧ Combined_Rank s = ((Rank_1 s + Rank_2 s) / 2)%Q.
Proof.
  intros [i Hi]%list_elem_of_lookup_1.
  apply add_ranks_lookup in Hi as (Hx & H1 & H2 & Hc).
  split; [by eapply list_elem_of_lookup_2|].
  assert (∀ (c : R → Q) r, pandas.rank (c <$> df) false !! i = Some r →
            (r == average_rank (c <$> df) (c (row s)))%Q) as Hrank.
  { intros c r Hr.
    destruct (rank_lookup (c <$> df) i (c (row s))) as (r' & Hr' & E).
    - by rewrite list_lookup_fmap, Hx.
    - by simplify_eq. }
  auto.
Qed.

Section rank_rows_facts.
Context `{pandas.SortValues} {R : Type} (c1 c2 : R → Q) (df : list R).

Lemma rank_rows_Final_Rank :
  Final_Rank <$> rank_rows c1 c2 df = seq 1 (length df).
Proof.
  unfold rank_rows. rewrite Final_Rank_add_final_rank.
  by rewrite pandas.sort_values_Permutation, length_add_ranks.
Qed.

Lemma rank_rows_Permutation :
  scored_row <$> rank_rows c1 c2 df ≡ₚ add_ranks c1 c2 df.
Proof.
  unfold rank_rows. rewrite scored_row_add_final_rank.
  apply pandas.sort_values_Permutation.
Qed.

Lemma rank_rows_rows : (row ∘ scored_row) <$> rank_rows c1 c2 df ≡ₚ df.
Proof.
  rewrite list_fmap_compose, rank_rows_Permutation. by rewrite row_add_ranks.
Qed.

Lemma rank_rows_lookup i a :
  rank_rows c1 c2 df !! i = Some a →
  Final_Rank a = i + 1 ∧ scored_row a ∈ add_ranks c1 c2 df.
Proof.
  unfold rank_rows. intros [Hs Hf]%add_final_rank_lookup. split; [done|].
  rewrite <- (pandas.sort_values_Permutation Combined_Rank true).
  by eapply list_elem_of_lookup_2.
Qed.

Lemma rank_rows_ascending i j a b :
  rank_rows c1 c2 df !! i = Some a → rank_rows c1 c2 df !! j = Some b →
  i ≤ j →
  (Combined_Rank (scored_row a) <= Combined_Rank (scored_row b))%Q.
Proof.
  unfold rank_rows. intros [Ha _]%add_final_rank_lookup
                           [Hb _]%add_final_rank_lookup Hij.
  destruct (decide (i = j)) as [->|Hne].
  { rewrite Ha in Hb. injection Hb as ->. apply Qle_refl. }
  eapply (StronglySorted_lookup_lt (pandas.in_order Combined_Rank true));
    [|exact Ha|exact Hb|lia].
  apply Sorted_StronglySorted; [apply _|]. apply pandas.sort_values_Sorted.
Qed.

End rank_rows_facts.

Lemma rank_rows_dense_ranking `{pandas.SortValues} {R : Type}
    (c1 c2 : R → Q) (df : list R) :
  dense_ranking c1 c2 df (rank_rows c1 c2 df).
Proof.
  split; [apply rank_rows_Final_Rank|]. split; [apply rank_rows_rows|]. split.
  - intros a [i Hi]%list_elem_of_lookup_1.
    apply rank_rows_lookup in Hi as [_ Hs].
    apply add_ranks_elem in Hs as (_ & H1 & H2 & ->). done.
  - intros a b [i Hi]%list_elem_of_lookup_1 [j Hj]%list_elem_of_lookup_1.
    pose proof (rank_rows_lookup _ _ _ _ _ Hi) as [Hfa _].
    pose proof (rank_rows_lookup _ _ _ _ _ Hj) as [Hfb _].
    split.
    + intros Hle. eapply rank_rows_ascending; eauto. lia.
    + intros Hlt. destruct (decide (Final_Rank a < Final_Rank b)); [done|].
      pose proof (rank_rows_ascending c1 c2 df j i b a Hj Hi ltac:(lia)). lra.
Qed.

Lemma length_MagicFormulaV2_DataFrame results :
  length (MagicFormulaV2.DataFrame
            (filter (λ r, MagicFormulaV2.is_Incluida r = true) results))
  = length (filter (λ r, MagicFormulaV2.is_Incluida r = true) results).
Proof.
  induction results as [|[t roc ey|t m] rs IH]; [done| |].
  - rewrite filter_cons_True by done. simpl. by rewrite IH.
  - rewrite filter_cons_False by done. done.
Qed.

(** C2.  With K >= 1 included symbols, [prepare_rankings] of the Magic
    Formula v2 script and the ranked frame of the dividend script are
    dense rankings: each combined rank is the arithmetic mean of the
    symbol's two fractional ranks, the final ranks are exactly 1..K in
    this order, every included symbol is ranked once, and a lower
    combined rank has the better final rank. *)
Theorem C2_combined_rank_and_dense_final_rank `{pandas.SortValues} :
  (∀ results : list MagicFormulaV2.StockResult,
     let included :=
       MagicFormulaV2.DataFrame
         (filter (λ r, MagicFormulaV2.is_Incluida r = true) results) in
     1 ≤ length included →
     ∃ df, MagicFormulaV2.prepare_rankings results = (Some df, [])
           ∧ dense_ranking mf_roc mf_earnings_yield included df)
  ∧ (∀ included : list Dividendos.result,
       dense_ranking row_dividend_yield years_value
         (Dividendos.DataFrame included) (Dividendos.scores_df included)).
Proof.
  split.
  - intros results included HK. unfold MagicFormulaV2.prepare_rankings.
    subst included. rewrite length_MagicFormulaV2_DataFrame in HK.
    rewrite bool_decide_eq_false_2 by lia.
    eexists. split; [done|]. apply rank_rows_dense_ranking.
  - intros included. apply rank_rows_dense_ranking.
Qed.

Lemma C2_witness :
  ∃ df, @MagicFormulaV2.prepare_rankings merge_sort_values
          [MagicFormulaV2.Incluida "AAA" 3 1; MagicFormulaV2.Excluida "XXX" ["EBIT"];
           MagicFormulaV2.Incluida "BBB" 2 5]%Q = (Some df, [])
        ∧ Final_Rank <$> df = [1; 2].
Proof.
  destruct (proj1 (@C2_combined_rank_and_dense_final_rank merge_sort_values)
              [MagicFormulaV2.Incluida "AAA" 3 1;
               MagicFormulaV2.Excluida "XXX" ["EBIT"];
               MagicFormulaV2.Incluida "BBB" 2 5]%Q)
    as (df & Hdf & Hfinal & _).
  - vm_compute. lia.
  - exists df. split; [exact Hdf|exact Hfinal].
Defined.

(** C3, as stated, does not hold.  The scripts call [sort_values] with
    its default kind, which is not a stable sort.  In [two_tied_pairs]
    "AAA" ties with "BBB" and "CCC" with "DDD", the second pair being the
    better one.  A sort made of compare-exchange steps, as the default
    kind is on so few rows where numpy sorts with vector instructions,
    exchanges the first row with the fourth and the second with the
    third and leaves equal neighbours alone; [merge_sort_reverse_values]
    returns the same frame: DDD, CCC, BBB, AAA, each tied pair in the
    reverse of its universe order. *)
Lemma C3_counterexample :
  ∃ df,
    @MagicFormulaV2.prepare_rankings merge_sort_reverse_values two_tied_pairs
    = (Some df, [])
    ∧ ranked_tickers mf_ticker df = ["DDD"; "CCC"; "BBB"; "AAA"]
    ∧ ¬ ties_keep_universe_order
          (MagicFormulaV2.DataFrame
             (filter (λ r, MagicFormulaV2.is_Incluida r = true)
                     two_tied_pairs)) df.
Proof.
  eexists. split; [vm_compute; reflexivity|]. split; [reflexivity|].
  intros Hstable.
  pose (a := {| scored_row := {| row := {| mf_ticker := "AAA"; mf_roc := 1;
                                           mf_earnings_yield := 2 |};
                                 Rank_1 := 4; Rank_2 := 3;
                                 Combined_Rank := 7 # 2 |};
                Final_Rank := 4 |}).
  pose (b := {| scored_row := {| row := {| mf_ticker := "BBB"; mf_roc := 2;
                                           mf_earnings_yield := 1 |};
                                 Rank_1 := 3; Rank_2 := 4;
                                 Combined_Rank := 7 # 2 |};
                Final_Rank := 3 |}).
  assert (Final_Rank a < Final_Rank b) as Hlt; [|simpl in Hlt; lia].
  apply (Hstable 0 1 _ _ a b eq_refl eq_refl); try reflexivity; try lia.
  - apply list_elem_of_In. simpl. tauto.
  - apply list_elem_of_In. simpl. tauto.
Qed.

Lemma rank_rows_ties_consecutive `{pandas.SortValues} {R : Type}
    (c1 c2 : R → Q) (rows : list R) (a b c : ranked R) :
  a ∈ rank_rows c1 c2 rows → b ∈ rank_rows c1 c2 rows →
  c ∈ rank_rows c1 c2 rows →
  Final_Rank a ≤ Final_Rank b → Final_Rank b ≤ Final_Rank c →
  (Combined_Rank (scored_row a) == Combined_Rank (scored_row c))%Q →
  (Combined_Rank (scored_row b) == Combined_Rank (scored_row a))%Q.
Proof.
  intros Ha Hb Hc Hab Hbc Heq.
  destruct (rank_rows_dense_ranking c1 c2 rows) as (_ & _ & _ & Hord).
  pose proof (proj1 (Hord a b Ha Hb) Hab).
  pose proof (proj1 (Hord b c Hb Hc) Hbc). lra.
Qed.

(** C3 (amended).  When two included symbols have exactly equal combined
    rank, every symbol whose final rank lies between theirs has the same
    combined rank: tied symbols occupy consecutive final ranks, in an
    order that the sort is free to choose.  This holds for the ranked
    frame of the four scripts that rank by a combined rank: the two
    Magic Formula scripts and the two dividend scripts. *)
Theorem C3_ties_share_consecutive_final_ranks `{pandas.SortValues} :
  (∀ results df (a b c : ranked magic_row),
     MagicFormulaV2.prepare_rankings results = (Some df, []) →
     a ∈ df → b ∈ df → c ∈ df →
     Final_Rank a ≤ Final_Rank b → Final_Rank b ≤ Final_Rank c →
     (Combined_Rank (scored_row a) == Combined_Rank (scored_row c))%Q →
     (Combined_Rank (scored_row b) == Combined_Rank (scored_row a))%Q)
  ∧ (∀ included (a b c : ranked magic_row),
       a ∈ MagicFormula.scores_df included →
       b ∈ MagicFormula.scores_df included →
       c ∈ MagicFormula.scores_df included →
       Final_Rank a ≤ Final_Rank b → Final_Rank b ≤ Final_Rank c →
       (Combined_Rank (scored_row a) == Combined_Rank (scored_row c))%Q →
       (Combined_Rank (scored_row b) == Combined_Rank (scored_row a))%Q)
  ∧ (∀ results df (a b c : ranked dividend_row),
       DividendosV2.prepare_rankings results = (Some df, []) →
       a ∈ df → b ∈ df → c ∈ df →
       Final_Rank a ≤ Final_Rank b → Final_Rank b ≤ Final_Rank c →
       (Combined_Rank (scored_row a) == Combined_Rank (scored_row c))%Q →
       (Combined_Rank (scored_row b) == Combined_Rank (scored_row a))%Q)
  ∧ (∀ included (a b c : ranked dividend_row),
       a ∈ Dividendos.scores_df included →
       b ∈ Dividendos.scores_df included →
       c ∈ Dividendos.scores_df included →
       Final_Rank a ≤ Final_Rank b → Final_Rank b ≤ Final_Rank c →
       (Combined_Rank (scored_row a) == Combined_Rank (scored_row c))%Q →
       (Combined_Rank (scored_row b) == Combined_Rank (scored_row a))%Q).
Proof.
  split; [|split; [|split]].
  - intros results df a b c. unfold MagicFormulaV2.prepare_rankings.
    case_bool_decide; [done|]. intros [= <-].
    apply rank_rows_ties_consecutive.
  - intros included a b c. apply rank_rows_ties_consecutive.
  - intros results df a b c. unfold DividendosV2.prepare_rankings.
    case_bool_decide; [done|]. intros [= <-].
    apply rank_rows_ties_consecutive.
  - intros included a b c. apply rank_rows_ties_consecutive.
Qed.

Lemma C3_witness :
  ∃ df a b c d,
    @MagicFormulaV2.prepare_rankings merge_sort_reverse_values two_tied_pairs
    = (Some df, [])
    ∧ df = [a; b; c; d]
    ∧ (Combined_Rank (scored_row b) == Combined_Rank (scored_row a))%Q
    ∧ (Combined_Rank (scored_row d) == Combined_Rank (scored_row c))%Q.
Proof.
  eexists _, _, _, _, _. split; [vm_compute; reflexivity|].
  split; [reflexivity|]. split.
  - eapply (proj1 (@C3_ties_share_consecutive_final_ranks
                     merge_sort_reverse_values) two_tied_pairs).
    + vm_compute. reflexivity.
    + apply list_elem_of_In. simpl. left. reflexivity.
    + apply list_elem_of_In. simpl. right. left. reflexivity.
    + apply list_elem_of_In. simpl. right. left. reflexivity.
    + simpl. lia.
    + simpl. lia.
    + reflexivity.
  - eapply (proj1 (@C3_ties_share_consecutive_final_ranks
                     merge_sort_reverse_values) two_tied_pairs).
    + vm_compute. reflexivity.
    + apply list_elem_of_In. simpl. do 2 right. left. reflexivity.
    + apply list_elem_of_In. simpl. do 3 right. left. reflexivity.
    + apply list_elem_of_In. simpl. do 3 right. left. reflexivity.
    + simpl. lia.
    + simpl. lia.
    + reflexivity.
Defined.

(** ** Consecutive years *)

Lemma elem_of_sorted_set years y : y ∈ sorted_set years ↔ y ∈ years.
Proof.
  unfold sorted_set. rewrite merge_sort_Permutation. apply elem_of_remove_dups.
Qed.

Lemma StronglySorted_le_NoDup_lt (l : list Z) :
  StronglySorted Z.le l → NoDup l → StronglySorted Z.lt l.
Proof.
  induction 1 as [|x l Hs IH Hall]; intros Hnd; [constructor|].
  apply NoDup_cons in Hnd as [Hx Hnd]. constructor; [by apply IH|].
  rewrite Forall_forall in Hall |- *. intros y Hy.
  pose proof (Hall y Hy). assert (x ≠ y) by (by intros ->). lia.
Qed.

Lemma sorted_set_sorted years : StronglySorted Z.lt (sorted_set years).
Proof.
  apply StronglySorted_le_NoDup_lt.
  - apply StronglySorted_merge_sort; apply _.
  - unfold sorted_set. rewrite merge_sort_Permutation. apply NoDup_remove_dups.
Qed.


Lemma consecutive_loop_run (l : list Z) k i acc :
  1 ≤ i → i + k = length l →
  consecutive_loop l (seq i k) acc
  = (acc + run_from (l !!! (i - 1)%nat) (drop i l))%Z.
Proof.
  revert i acc. induction k as [|k IH]; intros i acc Hi Hlen.
  - rewrite drop_ge by lia. simpl. lia.
  - assert (i < length l) as Hlt by lia.
    destruct (lookup_lt_is_Some_2 l i Hlt) as [y Hy].
    rewrite (drop_S l y i Hy). simpl.
    rewrite (list_lookup_total_correct _ _ _ Hy).
    case_bool_decide as Hc; [|lia].
    rewrite IH by lia. replace (S i - 1) with i by lia.
    rewrite (list_lookup_total_correct _ _ _ Hy). lia.
Qed.

Lemma run_from_nonneg prev rest : (0 ≤ run_from prev rest)%Z.
Proof.
  revert prev. induction rest as [|y rest IH]; intros prev; simpl; [lia|].
  case_bool_decide; [|lia]. specialize (IH y). lia.
Qed.

Lemma run_from_spec m rest :
  StronglySorted Z.lt (m :: rest) →
  (∀ k, (0 ≤ k ≤ run_from m rest)%Z → (m + k)%Z ∈ m :: rest)
  ∧ (m + run_from m rest + 1)%Z ∉ m :: rest.
Proof.
  revert m. induction rest as [|y rest IH]; intros m Hs.
  - simpl. split.
    + intros k Hk. assert (k = 0%Z) as -> by lia. rewrite Z.add_0_r.
      apply list_elem_of_here.
    + rewrite list_elem_of_singleton. lia.
  - apply StronglySorted_inv in Hs as [Hs Hall].
    apply Forall_cons in Hall as [Hmy Hall].
    pose proof Hs as Hs'. apply StronglySorted_inv in Hs' as [_ Hally].
    simpl. case_bool_decide as Hc.
    + subst y. destruct (IH _ Hs) as [IH1 IH2]. split.
      * intros k Hk. destruct (decide (k = 0%Z)) as [->|Hk0].
        { rewrite Z.add_0_r. apply list_elem_of_here. }
        apply elem_of_cons. right.
        replace (m + k)%Z with (m + 1 + (k - 1))%Z by lia. apply IH1. lia.
      * rewrite elem_of_cons. intros [Heq|Hin].
        { pose proof (run_from_nonneg (m + 1) rest). lia. }
        apply IH2. by replace (m + 1 + run_from (m + 1) rest + 1)%Z
                     with (m + (1 + run_from (m + 1) rest) + 1)%Z by lia.
    + split.
      * intros k Hk. assert (k = 0%Z) as -> by lia. rewrite Z.add_0_r.
        apply list_elem_of_here.
      * rewrite !elem_of_cons. intros [Heq|[Heq|Hin]]; [lia|lia|].
        rewrite Forall_forall in Hally. pose proof (Hally _ Hin). lia.
Qed.

Lemma count_consecutive_spec (index : list date) :
  index ≠ [] →
  ∃ m rest, sorted_set (year <$> index) = m :: rest
            ∧ count_consecutive index = (1 + run_from m rest)%Z.
Proof.
  intros Hne. unfold count_consecutive.
  destruct (sorted_set (year <$> index)) as [|m rest] eqn:Hset.
  - destruct index as [|d index]; [done|].
    assert (year d ∈ sorted_set (year <$> d :: index)) as Hin.
    { apply elem_of_sorted_set. rewrite fmap_cons. apply list_elem_of_here. }
    rewrite Hset in Hin. by apply elem_of_nil in Hin.
  - exists m, rest. split; [done|].
    rewrite consecutive_loop_run by (simpl; lia). simpl. by rewrite drop_0.
Qed.


(** C4.  For every non-empty list of dividend-payment dates the
    consecutive-years computation takes the distinct years in ascending
    order and returns the length [n >= 1] of the run that starts at the
    earliest year: the years [earliest .. earliest + n - 1] all occur and
    [earliest + n] does not.  The first script stores the same count.
    Payment years 2019, 2020, 2021 and 2023 give 3. *)
Theorem C4_consecutive_years_from_earliest (index : list date) :
  index ≠ [] →
  let years := year <$> index in
  let n := DividendosV2.calculate_consecutive_years index in
  StronglySorted Z.lt (sorted_set years)
  ∧ (∀ y, y ∈ sorted_set years ↔ y ∈ years)
  ∧ (1 ≤ n)%Z
  ∧ (∃ earliest,
       head (sorted_set years) = Some earliest
       ∧ (∀ y, y ∈ years → (earliest ≤ y)%Z)
       ∧ (∀ k, (0 ≤ k < n)%Z → (earliest + k)%Z ∈ years)
       ∧ (earliest + n)%Z ∉ years)
  ∧ (∀ ticker info r,
       Dividendos.calculate_yield_and_dividend_years ticker (Return info)
         (Return index) = Dividendos.Incluida r →
       row_consecutive_years r = n)
  ∧ ((∀ y, y ∈ years ↔ y ∈ years_2019_2023) → n = 3%Z).
Proof.
  intros Hne years n.
  pose proof (sorted_set_sorted years) as Hsorted.
  destruct (count_consecutive_spec index Hne) as (m & rest & Hset & Hcount).
  assert (n = (1 + run_from m rest)%Z) as Hn.
  { subst n. unfold DividendosV2.calculate_consecutive_years.
    rewrite bool_decide_eq_false_2; [done|]. by destruct index. }
  fold years in Hset. rewrite Hset in Hsorted.
  destruct (run_from_spec m rest Hsorted) as [Hrun Hgap].
  pose proof (run_from_nonneg m rest) as Hpos.
  assert (∀ y, y ∈ m :: rest ↔ y ∈ years) as Hmem.
  { intros y. rewrite <- Hset. apply elem_of_sorted_set. }
  assert (∀ y, y ∈ years → (m ≤ y)%Z) as Hmin.
  { intros y Hy. apply Hmem, elem_of_cons in Hy as [->|Hy]; [lia|].
    apply StronglySorted_inv in Hsorted as [_ Hall].
    rewrite Forall_forall in Hall. pose proof (Hall _ Hy). lia. }
  assert (∀ k, (0 ≤ k < n)%Z → (m + k)%Z ∈ years) as Hin.
  { intros k Hk. apply Hmem, Hrun. lia. }
  assert ((m + n)%Z ∉ years) as Hout.
  { rewrite <- Hmem. by replace (m + n)%Z with (m + run_from m rest + 1)%Z by lia. }
  split; [by rewrite Hset|]. split; [apply elem_of_sorted_set|].
  split; [lia|]. split; [|split].
  - exists m. rewrite Hset. done.
  - intros ticker info r. unfold Dividendos.calculate_yield_and_dividend_years,
      Dividendos.calculate_yield_and_dividend_years_try. simpl.
    destruct (_ || _); [done|]. intros [= <-]. simpl. lia.
  - intros Hyears.
    assert (m = 2019%Z) as ->.
    { assert (m ∈ years) as Hm by (apply Hmem, list_elem_of_here).
      assert (2019%Z ∈ years) as H19 by (apply Hyears, list_elem_of_here).
      apply Hyears in Hm. pose proof (Hmin _ H19).
      unfold years_2019_2023 in Hm.
      rewrite !elem_of_cons, elem_of_nil in Hm. lia. }
    destruct (decide (n = 3%Z)) as [|Hn3]; [done|]. exfalso.
    assert (n = 1 ∨ n = 2 ∨ 4 ≤ n)%Z as [->|[->|H4]] by lia.
    + apply Hout, Hyears. unfold years_2019_2023.
      rewrite !elem_of_cons. auto.
    + apply Hout, Hyears. unfold years_2019_2023.
      rewrite !elem_of_cons. auto.
    + assert ((2019 + 3)%Z ∈ years) as H22 by (apply Hin; lia).
      apply Hyears in H22. unfold years_2019_2023 in H22.
      rewrite !elem_of_cons, elem_of_nil in H22. lia.
Qed.

Lemma C4_witness :
  DividendosV2.calculate_consecutive_years
    [{| year := 2021; month := 6; day := 1 |};
     {| year := 2019; month := 3; day := 1 |};
     {| year := 2019; month := 9; day := 1 |};
     {| year := 2020; month := 3; day := 1 |};
     {| year := 2023; month := 3; day := 1 |}] = 3%Z.
Proof.
  apply (C4_consecutive_years_from_earliest
           [{| year := 2021; month := 6; day := 1 |};
            {| year := 2019; month := 3; day := 1 |};
            {| year := 2019; month := 9; day := 1 |};
            {| year := 2020; month := 3; day := 1 |};
            {| year := 2023; month := 3; day := 1 |}]).
  - discriminate.
  - intros y. simpl. unfold years_2019_2023.
    rewrite !elem_of_cons, !elem_of_nil. intuition lia.
Defined.

(** C6.  With [trailingPE], [returnOnEquity], [debtToEquity] and
    [dividendYield] all present, both factor scripts return a score, equal
    to [-10 * pe_ratio + 10 * roe - 0.1 * debt_to_equity
    + 100 * dividend_yield], for every value of the metrics, negative ones
    included. *)
Theorem C6_factor_score (t : string) (pe_ratio roe debt_to_equity dividend_yield : Q) :
  let info := {| Fatores.trailingPE := Some pe_ratio;
                 Fatores.returnOnEquity := Some roe;
                 Fatores.debtToEquity := Some debt_to_equity;
                 Fatores.dividendYield := Some dividend_yield |} in
  (∃ score, Fatores.calculate_score t (Return info) = (Some score, [])
            ∧ (score == -10 * pe_ratio + 10 * roe - (1 # 10) * debt_to_equity
                        + 100 * dividend_yield)%Q)
  ∧ (∃ score, FatoresV2.calculate_score t (Return info)
              = (Some {| FatoresV2.ticker := t; FatoresV2.score := score |}, [])
              ∧ (score == -10 * pe_ratio + 10 * roe - (1 # 10) * debt_to_equity
                          + 100 * dividend_yield)%Q).
Proof.
  split; eexists; (split; [reflexivity|]); unfold Fatores.score_of; field.
Qed.

Lemma magic_formula_cases
    (t : string) (ebit total_assets current_assets current_liabilities
                  market_cap total_debt total_cash : Q) :
  let s := {| income_stmt_empty := false; balance_sheet_empty := false;
              EBIT := Some ebit; Total_Assets := Some total_assets;
              Current_Assets := Some current_assets;
              Current_Liabilities := Some current_liabilities;
              marketCap := Some market_cap; totalDebt := Some total_debt;
              totalCash := Some total_cash |} in
  let denominator :=
    (current_assets - current_liabilities + (total_assets - current_assets))%Q in
  let enterprise_value := (market_cap + total_debt - total_cash)%Q in
  (((denominator == 0)%Q ∨ (enterprise_value == 0)%Q)
   ∧ MagicFormula.calculate_magic_formula t (Return s)
     = MagicFormula.Excluida t ["Divisão por zero nos cálculos"]
   ∧ (MagicFormulaV2.analyze_stock t (Return s)).1
     = MagicFormulaV2.Excluida t ["Division by zero in calculations"])
  ∨ (¬ (denominator == 0)%Q ∧ ¬ (enterprise_value == 0)%Q
     ∧ MagicFormula.calculate_magic_formula t (Return s)
       = MagicFormula.Incluida t (ebit / denominator) (ebit / enterprise_value)
     ∧ (MagicFormulaV2.analyze_stock t (Return s)).1
       = MagicFormulaV2.Incluida t (ebit / denominator)
           (ebit / enterprise_value)
     ∧ truediv ebit denominator = Return (ebit / denominator)%Q
     ∧ truediv ebit enterprise_value = Return (ebit / enterprise_value)%Q).
Proof.
  intros s denominator ev.
  unfold MagicFormula.calculate_magic_formula,
    MagicFormula.calculate_magic_formula_try, MagicFormulaV2.analyze_stock,
    MagicFormulaV2.calculate_metrics, truediv.
  cbn -[Qeq_bool Qplus Qminus Qdiv]. fold denominator ev.
  destruct (Qeq_bool denominator 0) eqn:Hd; cbn -[Qeq_bool Qplus Qminus Qdiv].
  { apply Qeq_bool_iff in Hd. left. auto. }
  destruct (Qeq_bool ev 0) eqn:He; cbn -[Qeq_bool Qplus Qminus Qdiv].
  { apply Qeq_bool_iff in He. left. auto. }
  right. repeat split; try done; intros E; apply Qeq_bool_iff in E; congruence.
Qed.

(** C7.  With all seven metrics present, both Magic Formula scripts
    exclude the symbol for a division by zero if and only if
    [working_capital + net_fixed_assets] is 0 or [enterprise_value] is 0;
    otherwise they include it with
    [roc = EBIT / (working_capital + net_fixed_assets)] and
    [earnings_yield = EBIT / enterprise_value], both divisions having a
    non-zero divisor.  When a metric is missing the symbol is excluded
    with the missing names before the denominators are looked at. *)
Theorem C7_magic_formula_division_by_zero
    (t : string) (ebit total_assets current_assets current_liabilities
                  market_cap total_debt total_cash : Q) :
  let s := {| income_stmt_empty := false; balance_sheet_empty := false;
              EBIT := Some ebit; Total_Assets := Some total_assets;
              Current_Assets := Some current_assets;
              Current_Liabilities := Some current_liabilities;
              marketCap := Some market_cap; totalDebt := Some total_debt;
              totalCash := Some total_cash |} in
  let net_fixed_assets := (total_assets - current_assets)%Q in
  let working_capital := (current_assets - current_liabilities)%Q in
  let enterprise_value := (market_cap + total_debt - total_cash)%Q in
  let zero := ((working_capital + net_fixed_assets == 0)%Q
               ∨ (enterprise_value == 0)%Q) in
  (MagicFormula.calculate_magic_formula t (Return s)
   = MagicFormula.Excluida t ["Divisão por zero nos cálculos"] ↔ zero)
  ∧ ((MagicFormulaV2.analyze_stock t (Return s)).1
     = MagicFormulaV2.Excluida t ["Division by zero in calculations"] ↔ zero)
  ∧ (¬ zero →
     ∃ roc earnings_yield,
       MagicFormula.calculate_magic_formula t (Return s)
       = MagicFormula.Incluida t roc earnings_yield
       ∧ (MagicFormulaV2.analyze_stock t (Return s)).1
         = MagicFormulaV2.Incluida t roc earnings_yield
       ∧ truediv ebit (working_capital + net_fixed_assets) = Return roc
       ∧ truediv ebit enterprise_value = Return earnings_yield
       ∧ (roc == ebit / (working_capital + net_fixed_assets))%Q
       ∧ (earnings_yield == ebit / enterprise_value)%Q)
  ∧ (∀ s' : statements,
       income_stmt_empty s' = false → balance_sheet_empty s' = false →
       let missing :=
         (filter (λ kv, is_None kv.2 = true) (MagicFormula.required_data s')).*1 in
       missing ≠ [] →
       MagicFormula.calculate_magic_formula t (Return s')
       = MagicFormula.Excluida t missing)
  ∧ (∀ (s' : statements) (data : MagicFormulaV2.StockData),
       MagicFormulaV2.get_financial_data t (Return s') = (Some data, []) →
       let missing :=
         (filter (λ kv, is_None kv.2 = true) (MagicFormulaV2.items data)).*1 in
       missing ≠ [] →
       (MagicFormulaV2.analyze_stock t (Return s')).1
       = MagicFormulaV2.Excluida t missing).
Proof.
  intros s nfa wc ev zero.
  assert (∀ A (l : list A), l ≠ [] → bool_decide (length l = 0) = false)
    as Hlen.
  { intros A l Hl. apply bool_decide_eq_false. by destruct l. }
  pose proof (magic_formula_cases t ebit total_assets current_assets
                current_liabilities market_cap total_debt total_cash) as Hcases.
  cbv zeta in Hcases. fold s nfa wc ev in Hcases.
  split; [|split; [|split; [|split]]].
  - destruct Hcases as [(Hz & -> & _)|(Hd & He & -> & _)]; [done|].
    split; [done|]. intros [?|?]; done.
  - destruct Hcases as [(Hz & _ & ->)|(Hd & He & _ & -> & _)]; [done|].
    split; [done|]. intros [?|?]; done.
  - intros Hnz. destruct Hcases as [(Hz & _)|(Hd & He & H1 & H2 & H3 & H4)];
      [done|].
    eexists _, _. repeat split; try eassumption; reflexivity.
  - intros s' Hi Hb missing Hmissing.
    unfold MagicFormula.calculate_magic_formula,
      MagicFormula.calculate_magic_formula_try. simpl. rewrite Hi, Hb. simpl.
    assert (filter (λ kv, is_None kv.2 = true) (MagicFormula.required_data s')
            ≠ []) as Hne.
    { intros E. apply Hmissing. unfold missing. by rewrite E. }
    by rewrite (Hlen _ _ Hne).
  - intros s' data Hdata missing Hmissing.
    unfold MagicFormulaV2.analyze_stock. rewrite Hdata.
    fold missing. by rewrite (Hlen _ _ Hmissing).
Qed.

Lemma C7_witness :
  ∃ roc earnings_yield,
    MagicFormula.calculate_magic_formula "AAA" (magic_statements "AAA")
    = MagicFormula.Incluida "AAA" roc earnings_yield
    ∧ (roc == 1 # 4)%Q ∧ (earnings_yield == 1 # 10)%Q.
Proof.
  destruct (proj1 (proj2 (proj2
              (C7_magic_formula_division_by_zero "AAA" 10 50 30 10 100 20 20))))
    as (roc & ey & H1 & _ & _ & _ & Hroc & Hey).
  - intros [E|E]; vm_compute in E; discriminate.
  - exists roc, ey. split; [exact H1|]. split.
    + rewrite Hroc. reflexivity.
    + rewrite Hey. reflexivity.
Defined.

Lemma mul_float_0_l (x y : Q) : (x == 0)%Q → mul_float x y = 0%Q.
Proof.
  intros Hx. unfold mul_float, binary64.
  assert (Qnum (x * y) = 0%Z) as ->; [|done].
  unfold Qeq in Hx. simpl in *. nia.
Qed.

Lemma DividendosV2_get_stock_info t stock_info :
  DividendosV2.get_stock_info t stock_info
  = (None, [ProcessingError t
              match stock_info with
              | Return _ => "name 'StockInfo' is not defined"
              | Raise e => e
              end]).
Proof. by destruct stock_info. Qed.

Lemma DividendosV2_analyze_stock t stock_info stock_history :
  DividendosV2.analyze_stock t stock_info stock_history
  = (DividendosV2.Excluida t ["Dados básicos não disponíveis"],
     [ProcessingError t
        match stock_info with
        | Return _ => "name 'StockInfo' is not defined"
        | Raise e => e
        end]).
Proof.
  unfold DividendosV2.analyze_stock.
  by rewrite DividendosV2_get_stock_info.
Qed.

(** C5.  In the first dividend script a zero yield, a zero price or an
    empty payment history excludes the symbol for insufficient data, and
    the consecutive-years computation is not reached.  The v2 script
    excludes every symbol before it looks at the yield, the price or the
    history: [get_stock_info] fails on the undefined name [StockInfo],
    and the reason given is that the basic data are unavailable, not
    that the dividend data are insufficient. *)
Theorem C5_insufficient_dividend_data (t : string) (info : dividend_info)
    (history : list date) :
  let yield := mul_float (default 0%Q (info_dividendYield info)) 100 in
  let price := default 0%Q (info_currentPrice info) in
  ((history = [] ∨ (default 0%Q (info_dividendYield info) == 0)%Q
    ∨ (yield == 0)%Q ∨ (price == 0)%Q) →
   Dividendos.calculate_yield_and_dividend_years t (Return info) (Return history)
   = Dividendos.Excluida t ["Dados insuficientes"])
  ∧ (∀ stock_history,
       DividendosV2.analyze_stock t (Return info) stock_history
       = (DividendosV2.Excluida t ["Dados básicos não disponíveis"],
          [ProcessingError t "name 'StockInfo' is not defined"])).
Proof.
  intros yield price. split.
  - unfold Dividendos.calculate_yield_and_dividend_years,
      Dividendos.calculate_yield_and_dividend_years_try.
    cbn -[Qeq_bool round]. fold yield price.
    intros Hex.
    destruct (bool_decide (length history = 0) || Qeq_bool yield 0
              || Qeq_bool price 0) eqn:Hc; [done|].
    apply orb_false_iff in Hc as [Hc Hp]. apply orb_false_iff in Hc as [Hh Hy].
    apply bool_decide_eq_false in Hh.
    destruct Hex as [->|[E|[E|E]]]; [done| | |].
    + apply (mul_float_0_l _ 100) in E. fold yield in E. rewrite E in Hy. done.
    + apply Qeq_bool_iff in E. congruence.
    + apply Qeq_bool_iff in E. congruence.
  - intros stock_history. apply DividendosV2_analyze_stock.
Qed.

Lemma C5_witness :
  Dividendos.calculate_yield_and_dividend_years "AAA" (Return (paying 0))
    (Return [{| year := 2020; month := 3; day := 1 |}])
  = Dividendos.Excluida "AAA" ["Dados insuficientes"]
  ∧ DividendosV2.analyze_stock "AAA" (Return (paying 0))
      (Return [{| year := 2020; month := 3; day := 1 |}])
    = (DividendosV2.Excluida "AAA" ["Dados básicos não disponíveis"],
       [ProcessingError "AAA" "name 'StockInfo' is not defined"]).
Proof.
  split.
  - apply (proj1 (C5_insufficient_dividend_data "AAA" (paying 0)
                    [{| year := 2020; month := 3; day := 1 |}])).
    right. left. reflexivity.
  - apply (proj2 (C5_insufficient_dividend_data "AAA" (paying 0) [])).
Defined.

(** C10, as stated, does not hold: the yields 0.03004 and 0.03006 are
    3.004 % and 3.006 %, which differ by less than 0.005 percentage
    points, but they round to 3.00 and 3.01 and get different ranks. *)
Lemma C10_counterexample :
  ∃ d1 d2 s1 s2,
    Dividendos.calculate_yield_and_dividend_years "AAA"
      (Return (paying float_0_03004))
      (Return [{| year := 2020; month := 3; day := 1 |}])
    = Dividendos.Incluida d1
    ∧ Dividendos.calculate_yield_and_dividend_years "BBB"
        (Return (paying float_0_03006))
        (Return [{| year := 2020; month := 3; day := 1 |}])
      = Dividendos.Incluida d2
    ∧ (row_dividend_yield d1 == 3)%Q ∧ (row_dividend_yield d2 == 301 # 100)%Q
    ∧ add_ranks row_dividend_yield years_value [d1; d2] = [s1; s2]
    ∧ (Qabs (float_0_03004 * 100 - float_0_03006 * 100) < 5 # 1000)%Q
    ∧ (Qabs (mul_float float_0_03004 100 - mul_float float_0_03006 100)
       < 5 # 1000)%Q
    ∧ ¬ (Rank_1 s1 == Rank_1 s2)%Q.
Proof.
  eexists _, _, _, _. split; [vm_compute; reflexivity|].
  split; [vm_compute; reflexivity|]. split; [reflexivity|].
  split; [reflexivity|]. split; [vm_compute; reflexivity|].
  split; [reflexivity|]. split; [reflexivity|].
  simpl. intros E. vm_compute in E. discriminate.
Qed.

(** C10 (amended).  For every symbol the first dividend script includes,
    the ranked yield is the provider's yield (0 when absent) times 100,
    the product being the binary64 product of Python, rounded to two
    decimals; the fractional rank is computed on this rounded column, so
    two symbols whose rounded percentages are equal get tied ranks.  The
    v2 script includes no symbol. *)
Theorem C10_yield_rounded_then_ranked :
  (∀ t info history r,
     Dividendos.calculate_yield_and_dividend_years t (Return info)
       (Return history) = Dividendos.Incluida r →
     row_dividend_yield r
     = round (mul_float (default 0%Q (info_dividendYield info)) 100) 2)
  ∧ (∀ t stock_info stock_history,
       DividendosV2.is_Incluida
         (DividendosV2.analyze_stock t stock_info stock_history).1 = false)
  ∧ (∀ (df : list dividend_row) i j s1 s2,
       add_ranks row_dividend_yield years_value df !! i = Some s1 →
       add_ranks row_dividend_yield years_value df !! j = Some s2 →
       pandas.rank (row_dividend_yield <$> df) false !! i = Some (Rank_1 s1)
       ∧ ((row_dividend_yield (row s1) == row_dividend_yield (row s2))%Q →
          (Rank_1 s1 == Rank_1 s2)%Q)).
Proof.
  split; [|split].
  - intros t info history r.
    unfold Dividendos.calculate_yield_and_dividend_years,
      Dividendos.calculate_yield_and_dividend_years_try.
    cbn -[Qeq_bool round]. destruct (_ || _); [done|]. by intros [= <-].
  - intros t stock_info stock_history.
    by rewrite DividendosV2_analyze_stock.
  - intros df i j s1 s2 H1 H2.
    pose proof (add_ranks_lookup _ _ _ _ _ H1) as (_ & Hr1 & _).
    split; [done|]. intros Heq.
    pose proof (add_ranks_elem _ _ _ _ (list_elem_of_lookup_2 _ _ _ H1))
      as (_ & E1 & _).
    pose proof (add_ranks_elem _ _ _ _ (list_elem_of_lookup_2 _ _ _ H2))
      as (_ & E2 & _).
    rewrite E1, E2. by rewrite (average_rank_proper _ _ _ Heq).
Qed.

Lemma C10_witness :
  ∃ r,
    Dividendos.calculate_yield_and_dividend_years "AAA"
      (Return (paying float_0_00125))
      (Return [{| year := 2020; month := 3; day := 1 |}])
    = Dividendos.Incluida r
    ∧ row_dividend_yield r = round (mul_float float_0_00125 100) 2
    ∧ (mul_float float_0_00125 100 == 1 # 8)%Q
    ∧ (row_dividend_yield r == 12 # 100)%Q.
Proof.
  eexists. split; [vm_compute; reflexivity|].
  split; [|split; reflexivity].
  apply (proj1 C10_yield_rounded_then_ranked "AAA" (paying float_0_00125)
           [{| year := 2020; month := 3; day := 1 |}]).
  vm_compute. reflexivity.
Defined.

(** ** Excluded symbols and the statistics *)

Lemma snd_imap_rank {A} (l : list A) :
  snd <$> imap (λ index r, (index + 1, r)) l = l.
Proof.
  apply list_eq. intros i. rewrite list_lookup_fmap, list_lookup_imap.
  by destruct (l !! i).
Qed.

Lemma rank_rows_elem `{pandas.SortValues} {R} (c1 c2 : R → Q) (df : list R) a :
  a ∈ rank_rows c1 c2 df → row (scored_row a) ∈ df.
Proof.
  intros Ha. rewrite <- (rank_rows_rows c1 c2 df).
  apply (list_elem_of_fmap_2 (row ∘ scored_row)), Ha.
Qed.

(** Factor scripts: a ticker whose score is [None] is not ranked. *)
Lemma Fatores_excluded_not_ranked `{pandas.SortValues} yf companies t :
  (Fatores.calculate_score t (yf t)).1 = None →
  t ∉ (λ r, r.2.1) <$> Fatores.scores_df (Fatores.scores_of yf companies).
Proof.
  intros Hnone Hin. apply list_elem_of_fmap in Hin as ([k [t' s]] & -> & Hin).
  apply (list_elem_of_fmap_2 snd) in Hin. unfold Fatores.scores_df in Hin.
  rewrite snd_imap_rank, pandas.sort_values_Permutation in Hin.
  unfold Fatores.scores_of in Hin. apply list_elem_of_omap in Hin as (t0 & _ & Hs).
  simpl in *. destruct (Fatores.calculate_score t0 (yf t0)).1 eqn:E; [|done].
  simpl in Hs. injection Hs as -> ->. congruence.
Qed.

Lemma FatoresV2_ticker t info r log :
  FatoresV2.calculate_score t info = (Some r, log) → FatoresV2.ticker r = t.
Proof.
  unfold FatoresV2.calculate_score, FatoresV2.calculate_score_try.
  destruct info as [[[pe|] [roe|] [dte|] [dy|]]|e]; simpl; try done.
  by intros [= <- _].
Qed.

Lemma FatoresV2_excluded_not_ranked `{pandas.SortValues} yf companies t :
  (FatoresV2.calculate_score t (yf t)).1 = None →
  t ∉ (λ r, FatoresV2.ticker r.2)
        <$> FatoresV2.scores_df (FatoresV2.scores_of yf companies).
Proof.
  intros Hnone Hin. apply list_elem_of_fmap in Hin as ([k r] & -> & Hin).
  apply (list_elem_of_fmap_2 snd) in Hin. unfold FatoresV2.scores_df in Hin.
  rewrite snd_imap_rank, pandas.sort_values_Permutation in Hin.
  unfold FatoresV2.scores_of in Hin.
  apply list_elem_of_omap in Hin as (t0 & _ & Hs). simpl in *.
  destruct (FatoresV2.calculate_score t0 (yf t0)) as [o log] eqn:E.
  simpl in Hs. subst o. apply FatoresV2_ticker in E as E'. subst t0.
  rewrite E in Hnone. done.
Qed.

(** Magic Formula, first script *)
Lemma MagicFormula_Ticker t stock :
  MagicFormula.Ticker_of (MagicFormula.calculate_magic_formula t stock) = t.
Proof.
  unfold MagicFormula.calculate_magic_formula,
    MagicFormula.calculate_magic_formula_try.
  destruct stock as [s|e]; simpl; [|done].
  destruct (_ || _); simpl; [done|]. destruct (negb _); simpl; [done|].
  destruct (Total_Assets s), (Current_Assets s), (Current_Liabilities s),
    (marketCap s), (totalDebt s), (totalCash s); simpl; try done.
  destruct (_ || _); simpl; [done|]. destruct (EBIT s); simpl; [|done].
  unfold truediv. repeat (destruct (Qeq_bool _ _); simpl; try done).
Qed.

Lemma MagicFormula_DataFrame_elem x rs :
  x ∈ MagicFormula.DataFrame rs →
  MagicFormula.Incluida (mf_ticker x) (mf_roc x) (mf_earnings_yield x) ∈ rs.
Proof.
  unfold MagicFormula.DataFrame. intros (r & Hr & Hx)%list_elem_of_omap.
  destruct r; [|done]. by injection Hx as <-.
Qed.

Lemma MagicFormula_excluded `{pandas.SortValues} yf companies t t' missing :
  t ∈ companies →
  MagicFormula.calculate_magic_formula t (yf t) = MagicFormula.Excluida t' missing →
  let all_results := MagicFormula.all_results yf companies in
  let excluded := MagicFormula.excluded all_results in
  t' = t
  ∧ (t ∉ ranked_tickers mf_ticker
           (MagicFormula.scores_df (MagicFormula.included all_results)))
  ∧ MagicFormula.Excluida t missing ∈ excluded
  ∧ (0 < length (MagicFormula.included all_results) →
     StatExcluded (length excluded) ∈ (MagicFormula.main yf companies).2
     ∧ ExcludedDetail t missing ∈ (MagicFormula.main yf companies).2).
Proof.
  intros Ht Hex all_results excluded.
  assert (t' = t) as ->.
  { pose proof (MagicFormula_Ticker t (yf t)) as E. by rewrite Hex in E. }
  assert (MagicFormula.Excluida t missing ∈ excluded) as Hin.
  { apply list_elem_of_filter. split; [done|]. rewrite <- Hex.
    exact (list_elem_of_fmap_2
             (λ t, MagicFormula.calculate_magic_formula t (yf t)) _ _ Ht). }
  split; [done|]. split; [|split; [done|]].
  - intros (a & -> & Ha)%list_elem_of_fmap. unfold MagicFormula.scores_df in Ha.
    apply rank_rows_elem, MagicFormula_DataFrame_elem in Ha.
    apply list_elem_of_filter in Ha as [_ Ha].
    apply list_elem_of_fmap in Ha as (t0 & E & _).
    pose proof (MagicFormula_Ticker t0 (yf t0)) as Et. rewrite <- E in Et.
    simpl in *. subst t0. congruence.
  - intros Hpos. unfold MagicFormula.main. fold all_results. fold excluded.
    rewrite bool_decide_eq_true_2 by done. simpl. split.
    + do 3 right. left.
    + do 4 right. apply list_elem_of_bind. eexists. split; [|exact Hin].
      simpl. left.
Qed.

(** Magic Formula, v2 *)
Lemma MagicFormulaV2_ticker t stock :
  MagicFormulaV2.ticker_of (MagicFormulaV2.analyze_stock t stock).1 = t.
Proof.
  unfold MagicFormulaV2.analyze_stock, MagicFormulaV2.get_financial_data.
  destruct stock as [s|e]; simpl; [|done].
  destruct (_ || _); simpl; [done|]. destruct (negb _); simpl; [done|].
  destruct (MagicFormulaV2.calculate_metrics _) as [[??]|?]; done.
Qed.

Lemma MagicFormulaV2_DataFrame_elem x rs :
  x ∈ MagicFormulaV2.DataFrame rs →
  MagicFormulaV2.Incluida (mf_ticker x) (mf_roc x) (mf_earnings_yield x) ∈ rs.
Proof.
  unfold MagicFormulaV2.DataFrame. intros (r & Hr & Hx)%list_elem_of_omap.
  destruct r; [|done]. by injection Hx as <-.
Qed.

Lemma MagicFormulaV2_excluded `{pandas.SortValues} yf companies t t' missing :
  t ∈ companies →
  (MagicFormulaV2.analyze_stock t (yf t)).1 = MagicFormulaV2.Excluida t' missing →
  let results := MagicFormulaV2.results_of yf companies in
  let log := (MagicFormulaV2.run_analysis yf companies).2 in
  t' = t
  ∧ (∀ df, (MagicFormulaV2.prepare_rankings results).1 = Some df →
           t ∉ ranked_tickers mf_ticker df)
  ∧ StatExcluded
      (length (filter (λ r, MagicFormulaV2.is_Excluida r = true) results)) ∈ log
  ∧ ExcludedDetail t missing ∈ log.
Proof.
  intros Ht Hex results log.
  assert (t' = t) as ->.
  { pose proof (MagicFormulaV2_ticker t (yf t)) as E. by rewrite Hex in E. }
  split; [done|]. split; [|].
  - intros df. unfold MagicFormulaV2.prepare_rankings.
    case_bool_decide; [done|]. simpl. intros [= <-].
    intros (a & -> & Ha)%list_elem_of_fmap.
    apply rank_rows_elem, MagicFormulaV2_DataFrame_elem in Ha.
    apply list_elem_of_filter in Ha as [_ Ha].
    apply list_elem_of_fmap in Ha as (t0 & E & _).
    pose proof (MagicFormulaV2_ticker t0 (yf t0)) as Et. rewrite <- E in Et.
    simpl in *. subst t0. congruence.
  - subst log. unfold MagicFormulaV2.run_analysis.
    rewrite bool_decide_eq_false_2
      by (destruct companies; [by apply elem_of_nil in Ht|done]).
    fold results. destruct (MagicFormulaV2.prepare_rankings results) as [df w].
    simpl. unfold MagicFormulaV2.print_results.
    split; rewrite !elem_of_app.
    + do 3 right. left. rewrite !elem_of_cons. auto.
    + do 4 right. apply list_elem_of_bind.
      exists (MagicFormulaV2.Excluida t missing). split; [simpl; left|].
      apply list_elem_of_filter. split; [done|]. rewrite <- Hex.
      exact (list_elem_of_fmap_2
               (λ t, (MagicFormulaV2.analyze_stock t (yf t)).1) _ _ Ht).
Qed.

(** Dividend model, first script *)
Lemma Dividendos_Ticker t info history :
  Dividendos.Ticker_of
    (Dividendos.calculate_yield_and_dividend_years t info history) = t.
Proof.
  unfold Dividendos.calculate_yield_and_dividend_years,
    Dividendos.calculate_yield_and_dividend_years_try.
  destruct info as [i|e]; simpl; [|done].
  destruct history as [h|e]; simpl; [|done].
  by destruct (_ || _).
Qed.

Lemma Dividendos_DataFrame_elem x rs :
  x ∈ Dividendos.DataFrame rs → Dividendos.Incluida x ∈ rs.
Proof.
  unfold Dividendos.DataFrame. intros (r & Hr & Hx)%list_elem_of_omap.
  destruct r; [|done]. by injection Hx as <-.
Qed.

Lemma Dividendos_excluded `{pandas.SortValues} yf_info yf_history companies
    t t' missing :
  t ∈ companies →
  Dividendos.calculate_yield_and_dividend_years t (yf_info t) (yf_history t)
  = Dividendos.Excluida t' missing →
  let all_results := Dividendos.all_results yf_info yf_history companies in
  let excluded := Dividendos.excluded all_results in
  t' = t
  ∧ (t ∉ ranked_tickers row_ticker
           (Dividendos.scores_df (Dividendos.included all_results)))
  ∧ Dividendos.Excluida t missing ∈ excluded
  ∧ (0 < length (Dividendos.included all_results) →
     StatExcluded (length excluded)
       ∈ (Dividendos.main yf_info yf_history companies).2
     ∧ ExcludedDetail t missing
         ∈ (Dividendos.main yf_info yf_history companies).2).
Proof.
  intros Ht Hex all_results excluded.
  assert (t' = t) as ->.
  { pose proof (Dividendos_Ticker t (yf_info t) (yf_history t)) as E.
    by rewrite Hex in E. }
  assert (Dividendos.Excluida t missing ∈ excluded) as Hin.
  { apply list_elem_of_filter. split; [done|]. rewrite <- Hex.
    exact (list_elem_of_fmap_2
             (λ t, Dividendos.calculate_yield_and_dividend_years t (yf_info t)
                     (yf_history t)) _ _ Ht). }
  split; [done|]. split; [|split; [done|]].
  - intros (a & -> & Ha)%list_elem_of_fmap. unfold Dividendos.scores_df in Ha.
    apply rank_rows_elem, Dividendos_DataFrame_elem in Ha.
    apply list_elem_of_filter in Ha as [_ Ha].
    apply list_elem_of_fmap in Ha as (t0 & E & _).
    pose proof (Dividendos_Ticker t0 (yf_info t0) (yf_history t0)) as Et.
    rewrite <- E in Et. simpl in *. subst t0. congruence.
  - intros Hpos. unfold Dividendos.main. fold all_results. fold excluded.
    rewrite bool_decide_eq_true_2 by done. simpl. split.
    + do 3 right. left.
    + do 4 right. apply list_elem_of_bind. eexists. split; [|exact Hin].
      simpl. left.
Qed.

(** Dividend model, v2 *)
Lemma DividendosV2_ticker t info history :
  DividendosV2.ticker_of (DividendosV2.analyze_stock t info history).1 = t.
Proof. by rewrite DividendosV2_analyze_stock. Qed.

Lemma DividendosV2_DataFrame_elem x rs :
  x ∈ DividendosV2.DataFrame rs → DividendosV2.Incluida x ∈ rs.
Proof.
  unfold DividendosV2.DataFrame. intros (r & Hr & Hx)%list_elem_of_omap.
  destruct r; [|done]. by injection Hx as <-.
Qed.

(** The results of a v2 dividend run: every company is excluded, for
    unavailable basic data. *)
Lemma DividendosV2_results_of yf_info yf_history companies :
  DividendosV2.results_of yf_info yf_history companies
  = (λ t, DividendosV2.Excluida t ["Dados básicos não disponíveis"])
      <$> companies.
Proof.
  unfold DividendosV2.results_of. apply list_fmap_ext. intros i t _.
  by rewrite DividendosV2_analyze_stock.
Qed.

Lemma DividendosV2_all_excluded yf_info yf_history companies :
  filter (λ r, DividendosV2.is_Incluida r = true)
         (DividendosV2.results_of yf_info yf_history companies) = []
  ∧ filter (λ r, DividendosV2.is_Excluida r = true)
           (DividendosV2.results_of yf_info yf_history companies)
    = DividendosV2.results_of yf_info yf_history companies.
Proof.
  rewrite DividendosV2_results_of.
  induction companies as [|t companies [IH1 IH2]]; [done|].
  rewrite fmap_cons, filter_cons_False, filter_cons_True by done.
  by rewrite IH1, IH2.
Qed.

Lemma DividendosV2_excluded `{pandas.SortValues} yf_info yf_history companies
    t t' missing :
  t ∈ companies →
  (DividendosV2.analyze_stock t (yf_info t) (yf_history t)).1
  = DividendosV2.Excluida t' missing →
  let results := DividendosV2.results_of yf_info yf_history companies in
  let log := (DividendosV2.run_analysis yf_info yf_history companies).2 in
  t' = t
  ∧ missing = ["Dados básicos não disponíveis"]
  ∧ DividendosV2.prepare_rankings results = (None, [NoData])
  ∧ (DividendosV2.run_analysis yf_info yf_history companies).1 = None
  ∧ StatExcluded (length companies) ∈ log
  ∧ ExcludedDetail t missing ∈ log.
Proof.
  intros Ht Hex results log.
  rewrite DividendosV2_analyze_stock in Hex. injection Hex as <- <-.
  destruct (DividendosV2_all_excluded yf_info yf_history companies)
    as [Hin Hexcl].
  fold results in Hin, Hexcl.
  assert (DividendosV2.prepare_rankings results = (None, [NoData])) as Hprep.
  { unfold DividendosV2.prepare_rankings. by rewrite Hin. }
  assert (length results = length companies) as Hlen
    by (unfold results, DividendosV2.results_of; by rewrite length_fmap).
  split; [done|]. split; [done|]. split; [done|].
  subst log. unfold DividendosV2.run_analysis.
  rewrite bool_decide_eq_false_2
    by (destruct companies; [by apply elem_of_nil in Ht|done]).
  fold results. rewrite Hprep. cbn [fst snd fmap option_fmap option_map].
  split; [done|]. unfold DividendosV2.print_results. rewrite Hexcl, Hlen.
  split; rewrite !elem_of_app.
  - do 3 right. left. rewrite !elem_of_cons. auto.
  - do 4 right. apply list_elem_of_bind.
    exists (DividendosV2.Excluida t ["Dados básicos não disponíveis"]).
    split; [simpl; left|].
    unfold results. rewrite DividendosV2_results_of.
    exact (list_elem_of_fmap_2
             (λ t, DividendosV2.Excluida t ["Dados básicos não disponíveis"])
             _ _ Ht).
Qed.

(** C8, as stated, does not hold for the factor scripts: "BBB", which
    lacks a metric, is dropped; no count of excluded companies and no
    list of reasons is reported. *)
Lemma C8_counterexample :
  (FatoresV2.calculate_score "BBB" (factor_info "BBB")).1 = None
  ∧ "BBB" ∈ ["AAA"; "BBB"]
  ∧ ¬ listed_among_excluded
        (@FatoresV2.run_analysis merge_sort_values factor_info ["AAA"; "BBB"]).2
        "BBB"
  ∧ (Fatores.calculate_score "BBB" (factor_info "BBB")).1 = None
  ∧ ¬ listed_among_excluded
        (@Fatores.main merge_sort_values factor_info ["AAA"; "BBB"]).2 "BBB".
Proof.
  split; [reflexivity|]. split; [apply list_elem_of_In; simpl; tauto|].
  split; [|split; [reflexivity|]].
  - intros [[n Hn] _]. vm_compute in Hn. apply list_elem_of_In in Hn.
    simpl in Hn. intuition discriminate.
  - intros [[n Hn] _]. vm_compute in Hn. apply list_elem_of_In in Hn.
    simpl in Hn. intuition discriminate.
Qed.

(** C8 (amended).  In all six scripts an excluded symbol never appears
    in the final ranking.  In the Magic Formula and dividend scripts it is
    kept among the excluded results with its reasons; the v2 scripts
    always report the number of excluded companies and list the symbol
    with its reasons, the first scripts do so when at least one company
    is included.  The v2 dividend script excludes every symbol (its
    [get_stock_info] fails on the undefined name [StockInfo]) and has no
    ranking at all. *)
Theorem C8_excluded_never_ranked `{pandas.SortValues} :
  (∀ yf companies t,
     (Fatores.calculate_score t (yf t)).1 = None →
     t ∉ (λ r, r.2.1) <$> Fatores.scores_df (Fatores.scores_of yf companies))
  ∧ (∀ yf companies t,
       (FatoresV2.calculate_score t (yf t)).1 = None →
       t ∉ (λ r, FatoresV2.ticker r.2)
             <$> FatoresV2.scores_df (FatoresV2.scores_of yf companies))
  ∧ (∀ yf companies t t' missing,
       t ∈ companies →
       MagicFormula.calculate_magic_formula t (yf t)
       = MagicFormula.Excluida t' missing →
       let all_results := MagicFormula.all_results yf companies in
       t' = t
       ∧ (t ∉ ranked_tickers mf_ticker
                (MagicFormula.scores_df (MagicFormula.included all_results)))
       ∧ MagicFormula.Excluida t missing ∈ MagicFormula.excluded all_results
       ∧ (0 < length (MagicFormula.included all_results) →
          StatExcluded (length (MagicFormula.excluded all_results))
            ∈ (MagicFormula.main yf companies).2
          ∧ ExcludedDetail t missing ∈ (MagicFormula.main yf companies).2))
  ∧ (∀ yf companies t t' missing,
       t ∈ companies →
       (MagicFormulaV2.analyze_stock t (yf t)).1
       = MagicFormulaV2.Excluida t' missing →
       let results := MagicFormulaV2.results_of yf companies in
       let log := (MagicFormulaV2.run_analysis yf companies).2 in
       t' = t
       ∧ (∀ df, (MagicFormulaV2.prepare_rankings results).1 = Some df →
                t ∉ ranked_tickers mf_ticker df)
       ∧ StatExcluded
           (length (filter (λ r, MagicFormulaV2.is_Excluida r = true) results))
           ∈ log
       ∧ ExcludedDetail t missing ∈ log)
  ∧ (∀ yf_info yf_history companies t t' missing,
       t ∈ companies →
       Dividendos.calculate_yield_and_dividend_years t (yf_info t) (yf_history t)
       = Dividendos.Excluida t' missing →
       let all_results := Dividendos.all_results yf_info yf_history companies in
       t' = t
       ∧ (t ∉ ranked_tickers row_ticker
                (Dividendos.scores_df (Dividendos.included all_results)))
       ∧ Dividendos.Excluida t missing ∈ Dividendos.excluded all_results
       ∧ (0 < length (Dividendos.included all_results) →
          StatExcluded (length (Dividendos.excluded all_results))
            ∈ (Dividendos.main yf_info yf_history companies).2
          ∧ ExcludedDetail t missing
              ∈ (Dividendos.main yf_info yf_history companies).2))
  ∧ (∀ yf_info yf_history companies t t' missing,
       t ∈ companies →
       (DividendosV2.analyze_stock t (yf_info t) (yf_history t)).1
       = DividendosV2.Excluida t' missing →
       let results := DividendosV2.results_of yf_info yf_history companies in
       let log := (DividendosV2.run_analysis yf_info yf_history companies).2 in
       t' = t
       ∧ missing = ["Dados básicos não disponíveis"]
       ∧ DividendosV2.prepare_rankings results = (None, [NoData])
       ∧ (DividendosV2.run_analysis yf_info yf_history companies).1 = None
       ∧ StatExcluded (length companies) ∈ log
       ∧ ExcludedDetail t missing ∈ log).
Proof.
  split; [apply Fatores_excluded_not_ranked|].
  split; [apply FatoresV2_excluded_not_ranked|].
  split; [apply MagicFormula_excluded|].
  split; [apply MagicFormulaV2_excluded|].
  split; [apply Dividendos_excluded|apply DividendosV2_excluded].
Qed.

Lemma C8_witness :
  ("BBB" ∉ ranked_tickers mf_ticker
             (@MagicFormula.scores_df merge_sort_values
                (MagicFormula.included
                   (MagicFormula.all_results magic_statements ["AAA"; "BBB"]))))
  ∧ ExcludedDetail "BBB" ["EBIT"]
      ∈ (@MagicFormulaV2.run_analysis merge_sort_values magic_statements
           ["AAA"; "BBB"]).2.
Proof.
  split.
  - apply (proj1 (proj2 (proj2 (@C8_excluded_never_ranked merge_sort_values)))
             magic_statements ["AAA"; "BBB"] "BBB" "BBB" ["EBIT"]).
    + apply list_elem_of_In. simpl. tauto.
    + reflexivity.
  - apply (proj1 (proj2 (proj2 (proj2
             (@C8_excluded_never_ranked merge_sort_values))))
             magic_statements ["AAA"; "BBB"] "BBB" "BBB" ["EBIT"]).
    + apply list_elem_of_In. simpl. tauto.
    + reflexivity.
Defined.

(** ** Runs in which nothing is included *)

Lemma MagicFormula_none_included rs :
  MagicFormula.included rs = [] → MagicFormula.excluded rs = rs.
Proof.
  unfold MagicFormula.included, MagicFormula.excluded.
  induction rs as [|[t roc ey|t m] rs IH]; [done| |].
  - by rewrite filter_cons_True.
  - rewrite filter_cons_False by done. intros Hrs.
    rewrite filter_cons_True by done. by rewrite IH.
Qed.

Lemma Dividendos_none_included rs :
  Dividendos.included rs = [] → Dividendos.excluded rs = rs.
Proof.
  unfold Dividendos.included, Dividendos.excluded.
  induction rs as [|[d|t m] rs IH]; [done| |].
  - by rewrite filter_cons_True.
  - rewrite filter_cons_False by done. intros Hrs.
    rewrite filter_cons_True by done. by rewrite IH.
Qed.

Lemma MagicFormulaV2_none_included rs :
  filter (λ r, MagicFormulaV2.is_Incluida r = true) rs = [] →
  filter (λ r, MagicFormulaV2.is_Excluida r = true) rs = rs.
Proof.
  induction rs as [|[t roc ey|t m] rs IH]; [done| |].
  - by rewrite filter_cons_True.
  - rewrite filter_cons_False by done. intros Hrs.
    rewrite filter_cons_True by done. by rewrite IH.
Qed.

(** C9, as stated, does not hold for the factor scripts: when every
    company is excluded the run returns [None] and reports that no score
    was calculated, and nothing records the exclusions. *)
Lemma C9_counterexample :
  Fatores.scores_of no_factor_info ["AAA"; "BBB"] = []
  ∧ @Fatores.main merge_sort_values no_factor_info ["AAA"; "BBB"]
    = (None, [NoData])
  ∧ (∀ n, StatTotal n
            ∉ (@Fatores.main merge_sort_values no_factor_info ["AAA"; "BBB"]).2)
  ∧ ¬ listed_among_excluded
        (@Fatores.main merge_sort_values no_factor_info ["AAA"; "BBB"]).2 "AAA".
Proof.
  split; [reflexivity|]. split; [reflexivity|]. split.
  - intros n Hn. vm_compute in Hn. apply list_elem_of_In in Hn.
    simpl in Hn. intuition discriminate.
  - intros [[n Hn] _]. vm_compute in Hn. apply list_elem_of_In in Hn.
    simpl in Hn. intuition discriminate.
Qed.

(** C9 (amended).  In the Magic Formula and dividend scripts a run over
    a non-empty universe in which no company is included is not an error:
    the result is [None], the excluded results are all the results, and
    the total equals the number of excluded companies.  The v2 scripts
    report these statistics and list every company with its reasons.
    Every run of the v2 dividend script over a non-empty universe is such
    a run. *)
Theorem C9_nothing_included `{pandas.SortValues} :
  (∀ yf companies,
     let all_results := MagicFormula.all_results yf companies in
     MagicFormula.included all_results = [] →
     MagicFormula.main yf companies = (None, [NoData])
     ∧ MagicFormula.excluded all_results = all_results
     ∧ length all_results = length (MagicFormula.excluded all_results))
  ∧ (∀ yf_info yf_history companies,
       let all_results := Dividendos.all_results yf_info yf_history companies in
       Dividendos.included all_results = [] →
       Dividendos.main yf_info yf_history companies = (None, [NoData])
       ∧ Dividendos.excluded all_results = all_results
       ∧ length all_results = length (Dividendos.excluded all_results))
  ∧ (∀ yf companies,
       let results := MagicFormulaV2.results_of yf companies in
       companies ≠ [] →
       filter (λ r, MagicFormulaV2.is_Incluida r = true) results = [] →
       MagicFormulaV2.prepare_rankings results = (None, [NoData])
       ∧ MagicFormulaV2.print_results results None
         = [StatTotal (length companies); StatIncluded 0;
            StatExcluded (length companies)]
           ++ (results ≫= MagicFormulaV2.detail)
       ∧ MagicFormulaV2.run_analysis yf companies
         = (None, MagicFormulaV2.logged yf companies ++ [NoData]
                  ++ MagicFormulaV2.print_results results None))
  ∧ (∀ yf_info yf_history companies,
       let results := DividendosV2.results_of yf_info yf_history companies in
       companies ≠ [] →
       filter (λ r, DividendosV2.is_Incluida r = true) results = []
       ∧ DividendosV2.prepare_rankings results = (None, [NoData])
       ∧ DividendosV2.print_results results None
         = [StatTotal (length companies); StatIncluded 0;
            StatExcluded (length companies)]
           ++ (results ≫= DividendosV2.detail)
       ∧ DividendosV2.run_analysis yf_info yf_history companies
         = (None, DividendosV2.logged yf_info yf_history companies ++ [NoData]
                  ++ DividendosV2.print_results results None)).
Proof.
  split; [|split; [|split]].
  - intros yf companies all_results Hnone.
    pose proof (MagicFormula_none_included _ Hnone) as Hex.
    unfold MagicFormula.main. fold all_results. rewrite Hnone, Hex. done.
  - intros yf_info yf_history companies all_results Hnone.
    pose proof (Dividendos_none_included _ Hnone) as Hex.
    unfold Dividendos.main. fold all_results. rewrite Hnone, Hex. done.
  - intros yf companies results Hne Hnone.
    pose proof (MagicFormulaV2_none_included _ Hnone) as Hex.
    assert (length results = length companies) as Hlen
      by (unfold results, MagicFormulaV2.results_of; by rewrite length_fmap).
    assert (MagicFormulaV2.prepare_rankings results = (None, [NoData])) as Hprep.
    { unfold MagicFormulaV2.prepare_rankings. by rewrite Hnone. }
    split; [done|]. split.
    + unfold MagicFormulaV2.print_results. rewrite Hex, Hlen, Nat.sub_diag. done.
    + unfold MagicFormulaV2.run_analysis. fold results. rewrite Hprep.
      rewrite bool_decide_eq_false_2; [done|]. by destruct companies.
  - intros yf_info yf_history companies results Hne.
    destruct (DividendosV2_all_excluded yf_info yf_history companies)
      as [Hnone Hex].
    fold results in Hnone, Hex.
    assert (length results = length companies) as Hlen
      by (unfold results, DividendosV2.results_of; by rewrite length_fmap).
    assert (DividendosV2.prepare_rankings results = (None, [NoData])) as Hprep.
    { unfold DividendosV2.prepare_rankings. by rewrite Hnone. }
    split; [done|]. split; [done|]. split.
    + unfold DividendosV2.print_results. rewrite Hex, Hlen, Nat.sub_diag. done.
    + unfold DividendosV2.run_analysis. fold results. rewrite Hprep.
      rewrite bool_decide_eq_false_2; [done|]. by destruct companies.
Qed.

Lemma C9_witness :
  @MagicFormulaV2.run_analysis merge_sort_values no_statements ["AAA"; "BBB"]
  = (None,
     [NoData; StatTotal 2; StatIncluded 0; StatExcluded 2;
      ExcludedDetail "AAA" ["Dados financeiros não disponíveis"];
      ExcludedDetail "BBB" ["Dados financeiros não disponíveis"]]).
Proof.
  destruct (proj1 (proj2 (proj2 (@C9_nothing_included merge_sort_values)))
              no_statements ["AAA"; "BBB"]) as (_ & Hprint & Hrun).
  - discriminate.
  - reflexivity.
  - rewrite Hrun, Hprint. reflexivity.
Defined.

(** * Further properties of the scripts *)

Local Set Warnings "-clear-no-such-hyp".

(** ** Further properties of the fractional rank *)

(** [lra] after turning the division by 2 into a multiplication. *)
Ltac lra_half :=
  unfold Qdiv in *; change (/ 2)%Q with (1 # 2)%Q in *; lra.

Lemma Q_of_nat_le n m : n ≤ m → (Q_of_nat n <= Q_of_nat m)%Q.
Proof. intros. unfold Q_of_nat. rewrite <- Zle_Qle. lia. Qed.

Lemma Q_of_nat_plus n m : (Q_of_nat (n + m) == Q_of_nat n + Q_of_nat m)%Q.
Proof. unfold Q_of_nat. by rewrite Nat2Z.inj_add, inject_Z_plus. Qed.

Lemma average_rank_bounds values i v :
  values !! i = Some v →
  (1 <= average_rank values v)%Q
  ∧ (average_rank values v <= Q_of_nat (length values))%Q.
Proof.
  intros Hi. rewrite (average_rank_closed values i v Hi).
  pose proof (n_equal_pos values i v Hi) as He.
  pose proof (length_filter_gt_eq v values) as Hsum.
  fold (n_greater values v) (n_equal values v) in Hsum.
  pose proof (Q_of_nat_le _ _ Hsum) as Hq. rewrite Q_of_nat_plus in Hq.
  pose proof (Q_of_nat_le 1 _ He) as H1.
  pose proof (Q_of_nat_le 0 (n_greater values v) ltac:(lia)) as H0.
  change (Q_of_nat 1) with 1%Q in H1. change (Q_of_nat 0) with 0%Q in H0.
  split; lra_half.
Qed.

(** A value greater than [v] and a value equal to it are never the same
    entry: the values greater than the smaller of two values include
    those greater than or equal to the larger one. *)
Lemma n_greater_lt values v w :
  (v < w)%Q → n_greater values w + n_equal values w ≤ n_greater values v.
Proof.
  intros Hvw. unfold n_greater, n_equal.
  induction values as [|x values IH]; [done|]. rewrite !filter_cons.
  destruct (decide (w < x)%Q), (decide (x == w)%Q), (decide (v < x)%Q);
    simpl; try lia; lra.
Qed.

Lemma average_rank_antitone values i j v w :
  values !! i = Some v → values !! j = Some w → (v < w)%Q →
  (average_rank values w < average_rank values v)%Q.
Proof.
  intros Hi Hj Hvw.
  rewrite (average_rank_closed values i v Hi), (average_rank_closed values j w Hj).
  pose proof (n_equal_pos values i v Hi) as Hev.
  pose proof (n_equal_pos values j w Hj) as Hew.
  pose proof (Q_of_nat_le _ _ (n_greater_lt values v w Hvw)) as Hq.
  rewrite Q_of_nat_plus in Hq.
  pose proof (Q_of_nat_le 1 _ Hev) as H1. pose proof (Q_of_nat_le 1 _ Hew) as H2.
  change (Q_of_nat 1) with 1%Q in *. lra_half.
Qed.

(** Every entry is greater than [v], equal to it or smaller. *)
Lemma n_three_way values v :
  n_greater values v + n_equal values v + n_smaller values v = length values.
Proof.
  unfold n_greater, n_equal, n_smaller.
  induction values as [|x values IH]; [done|]. rewrite !filter_cons.
  destruct (decide (v < x)%Q), (decide (x == v)%Q), (decide (x < v)%Q);
    simpl; try lia; lra.
Qed.

Lemma sum_list_cons (n : nat) (l : list nat) :
  sum_list (n :: l) = n + sum_list l.
Proof. done. Qed.

Lemma sum_pairs_cons x values (l : list Q) :
  sum_list (pair_count (x :: values) <$> l)
  = sum_list (pair_count values <$> l)
    + (2 * n_smaller l x + n_equal l x).
Proof.
  induction l as [|v l IH]; [done|].
  rewrite !fmap_cons, !sum_list_cons, IH.
  unfold pair_count, n_greater, n_equal, n_smaller. rewrite !filter_cons.
  destruct (decide (v < x)%Q), (decide (x == v)%Q), (decide (v == x)%Q);
    simpl; try lia; lra.
Qed.

(** Counting, for every entry, twice the greater and once the equal
    entries counts every ordered pair of entries once. *)
Lemma sum_pairs values :
  sum_list (pair_count values <$> values)
  = length values * length values.
Proof.
  induction values as [|x values IH]; [done|].
  rewrite fmap_cons, sum_list_cons, sum_pairs_cons, IH.
  pose proof (n_three_way values x). unfold pair_count at 1.
  assert (n_greater (x :: values) x = n_greater values x) as ->.
  { unfold n_greater. rewrite filter_cons. destruct (decide (x < x)%Q); [lra|done]. }
  assert (n_equal (x :: values) x = S (n_equal values x)) as ->.
  { unfold n_equal. rewrite filter_cons.
    destruct (decide (x == x)%Q) as [|Hne]; [done|]. by destruct Hne. }
  simpl. lia.
Qed.

Lemma sum_Q_twice_average values (l : list Q) :
  (∀ v, v ∈ l → v ∈ values) →
  (2 * sum_Q (average_rank values <$> l)
   == Q_of_nat (sum_list (pair_count values <$> l) + length l))%Q.
Proof.
  induction l as [|v l IH]; intros Hsub; [reflexivity|].
  rewrite !fmap_cons, sum_list_cons. simpl sum_Q. simpl length.
  assert (v ∈ values) as Hv by (apply Hsub; left).
  apply list_elem_of_lookup_1 in Hv as [i Hi].
  rewrite (average_rank_closed values i v Hi).
  assert (2 * sum_Q (average_rank values <$> l)
          == Q_of_nat (sum_list (pair_count values
                                   <$> l) + length l))%Q as IH'.
  { apply IH. intros u Hu. apply Hsub. by right. }
  unfold pair_count at 1.
  replace (2 * n_greater values v + n_equal values v
           + sum_list (pair_count values <$> l) + S (length l))%nat
    with (n_greater values v + n_greater values v + n_equal values v + 1
          + (sum_list (pair_count values <$> l) + length l))%nat by lia.
  rewrite !Q_of_nat_plus. rewrite Q_of_nat_plus in IH'.
  change (Q_of_nat 1) with 1%Q. lra_half.
Qed.

Lemma sum_Q_Forall2 (l k : list Q) :
  Forall2 Qeq l k → (sum_Q l == sum_Q k)%Q.
Proof. induction 1 as [|x y l k Hxy _ IH]; simpl; [reflexivity|]. by rewrite Hxy, IH. Qed.

Lemma rank_Forall2_average values :
  Forall2 Qeq (pandas.rank values false) (average_rank values <$> values).
Proof.
  destruct (rank_descending_spec values) as [Hlen Hr].
  apply Forall2_same_length_lookup. split.
  - by rewrite length_fmap.
  - intros i r a Hi Ha. rewrite list_lookup_fmap in Ha.
    destruct (values !! i) as [v|] eqn:Hv; [|done]. injection Ha as <-.
    pose proof (lookup_lt_Some _ _ _ Hv) as Hlt.
    rewrite <- (list_lookup_total_correct _ _ _ Hi),
            <- (list_lookup_total_correct _ _ _ Hv). by apply Hr.
Qed.

Lemma sum_Q_rank values :
  (sum_Q (pandas.rank values false)
   == Q_of_nat (length values) * (Q_of_nat (length values) + 1) / 2)%Q.
Proof.
  rewrite (sum_Q_Forall2 _ _ (rank_Forall2_average values)).
  pose proof (sum_Q_twice_average values values ltac:(done)) as H2.
  rewrite sum_pairs in H2.
  assert (Q_of_nat (length values * length values + length values)
          == Q_of_nat (length values) * Q_of_nat (length values)
             + Q_of_nat (length values))%Q as Hq.
  { rewrite Q_of_nat_plus. unfold Q_of_nat.
    by rewrite Nat2Z.inj_mul, inject_Z_mult. }
  rewrite Hq in H2. lra_half.
Qed.

Lemma average_rank_monotone values i j v w :
  values !! i = Some v → values !! j = Some w → (v <= w)%Q →
  (average_rank values w <= average_rank values v)%Q.
Proof.
  intros Hi Hj Hvw. destruct (Qlt_le_dec v w) as [Hlt|Hge].
  - apply Qlt_le_weak. by eapply average_rank_antitone.
  - assert (v == w)%Q as E by lra. rewrite (average_rank_proper _ _ _ E).
    apply Qle_refl.
Qed.

Lemma add_ranks_elem_lookup {R} (c : R → Q) (df : list R) (x : R) :
  x ∈ df → ∃ i, (c <$> df) !! i = Some (c x).
Proof.
  intros [i Hi]%list_elem_of_lookup_1. exists i.
  by rewrite list_lookup_fmap, Hi.
Qed.

(** X1.  Every rank that [add_ranks] writes lies between 1 and the
    number K of included companies: the rank of either component and the
    combined rank. *)
Theorem X1_ranks_between_1_and_K {R : Type} (c1 c2 : R → Q) (df : list R)
    (s : scored R) :
  s ∈ add_ranks c1 c2 df →
  (1 <= Rank_1 s <= Q_of_nat (length df))%Q
  ∧ (1 <= Rank_2 s <= Q_of_nat (length df))%Q
  ∧ (1 <= Combined_Rank s <= Q_of_nat (length df))%Q.
Proof.
  intros Hs. apply add_ranks_elem in Hs as (Hrow & E1 & E2 & ->).
  destruct (add_ranks_elem_lookup c1 df _ Hrow) as [i Hi].
  destruct (add_ranks_elem_lookup c2 df _ Hrow) as [j Hj].
  pose proof (average_rank_bounds _ _ _ Hi) as [L1 U1].
  pose proof (average_rank_bounds _ _ _ Hj) as [L2 U2].
  rewrite length_fmap in U1, U2. rewrite <- E1 in L1, U1. rewrite <- E2 in L2, U2.
  repeat split; try done; lra_half.
Qed.

Lemma X1_witness : (1 <= Combined_Rank scored_AAA <= Q_of_nat 2)%Q.
Proof.
  apply (X1_ranks_between_1_and_K mf_roc mf_earnings_yield dominated_pair
           scored_AAA).
  vm_compute. apply list_elem_of_In. simpl. tauto.
Defined.

(** X2.  The component ranks reverse the order of the values: of two
    included companies the one with the strictly higher value in a column
    has the strictly smaller (better) rank in it, and equal values get
    equal ranks. *)
Theorem X2_higher_value_better_rank {R : Type} (c1 c2 : R → Q) (df : list R)
    (s t : scored R) :
  s ∈ add_ranks c1 c2 df → t ∈ add_ranks c1 c2 df →
  ((c1 (row s) < c1 (row t))%Q → (Rank_1 t < Rank_1 s)%Q)
  ∧ ((c2 (row s) < c2 (row t))%Q → (Rank_2 t < Rank_2 s)%Q)
  ∧ ((c1 (row s) == c1 (row t))%Q → (Rank_1 t == Rank_1 s)%Q)
  ∧ ((c2 (row s) == c2 (row t))%Q → (Rank_2 t == Rank_2 s)%Q).
Proof.
  intros Hs Ht.
  apply add_ranks_elem in Hs as (Hrs & Es1 & Es2 & _).
  apply add_ranks_elem in Ht as (Hrt & Et1 & Et2 & _).
  destruct (add_ranks_elem_lookup c1 df _ Hrs) as [i1 Hi1].
  destruct (add_ranks_elem_lookup c2 df _ Hrs) as [i2 Hi2].
  destruct (add_ranks_elem_lookup c1 df _ Hrt) as [j1 Hj1].
  destruct (add_ranks_elem_lookup c2 df _ Hrt) as [j2 Hj2].
  rewrite Es1, Es2, Et1, Et2. repeat split.
  - intros Hlt. by eapply average_rank_antitone.
  - intros Hlt. by eapply average_rank_antitone.
  - intros E. by rewrite (average_rank_proper _ _ _ E).
  - intros E. by rewrite (average_rank_proper _ _ _ E).
Qed.

Lemma X2_witness : (Rank_1 scored_BBB < Rank_1 scored_AAA)%Q.
Proof.
  apply (X2_higher_value_better_rank mf_roc mf_earnings_yield dominated_pair
           scored_AAA scored_BBB).
  - vm_compute. apply list_elem_of_In. simpl. tauto.
  - vm_compute. apply list_elem_of_In. simpl. tauto.
  - reflexivity.
Defined.

(** X3.  A company that is at least as good as another one on both
    components and strictly better on one has a strictly smaller combined
    rank and comes strictly earlier in the final ranking, whatever the
    sort does with ties. *)
Theorem X3_dominating_symbol_ranks_better `{pandas.SortValues} {R : Type}
    (c1 c2 : R → Q) (df : list R) (a b : ranked R) :
  a ∈ rank_rows c1 c2 df → b ∈ rank_rows c1 c2 df →
  (c1 (row (scored_row b)) <= c1 (row (scored_row a)))%Q →
  (c2 (row (scored_row b)) <= c2 (row (scored_row a)))%Q →
  ((c1 (row (scored_row b)) < c1 (row (scored_row a)))%Q
   ∨ (c2 (row (scored_row b)) < c2 (row (scored_row a)))%Q) →
  (Combined_Rank (scored_row a) < Combined_Rank (scored_row b))%Q
  ∧ Final_Rank a < Final_Rank b.
Proof.
  intros Ha Hb H1 H2 Hstrict.
  destruct (rank_rows_dense_ranking c1 c2 df) as (_ & _ & Hranks & Hord).
  destruct (Hranks a Ha) as (A1 & A2 & Ac). destruct (Hranks b Hb) as (B1 & B2 & Bc).
  pose proof (rank_rows_elem c1 c2 df a Ha) as Hra.
  pose proof (rank_rows_elem c1 c2 df b Hb) as Hrb.
  destruct (add_ranks_elem_lookup c1 df _ Hra) as [i1 Hi1].
  destruct (add_ranks_elem_lookup c2 df _ Hra) as [i2 Hi2].
  destruct (add_ranks_elem_lookup c1 df _ Hrb) as [j1 Hj1].
  destruct (add_ranks_elem_lookup c2 df _ Hrb) as [j2 Hj2].
  pose proof (average_rank_monotone _ _ _ _ _ Hj1 Hi1 H1) as M1.
  pose proof (average_rank_monotone _ _ _ _ _ Hj2 Hi2 H2) as M2.
  assert (Combined_Rank (scored_row a) < Combined_Rank (scored_row b))%Q as Hlt.
  { rewrite Ac, Bc, A1, A2, B1, B2. destruct Hstrict as [S|S].
    - pose proof (average_rank_antitone _ _ _ _ _ Hj1 Hi1 S). lra_half.
    - pose proof (average_rank_antitone _ _ _ _ _ Hj2 Hi2 S). lra_half. }
  split; [done|]. by apply (Hord a b Ha Hb).
Qed.

Lemma X3_witness :
  Final_Rank {| scored_row := scored_BBB; Final_Rank := 1 |}
  < Final_Rank {| scored_row := scored_AAA; Final_Rank := 2 |}.
Proof.
  apply (@X3_dominating_symbol_ranks_better merge_sort_values magic_row
           mf_roc mf_earnings_yield dominated_pair).
  - vm_compute. apply list_elem_of_In. simpl. tauto.
  - vm_compute. apply list_elem_of_In. simpl. tauto.
  - vm_compute. discriminate.
  - vm_compute. discriminate.
  - left. reflexivity.
Defined.

Lemma sum_Q_average values :
  (sum_Q (average_rank values <$> values)
   == Q_of_nat (length values) * (Q_of_nat (length values) + 1) / 2)%Q.
Proof.
  rewrite <- (sum_Q_Forall2 _ _ (rank_Forall2_average values)).
  apply sum_Q_rank.
Qed.

Lemma sum_Q_fmap_half {A} (f g : A → Q) (l : list A) :
  (sum_Q ((λ x, (f x + g x) / 2) <$> l)
   == (sum_Q (f <$> l) + sum_Q (g <$> l)) / 2)%Q.
Proof.
  induction l as [|x l IH]; [reflexivity|].
  rewrite !fmap_cons. simpl sum_Q. rewrite IH. lra_half.
Qed.

(** X4.  The ranks of a column add up to K (K + 1) / 2, ties or not, and
    so do the combined ranks: averaging the tied positions loses no
    position. *)
Theorem X4_combined_ranks_add_up {R : Type} (c1 c2 : R → Q) (df : list R) :
  (sum_Q (Rank_1 <$> add_ranks c1 c2 df)
   == Q_of_nat (length df) * (Q_of_nat (length df) + 1) / 2)%Q
  ∧ (sum_Q (Rank_2 <$> add_ranks c1 c2 df)
     == Q_of_nat (length df) * (Q_of_nat (length df) + 1) / 2)%Q
  ∧ (sum_Q (Combined_Rank <$> add_ranks c1 c2 df)
     == Q_of_nat (length df) * (Q_of_nat (length df) + 1) / 2)%Q.
Proof.
  assert (∀ (proj : scored R → Q) (f : R → Q),
            (∀ s, s ∈ add_ranks c1 c2 df → (proj s == f (row s))%Q) →
            (sum_Q (proj <$> add_ranks c1 c2 df) == sum_Q (f <$> df))%Q) as Hsum.
  { intros proj f Hpf. apply sum_Q_Forall2.
    rewrite <- (row_add_ranks c1 c2 df) at 2. rewrite <- list_fmap_compose.
    apply Forall2_fmap, Forall_Forall2_diag, Forall_forall. exact Hpf. }
  assert (∀ c : R → Q,
            (sum_Q ((λ x, average_rank (c <$> df) (c x)) <$> df)
             == Q_of_nat (length df) * (Q_of_nat (length df) + 1) / 2)%Q) as Hcol.
  { intros c. pose proof (sum_Q_average (c <$> df)) as Hc.
    rewrite <- list_fmap_compose, length_fmap in Hc. exact Hc. }
  split; [|split].
  - rewrite (Hsum Rank_1 (λ x, average_rank (c1 <$> df) (c1 x))); [apply Hcol|].
    intros s Hs. by apply add_ranks_elem in Hs as (_ & E & _).
  - rewrite (Hsum Rank_2 (λ x, average_rank (c2 <$> df) (c2 x))); [apply Hcol|].
    intros s Hs. by apply add_ranks_elem in Hs as (_ & _ & E & _).
  - rewrite (Hsum Combined_Rank
               (λ x, (average_rank (c1 <$> df) (c1 x)
                      + average_rank (c2 <$> df) (c2 x)) / 2)%Q).
    + rewrite sum_Q_fmap_half, !Hcol. lra_half.
    + intros s Hs. apply add_ranks_elem in Hs as (_ & E1 & E2 & ->).
      by rewrite E1, E2.
Qed.

(** ** The factor scripts *)

Lemma FatoresV2_calculate_score_fst t stock_info :
  (FatoresV2.calculate_score t stock_info).1
  = (λ score, {| FatoresV2.ticker := t; FatoresV2.score := score |})
      <$> (Fatores.calculate_score t stock_info).1.
Proof.
  unfold FatoresV2.calculate_score, FatoresV2.calculate_score_try,
    Fatores.calculate_score, Fatores.calculate_score_try.
  by destruct stock_info as [[[pe|] [roe|] [dte|] [dy|]]|e].
Qed.

(** X5.  The two factor scripts score alike: for every answer of the
    provider the v2 score is the score of the first script with the
    ticker attached.  The score is [None] exactly when the provider
    raised or one of the four metrics is absent.  The first script prints
    a line only for a provider error; v2 logs that error, or a
    missing-metrics warning when a metric is absent. *)
Theorem X5_factor_scripts_agree (t : string) (stock_info : py Fatores.info) :
  (FatoresV2.calculate_score t stock_info).1
  = (λ score, {| FatoresV2.ticker := t; FatoresV2.score := score |})
      <$> (Fatores.calculate_score t stock_info).1
  ∧ ((Fatores.calculate_score t stock_info).1 = None ↔
     (∃ e, stock_info = Raise e)
     ∨ (∃ i, stock_info = Return i
             ∧ (Fatores.trailingPE i = None ∨ Fatores.returnOnEquity i = None
                ∨ Fatores.debtToEquity i = None
                ∨ Fatores.dividendYield i = None)))
  ∧ (∀ line, line ∈ (Fatores.calculate_score t stock_info).2 ↔
             ∃ e, stock_info = Raise e ∧ line = ProcessingError t e)
  ∧ (∀ line, line ∈ (FatoresV2.calculate_score t stock_info).2 ↔
             (∃ e, stock_info = Raise e ∧ line = ProcessingError t e)
             ∨ (∃ i, stock_info = Return i
                     ∧ (Fatores.calculate_score t stock_info).1 = None
                     ∧ line = MissingMetrics t)).
Proof.
  unfold FatoresV2.calculate_score, FatoresV2.calculate_score_try,
    Fatores.calculate_score, Fatores.calculate_score_try.
  destruct stock_info as [[[pe|] [roe|] [dte|] [dy|]]|e]; simpl;
    (split; [reflexivity|]);
    (split; [naive_solver|]);
    (split; intros line; rewrite ?elem_of_nil, ?list_elem_of_singleton;
       naive_solver).
Qed.

Lemma X5_witness :
  (Fatores.calculate_score "BBB" (factor_info "BBB")).1 = None.
Proof.
  apply (proj2 (proj1 (proj2 (X5_factor_scripts_agree "BBB" (factor_info "BBB"))))).
  right. eexists. split; [reflexivity|]. left. reflexivity.
Defined.

Lemma FatoresV2_one_outcome t stock_info :
  length (option_list (FatoresV2.calculate_score t stock_info).1)
  + length (FatoresV2.calculate_score t stock_info).2 = 1.
Proof.
  unfold FatoresV2.calculate_score, FatoresV2.calculate_score_try.
  by destruct stock_info as [[[pe|] [roe|] [dte|] [dy|]]|e].
Qed.

Lemma Fatores_one_outcome t stock_info :
  length (option_list (Fatores.calculate_score t stock_info).1)
  + length (Fatores.calculate_score t stock_info).2 ≤ 1.
Proof.
  unfold Fatores.calculate_score, Fatores.calculate_score_try.
  destruct stock_info as [[[pe|] [roe|] [dte|] [dy|]]|e]; simpl; lia.
Qed.

(** X6.  The v2 factor script accounts for every company: each one
    either contributes a score or logs exactly one line, so the scores
    and the logged lines together are as many as the companies; in the
    first script they may be fewer.  In both scripts the scored tickers
    are the companies with a score, in the order of the universe. *)
Theorem X6_factor_v2_accounts_for_every_company
    (yf : string → py Fatores.info) (companies : list string) :
  length (FatoresV2.scores_of yf companies)
  + length (FatoresV2.logged yf companies) = length companies
  ∧ length (Fatores.scores_of yf companies)
    + length (Fatores.printed yf companies) ≤ length companies
  ∧ FatoresV2.ticker <$> FatoresV2.scores_of yf companies
    = filter (λ t, is_Some (Fatores.calculate_score t (yf t)).1) companies
  ∧ (Fatores.scores_of yf companies).*1
    = filter (λ t, is_Some (Fatores.calculate_score t (yf t)).1) companies.
Proof.
  unfold FatoresV2.scores_of, FatoresV2.logged, Fatores.scores_of,
    Fatores.printed.
  induction companies as [|t companies (IH1 & IH2 & IH3 & IH4)]; [done|].
  pose proof (FatoresV2_one_outcome t (yf t)) as H1.
  pose proof (Fatores_one_outcome t (yf t)) as H2.
  pose proof (FatoresV2_calculate_score_fst t (yf t)) as E.
  cbn [omap list_omap mbind list_bind]. rewrite !length_app.
  destruct (Fatores.calculate_score t (yf t)) as [[s|] l1] eqn:E1;
    destruct (FatoresV2.calculate_score t (yf t)) as [[s2|] l2] eqn:E2;
    simpl in *; try discriminate.
  - rewrite filter_cons_True by (simpl; rewrite E1; by eexists). injection E as ->. simpl.
    repeat split; try lia; by f_equal.
  - rewrite filter_cons_False by (simpl; rewrite E1; by intros [??]).
    repeat split; try lia; done.
Qed.

(** ** A frame sorted by one key, with its rank column *)

Section descending_rank.
Context `{pandas.SortValues} {A : Type} (by_ : A → Q) (l : list A).

Lemma descending_rank_lookup i k x :
  imap (λ index r, (index + 1, r)) (pandas.sort_values by_ false l) !! i
  = Some (k, x) ↔
  k = i + 1 ∧ pandas.sort_values by_ false l !! i = Some x.
Proof.
  rewrite list_lookup_imap.
  destruct (pandas.sort_values by_ false l !! i); simpl; naive_solver.
Qed.

Lemma descending_rank_fst :
  fst <$> imap (λ index r, (index + 1, r)) (pandas.sort_values by_ false l)
  = seq 1 (length l).
Proof.
  rewrite <- (Permutation_length (pandas.sort_values_Permutation by_ false l)).
  apply list_eq. intros i. rewrite list_lookup_fmap, list_lookup_imap.
  destruct (pandas.sort_values by_ false l !! i) as [x|] eqn:Hx; simpl.
  - rewrite lookup_seq_lt by (by eapply lookup_lt_Some). f_equal. lia.
  - rewrite lookup_seq_ge; [done|]. by apply lookup_ge_None.
Qed.

Lemma descending_rank_order a b :
  a ∈ imap (λ index r, (index + 1, r)) (pandas.sort_values by_ false l) →
  b ∈ imap (λ index r, (index + 1, r)) (pandas.sort_values by_ false l) →
  (a.1 ≤ b.1 → (by_ b.2 <= by_ a.2)%Q)
  ∧ ((by_ a.2 < by_ b.2)%Q → b.1 < a.1).
Proof.
  destruct a as [ka xa], b as [kb xb].
  intros [i [-> Hi]%descending_rank_lookup]%list_elem_of_lookup_1
         [j [-> Hj]%descending_rank_lookup]%list_elem_of_lookup_1.
  assert (∀ i j x y, pandas.sort_values by_ false l !! i = Some x →
                     pandas.sort_values by_ false l !! j = Some y →
                     i ≤ j → (by_ y <= by_ x)%Q) as Hsorted.
  { clear. intros i j x y Hx Hy Hij. destruct (decide (i = j)) as [->|Hne].
    { rewrite Hx in Hy. injection Hy as ->. apply Qle_refl. }
    apply (StronglySorted_lookup_lt (pandas.in_order by_ false)
             (pandas.sort_values by_ false l) i j x y); [|done|done|lia].
    apply Sorted_StronglySorted; [apply _|]. apply pandas.sort_values_Sorted. }
  simpl. split.
  - intros Hle. eapply Hsorted; eauto. lia.
  - intros Hlt. destruct (decide (j + 1 < i + 1)) as [|Hge]; [done|].
    pose proof (Hsorted i j xa xb Hi Hj ltac:(lia)). lra.
Qed.

End descending_rank.

(** X7.  The frame of the factor scripts: its [Rank] column is 1..K,
    its rows are a permutation of the scores, the scores never increase
    along the ranks, and a strictly higher score has a strictly smaller
    rank. *)
Theorem X7_factor_ranking_descending_in_score `{pandas.SortValues} :
  (∀ scores : list FatoresV2.StockScore,
     let df := FatoresV2.scores_df scores in
     fst <$> df = seq 1 (length scores)
     ∧ snd <$> df ≡ₚ scores
     ∧ ∀ a b, a ∈ df → b ∈ df →
         (a.1 ≤ b.1 → (FatoresV2.score b.2 <= FatoresV2.score a.2)%Q)
         ∧ ((FatoresV2.score a.2 < FatoresV2.score b.2)%Q → b.1 < a.1))
  ∧ (∀ scores : list (string * Q),
       let df := Fatores.scores_df scores in
       fst <$> df = seq 1 (length scores)
       ∧ snd <$> df ≡ₚ scores
       ∧ ∀ a b, a ∈ df → b ∈ df →
           (a.1 ≤ b.1 → (b.2.2 <= a.2.2)%Q)
           ∧ ((a.2.2 < b.2.2)%Q → b.1 < a.1)).
Proof.
  split; intros scores df; subst df.
  - split; [apply descending_rank_fst|]. split.
    + unfold FatoresV2.scores_df.
      by rewrite snd_imap_rank, pandas.sort_values_Permutation.
    + apply (descending_rank_order FatoresV2.score).
  - split; [apply descending_rank_fst|]. split.
    + unfold Fatores.scores_df.
      by rewrite snd_imap_rank, pandas.sort_values_Permutation.
    + apply (descending_rank_order snd).
Qed.

Lemma X7_witness :
  fst <$> @FatoresV2.scores_df merge_sort_values
            [{| FatoresV2.ticker := "AAA"; FatoresV2.score := 1 |};
             {| FatoresV2.ticker := "BBB"; FatoresV2.score := 2 |}]
  = [1; 2].
Proof.
  exact (proj1 (proj1 (@X7_factor_ranking_descending_in_score merge_sort_values)
                  [{| FatoresV2.ticker := "AAA"; FatoresV2.score := 1 |};
                   {| FatoresV2.ticker := "BBB"; FatoresV2.score := 2 |}])).
Defined.

(** ** The table of the first ten *)

Lemma head_10_ranks {A} (rank_of : A → nat) (K : nat) (df : list A) :
  rank_of <$> df = seq 1 K →
  rank_of <$> pandas.head 10 df = seq 1 (K `min` 10)
  ∧ length (pandas.head 10 df) = K `min` 10
  ∧ ∀ x, x ∈ pandas.head 10 df ↔ x ∈ df ∧ rank_of x ≤ 10.
Proof.
  intros Hranks. unfold pandas.head.
  assert (length df = K) as Hlen.
  { rewrite <- (length_fmap rank_of), Hranks. apply length_seq. }
  split; [|split].
  - rewrite fmap_take, Hranks, take_seq. f_equal. lia.
  - rewrite length_take. lia.
  - intros x. rewrite elem_of_take. split.
    + intros (i & Hi & Hlt). split; [by eapply list_elem_of_lookup_2|].
      assert ((rank_of <$> df) !! i = Some (rank_of x)) as Hr
        by (by rewrite list_lookup_fmap, Hi).
      rewrite Hranks in Hr. apply lookup_seq in Hr as [-> _]. lia.
    + intros [[i Hi]%list_elem_of_lookup_1 Hle]. exists i. split; [done|].
      assert ((rank_of <$> df) !! i = Some (rank_of x)) as Hr
        by (by rewrite list_lookup_fmap, Hi).
      rewrite Hranks in Hr. apply lookup_seq in Hr as [E _]. lia.
Qed.

(** X8.  With at least one score, [run_analysis] of the v2 factor
    script returns the table it logs after the lines of the companies:
    the min(K, 10) rows of rank 1..min(K, 10), each the rank and the
    ticker of a row of the sorted frame, every ticker being one of the
    universe. *)
Theorem X8_factor_table_of_the_first_ten `{pandas.SortValues}
    (yf : string → py Fatores.info) (companies : list string) :
  let scores := FatoresV2.scores_of yf companies in
  1 ≤ length scores →
  ∃ top_10,
    FatoresV2.run_analysis yf companies
    = (Some top_10, FatoresV2.logged yf companies ++ [TopTable top_10])
    ∧ length top_10 = length scores `min` 10
    ∧ table_ranks top_10 = seq 1 (length scores `min` 10)
    ∧ (∀ r, r ∈ top_10 ↔
            ∃ a, a ∈ FatoresV2.scores_df scores ∧ a.1 ≤ 10
                 ∧ r = (a.1, FatoresV2.ticker a.2, []))
    ∧ table_tickers top_10 ⊆ companies.
Proof.
  intros scores Hpos. unfold FatoresV2.run_analysis. fold scores.
  assert (companies ≠ []) as Hne.
  { intros ->. unfold scores in Hpos. simpl in Hpos. lia. }
  rewrite bool_decide_eq_false_2 by (by destruct companies).
  rewrite bool_decide_eq_false_2 by lia.
  unfold FatoresV2._prepare_results. eexists. split; [reflexivity|].
  set (table := (λ r : nat * FatoresV2.StockScore,
                   (r.1, FatoresV2.ticker r.2, [] : list Q))
                <$> FatoresV2.scores_df scores).
  destruct (head_10_ranks (λ r : table_row, r.1.1) (length scores) table)
    as (Hranks & Hlen & Helem).
  { unfold table. rewrite <- list_fmap_compose.
    apply (descending_rank_fst FatoresV2.score scores). }
  split; [done|]. split; [done|]. split.
  - intros r. rewrite Helem. unfold table. rewrite list_elem_of_fmap. split.
    + intros [(a & -> & Ha) Hle]. by exists a.
    + intros (a & Ha & Hle & ->). split; [by exists a|done].
  - intros t (r & -> & Hr)%list_elem_of_fmap.
    apply Helem in Hr as [(a & -> & Ha)%list_elem_of_fmap _]. simpl.
    apply (list_elem_of_fmap_2 snd) in Ha. unfold FatoresV2.scores_df in Ha.
    rewrite snd_imap_rank, pandas.sort_values_Permutation in Ha.
    unfold scores, FatoresV2.scores_of in Ha.
    apply list_elem_of_omap in Ha as (t0 & Ht0 & Hs).
    destruct (FatoresV2.calculate_score t0 (yf t0)) as [o log] eqn:E.
    simpl in Hs. subst o. apply FatoresV2_ticker in E. by subst.
Qed.

Lemma X8_witness :
  ∃ top_10,
    @FatoresV2.run_analysis merge_sort_values factor_info ["AAA"; "BBB"]
    = (Some top_10,
       FatoresV2.logged factor_info ["AAA"; "BBB"] ++ [TopTable top_10])
    ∧ table_ranks top_10 = [1].
Proof.
  destruct (@X8_factor_table_of_the_first_ten merge_sort_values factor_info
              ["AAA"; "BBB"]) as (top_10 & Hrun & _ & Hranks & _).
  - vm_compute. lia.
  - exists top_10. split; [exact Hrun|exact Hranks].
Defined.

(** ** Rankings without ties *)

Lemma sort_values_fmap_unique (S1 S2 : pandas.SortValues) {A B : Type}
    (f : A → B) (by_A : A → Q) (by_B : B → Q) (ascending : bool) (l : list A) :
  (∀ x, by_B (f x) = by_A x) →
  (∀ x y, x ∈ l → y ∈ l → (by_A x == by_A y)%Q → x = y) →
  f <$> @pandas.sort_values S1 A by_A ascending l
  = @pandas.sort_values S2 B by_B ascending (f <$> l).
Proof.
  intros Hby Hinj.
  apply (Sorted_unique_strong (pandas.in_order by_B ascending)).
  - intros x1 x2 (a & -> & Ha)%list_elem_of_fmap Hx2 R1 R2.
    rewrite (@pandas.sort_values_Permutation S1) in Ha.
    rewrite (@pandas.sort_values_Permutation S2) in Hx2.
    apply list_elem_of_fmap in Hx2 as (b & -> & Hb).
    f_equal. apply Hinj; [done|done|].
    unfold pandas.in_order in R1, R2. rewrite !Hby in R1, R2.
    destruct ascending; lra.
  - apply (Sorted_fmap f (pandas.in_order by_A ascending)).
    + intros x y. unfold pandas.in_order. by rewrite !Hby.
    + apply (@pandas.sort_values_Sorted S1).
  - apply (@pandas.sort_values_Sorted S2).
  - by rewrite (@pandas.sort_values_Permutation S1),
      (@pandas.sort_values_Permutation S2).
Qed.

Lemma sort_values_unique (S1 S2 : pandas.SortValues) {A : Type}
    (by_ : A → Q) (ascending : bool) (l : list A) :
  (∀ x y, x ∈ l → y ∈ l → (by_ x == by_ y)%Q → x = y) →
  @pandas.sort_values S1 A by_ ascending l
  = @pandas.sort_values S2 A by_ ascending l.
Proof.
  intros Hinj.
  pose proof (sort_values_fmap_unique S1 S2 id by_ by_ ascending l
                (λ _, eq_refl) Hinj) as E.
  by rewrite !list_fmap_id in E.
Qed.

(** X9.  When no two different rows have equal combined rank, the
    final ranking does not depend on the sort: any two sorts that meet
    the contract of [sort_values] give the same frame. *)
Theorem X9_ranking_determined_without_ties (S1 S2 : pandas.SortValues)
    {R : Type} (c1 c2 : R → Q) (df : list R) :
  (∀ s t, s ∈ add_ranks c1 c2 df → t ∈ add_ranks c1 c2 df →
          (Combined_Rank s == Combined_Rank t)%Q → s = t) →
  @rank_rows S1 R c1 c2 df = @rank_rows S2 R c1 c2 df.
Proof.
  intros Hinj. unfold rank_rows. f_equal. by apply sort_values_unique.
Qed.

Lemma X9_witness :
  @rank_rows merge_sort_values _ mf_roc mf_earnings_yield dominated_pair
  = @rank_rows merge_sort_reverse_values _ mf_roc mf_earnings_yield
      dominated_pair.
Proof.
  apply X9_ranking_determined_without_ties.
  intros s t Hs Ht. vm_compute in Hs, Ht.
  apply list_elem_of_In in Hs, Ht. simpl in Hs, Ht.
  destruct Hs as [<-|[<-|[]]], Ht as [<-|[<-|[]]]; try reflexivity;
    vm_compute; discriminate.
Defined.

Lemma FatoresV2_scores_of yf companies :
  FatoresV2.scores_of yf companies
  = (λ r, {| FatoresV2.ticker := r.1; FatoresV2.score := r.2 |})
      <$> Fatores.scores_of yf companies.
Proof.
  unfold FatoresV2.scores_of, Fatores.scores_of.
  induction companies as [|t companies IH]; [done|].
  cbn [omap list_omap]. rewrite FatoresV2_calculate_score_fst.
  destruct (Fatores.calculate_score t (yf t)).1; simpl; by rewrite IH.
Qed.

(** X10.  When no two different scores are equal, the first factor
    script and v2 return the same table, whichever sorts they run
    with. *)
Theorem X10_factor_tables_agree_without_ties (S1 S2 : pandas.SortValues)
    (yf : string → py Fatores.info) (companies : list string) :
  (∀ a b, a ∈ Fatores.scores_of yf companies →
          b ∈ Fatores.scores_of yf companies → (a.2 == b.2)%Q → a = b) →
  (@Fatores.main S1 yf companies).1 = (@FatoresV2.run_analysis S2 yf companies).1.
Proof.
  intros Hinj. unfold Fatores.main, FatoresV2.run_analysis.
  pose proof (FatoresV2_scores_of yf companies) as Hscores.
  destruct (decide (companies = [])) as [->|Hne]; [done|].
  rewrite (bool_decide_eq_false_2 (length companies = 0))
    by (by destruct companies).
  destruct (decide (length (Fatores.scores_of yf companies) = 0)) as [E|E].
  - rewrite bool_decide_eq_false_2 by lia.
    rewrite bool_decide_eq_true_2; [done|]. by rewrite Hscores, length_fmap.
  - rewrite bool_decide_eq_true_2 by lia.
    rewrite bool_decide_eq_false_2 by (by rewrite Hscores, length_fmap).
    unfold FatoresV2._prepare_results. cbn [fst]. do 2 f_equal.
    unfold Fatores.scores_df, FatoresV2.scores_df. rewrite Hscores.
    rewrite <- (sort_values_fmap_unique S1 S2 _ snd FatoresV2.score false)
      by done.
    rewrite imap_fmap, !fmap_imap. by apply imap_ext.
Qed.

Lemma X10_witness :
  (@Fatores.main merge_sort_values cheaper_AAA ["BBB"; "AAA"]).1
  = (@FatoresV2.run_analysis merge_sort_reverse_values cheaper_AAA
       ["BBB"; "AAA"]).1.
Proof.
  apply X10_factor_tables_agree_without_ties.
  intros a b Ha Hb. vm_compute in Ha, Hb.
  apply list_elem_of_In in Ha, Hb. simpl in Ha, Hb.
  destruct Ha as [<-|[<-|[]]], Hb as [<-|[<-|[]]]; try reflexivity;
    vm_compute; discriminate.
Defined.

(** ** The first scripts and their refactored forms *)

Lemma same_magic_outcome_one t stock :
  same_magic_outcome (MagicFormula.calculate_magic_formula t stock)
                     (MagicFormulaV2.analyze_stock t stock).1.
Proof.
  unfold MagicFormula.calculate_magic_formula,
    MagicFormula.calculate_magic_formula_try, MagicFormulaV2.analyze_stock,
    MagicFormulaV2.get_financial_data, MagicFormulaV2.calculate_metrics.
  destruct stock as [[ie be ebit ta ca cl mc td tc]|e]; simpl; [|done].
  destruct (ie || be); simpl; [done|].
  destruct ebit, ta, ca, cl, mc, td, tc; simpl; try done.
  destruct (_ || _); simpl; [done|].
  unfold truediv. repeat (destruct (Qeq_bool _ _); simpl; try done).
Qed.

Lemma same_magic_outcome_DataFrame rs1 rs2 :
  Forall2 same_magic_outcome rs1 rs2 →
  MagicFormula.DataFrame (MagicFormula.included rs1)
  = MagicFormulaV2.DataFrame
      (filter (λ r, MagicFormulaV2.is_Incluida r = true) rs2)
  ∧ length (MagicFormula.included rs1)
    = length (filter (λ r, MagicFormulaV2.is_Incluida r = true) rs2)
  ∧ length (MagicFormula.excluded rs1)
    = length (filter (λ r, MagicFormulaV2.is_Excluida r = true) rs2).
Proof.
  unfold MagicFormula.included, MagicFormula.excluded,
    MagicFormula.DataFrame, MagicFormulaV2.DataFrame.
  induction 1 as [|r1 r2 rs1 rs2 Hr _ (IH1 & IH2 & IH3)]; [done|].
  destruct r1 as [t1 roc1 ey1|t1 m1], r2 as [t2 roc2 ey2|t2 m2];
    simpl in Hr; try done.
  - destruct Hr as (-> & -> & ->).
    rewrite !(filter_cons_True (λ r, _ r = true)) by done.
    rewrite !(filter_cons_False (λ r, _ r = true)) by done.
    cbn [omap list_omap length]. by rewrite IH1, IH2, IH3.
  - subst. rewrite !(filter_cons_False (λ r, _ r = true)) by done.
    rewrite !(filter_cons_True (λ r, _ r = true)) by done.
    cbn [omap list_omap length]. by rewrite IH1, IH2, IH3.
Qed.

Lemma same_magic_outcome_all yf companies :
  Forall2 same_magic_outcome (MagicFormula.all_results yf companies)
                             (MagicFormulaV2.results_of yf companies).
Proof.
  unfold MagicFormula.all_results, MagicFormulaV2.results_of.
  apply Forall2_fmap, Forall_Forall2_diag, Forall_forall.
  intros t _. apply same_magic_outcome_one.
Qed.

(** X11.  The two Magic Formula scripts agree on every universe and
    every provider: company by company both include it with the same two
    ratios or both exclude it, the numbers of included and of excluded
    companies are equal, v2 ranks the frame the first script ranks, and
    both return the same table (or both [None]). *)
Theorem X11_magic_formula_scripts_agree `{pandas.SortValues}
    (yf : string → py statements) (companies : list string) :
  let all_results := MagicFormula.all_results yf companies in
  let results := MagicFormulaV2.results_of yf companies in
  Forall2 same_magic_outcome all_results results
  ∧ length (MagicFormula.included all_results)
    = length (filter (λ r, MagicFormulaV2.is_Incluida r = true) results)
  ∧ length (MagicFormula.excluded all_results)
    = length (filter (λ r, MagicFormulaV2.is_Excluida r = true) results)
  ∧ (MagicFormulaV2.prepare_rankings results).1
    = (if bool_decide (0 < length (MagicFormula.included all_results))
       then Some (MagicFormula.scores_df (MagicFormula.included all_results))
       else None)
  ∧ (MagicFormula.main yf companies).1
    = (MagicFormulaV2.run_analysis yf companies).1.
Proof.
  intros all_results results.
  pose proof (same_magic_outcome_all yf companies) as Hall.
  destruct (same_magic_outcome_DataFrame _ _ Hall) as (Hdf & Hin & Hex).
  fold all_results in Hdf, Hin, Hex. fold results in Hdf, Hin, Hex.
  assert ((MagicFormulaV2.prepare_rankings results).1
          = (if bool_decide (0 < length (MagicFormula.included all_results))
             then Some (MagicFormula.scores_df
                          (MagicFormula.included all_results))
             else None)) as Hprep.
  { unfold MagicFormulaV2.prepare_rankings, MagicFormula.scores_df.
    rewrite Hdf, Hin.
    destruct (decide (length (filter (λ r, MagicFormulaV2.is_Incluida r = true)
                                results) = 0)) as [E|E].
    - rewrite bool_decide_eq_true_2 by done.
      by rewrite bool_decide_eq_false_2 by lia.
    - rewrite bool_decide_eq_false_2 by done.
      by rewrite bool_decide_eq_true_2 by lia. }
  split; [done|]. split; [done|]. split; [done|]. split; [done|].
  unfold MagicFormula.main, MagicFormulaV2.run_analysis.
  fold all_results. fold results.
  destruct (decide (companies = [])) as [->|Hne]; [done|].
  rewrite (bool_decide_eq_false_2 (length companies = 0))
    by (by destruct companies).
  destruct (MagicFormulaV2.prepare_rankings results) as [df w].
  simpl in Hprep. subst df.
  by destruct (bool_decide (0 < length (MagicFormula.included all_results))).
Qed.

Lemma DividendosV2_logged yf_info yf_history companies :
  DividendosV2.logged yf_info yf_history companies
  = (λ t, ProcessingError t
            match yf_info t with
            | Return _ => "name 'StockInfo' is not defined"
            | Raise e => e
            end) <$> companies.
Proof.
  unfold DividendosV2.logged.
  induction companies as [|t companies IH]; [done|].
  by rewrite bind_cons, IH, DividendosV2_analyze_stock.
Qed.

(** X12.  The refactored dividend script includes no company.  Whatever
    the provider answers, [get_stock_info] returns [None] and logs one
    error: the provider's own, or the [NameError] of the name
    [StockInfo], which the script calls and never defines.
    [analyze_stock] then excludes the company for unavailable basic
    data, whatever its yield, price and dividend history are.  A run
    logs one such error per company of the universe, excludes every
    company and returns no table. *)
Theorem X12_refactored_dividend_script_includes_nothing `{pandas.SortValues}
    (yf_info : string → py dividend_info)
    (yf_history : string → py (list date)) (companies : list string) :
  (∀ t info,
     DividendosV2.get_stock_info t (Return info)
     = (None, [ProcessingError t "name 'StockInfo' is not defined"]))
  ∧ (∀ t e,
       DividendosV2.get_stock_info t (Raise e) = (None, [ProcessingError t e]))
  ∧ (∀ t stock_info stock_history,
       (DividendosV2.analyze_stock t stock_info stock_history).1
       = DividendosV2.Excluida t ["Dados básicos não disponíveis"])
  ∧ DividendosV2.results_of yf_info yf_history companies
    = (λ t, DividendosV2.Excluida t ["Dados básicos não disponíveis"])
        <$> companies
  ∧ length (DividendosV2.logged yf_info yf_history companies)
    = length companies
  ∧ (∀ line, line ∈ DividendosV2.logged yf_info yf_history companies ↔
             ∃ t, t ∈ companies
                  ∧ line = ProcessingError t
                             match yf_info t with
                             | Return _ => "name 'StockInfo' is not defined"
                             | Raise e => e
                             end)
  ∧ (DividendosV2.run_analysis yf_info yf_history companies).1 = None.
Proof.
  split; [done|]. split; [done|].
  split; [intros; by rewrite DividendosV2_analyze_stock|].
  split; [apply DividendosV2_results_of|].
  rewrite DividendosV2_logged.
  split; [by rewrite length_fmap|].
  split.
  { intros line. rewrite list_elem_of_fmap. naive_solver. }
  unfold DividendosV2.run_analysis. case_bool_decide; [done|].
  unfold DividendosV2.prepare_rankings.
  by rewrite (proj1 (DividendosV2_all_excluded yf_info yf_history companies)).
Qed.

Lemma X12_witness :
  ProcessingError "BBB" "name 'StockInfo' is not defined"
  ∈ DividendosV2.logged yielding_3_percent paid_in_2020 ["AAA"; "BBB"].
Proof.
  apply (proj1 (proj2 (proj2 (proj2 (proj2 (proj2
           (@X12_refactored_dividend_script_includes_nothing
              merge_sort_values yielding_3_percent paid_in_2020
              ["AAA"; "BBB"]))))))).
  exists "BBB". split; [|reflexivity].
  apply list_elem_of_In. simpl. tauto.
Defined.

Lemma ranked_head_10 `{pandas.SortValues} {R : Type} (c1 c2 : R → Q)
    (df : list R) (f : ranked R → table_row) :
  (∀ a, (f a).1.1 = Final_Rank a) →
  length (pandas.head 10 (f <$> rank_rows c1 c2 df)) = length df `min` 10
  ∧ table_ranks (pandas.head 10 (f <$> rank_rows c1 c2 df))
    = seq 1 (length df `min` 10)
  ∧ ∀ r, r ∈ pandas.head 10 (f <$> rank_rows c1 c2 df) ↔
         ∃ a, a ∈ rank_rows c1 c2 df ∧ Final_Rank a ≤ 10 ∧ r = f a.
Proof.
  intros Hf.
  destruct (head_10_ranks (λ r : table_row, r.1.1) (length df)
              (f <$> rank_rows c1 c2 df)) as (Hranks & Hlen & Helem).
  { rewrite <- list_fmap_compose, <- (rank_rows_Final_Rank c1 c2 df).
    apply list_fmap_ext. intros ? a _. apply Hf. }
  split; [done|]. split; [done|].
  intros r. rewrite Helem, list_elem_of_fmap. split.
  - intros [(a & -> & Ha) Hle]. exists a. by rewrite <- Hf.
  - intros (a & Ha & Hle & ->). split; [by exists a|]. by rewrite Hf.
Qed.

Lemma length_Dividendos_DataFrame rs :
  length (Dividendos.DataFrame (Dividendos.included rs))
  = length (Dividendos.included rs).
Proof.
  unfold Dividendos.included, Dividendos.DataFrame.
  induction rs as [|[d|t m] rs IH]; [done| |].
  - rewrite filter_cons_True by done. cbn [omap list_omap length].
    by rewrite IH.
  - by rewrite filter_cons_False by done.
Qed.

(** X13.  When the v2 Magic Formula script has a ranking, and when the
    first dividend script has an included company, the run returns the
    table it prints: the min(K, 10) rows of final rank 1..min(K, 10),
    exactly the rows of the ranking whose final rank is at most 10; in
    the dividend script K is the number of included companies. *)
Theorem X13_table_of_the_first_ten `{pandas.SortValues} :
  (∀ (yf : string → py statements) (companies : list string) df,
     (MagicFormulaV2.prepare_rankings (MagicFormulaV2.results_of yf companies)).1
     = Some df →
     ∃ top_10,
       (MagicFormulaV2.run_analysis yf companies).1 = Some top_10
       ∧ TopTable top_10 ∈ (MagicFormulaV2.run_analysis yf companies).2
       ∧ length top_10 = length df `min` 10
       ∧ table_ranks top_10 = seq 1 (length df `min` 10)
       ∧ ∀ r, r ∈ top_10 ↔
              ∃ a, a ∈ df ∧ Final_Rank a ≤ 10 ∧ r = magic_table_row a)
  ∧ (∀ (yf_info : string → py dividend_info)
       (yf_history : string → py (list date)) (companies : list string),
       let included :=
         Dividendos.included
           (Dividendos.all_results yf_info yf_history companies) in
       let df := Dividendos.scores_df included in
       0 < length included →
       ∃ top_10,
         (Dividendos.main yf_info yf_history companies).1 = Some top_10
         ∧ TopTable top_10 ∈ (Dividendos.main yf_info yf_history companies).2
         ∧ length df = length included
         ∧ length top_10 = length included `min` 10
         ∧ table_ranks top_10 = seq 1 (length included `min` 10)
         ∧ ∀ r, r ∈ top_10 ↔
                ∃ a, a ∈ df ∧ Final_Rank a ≤ 10 ∧ r = dividend_table_row a).
Proof.
  split.
  - intros yf companies df. unfold MagicFormulaV2.run_analysis.
    destruct (decide (companies = [])) as [->|Hne]; [done|].
    rewrite (bool_decide_eq_false_2 (length companies = 0))
      by (by destruct companies).
    unfold MagicFormulaV2.prepare_rankings.
    case_bool_decide as Hnone; [done|]. cbn [fst snd]. intros [= <-].
    set (included := MagicFormulaV2.DataFrame _).
    destruct (ranked_head_10 mf_roc mf_earnings_yield included magic_table_row)
      as (Hlen & Hranks & Helem); [done|].
    assert (length (rank_rows mf_roc mf_earnings_yield included)
            = length included) as Hdf.
    { rewrite <- (length_fmap Final_Rank), rank_rows_Final_Rank.
      apply length_seq. }
    eexists. split; [reflexivity|]. rewrite Hdf.
    split; [|split; [done|split; [done|done]]].
    unfold MagicFormulaV2.print_results. rewrite !elem_of_app. right. right.
    left. apply list_elem_of_singleton. done.
  - intros yf_info yf_history companies included df Hpos.
    unfold Dividendos.main. fold included.
    rewrite bool_decide_eq_true_2 by done. cbn [fst snd]. fold df.
    destruct (ranked_head_10 row_dividend_yield years_value
                (Dividendos.DataFrame included) dividend_table_row)
      as (Hlen & Hranks & Helem); [done|].
    assert (length (Dividendos.DataFrame included) = length included) as Hrows
      by apply length_Dividendos_DataFrame.
    assert (length df = length included) as Hdf.
    { unfold df, Dividendos.scores_df.
      rewrite <- (length_fmap Final_Rank), rank_rows_Final_Rank, length_seq.
      exact Hrows. }
    rewrite Hrows in Hlen, Hranks.
    eexists. split; [reflexivity|].
    split; [apply list_elem_of_here|]. done.
Qed.

Lemma X13_witness :
  ∃ top_10,
    (@Dividendos.main merge_sort_values yielding_3_percent paid_in_2020
       ["AAA"; "BBB"]).1 = Some top_10
    ∧ table_ranks top_10 = [1; 2].
Proof.
  edestruct (proj2 (@X13_table_of_the_first_ten merge_sort_values)
               yielding_3_percent paid_in_2020 ["AAA"; "BBB"])
    as (top_10 & Hrun & _ & _ & _ & Hranks & _).
  - vm_compute. lia.
  - exists top_10. split; [exact Hrun|exact Hranks].
Defined.

(** ** What an included company of the Magic Formula scripts has *)

Lemma MagicFormula_Incluida_inv t stock t' roc ey :
  MagicFormula.calculate_magic_formula t stock = MagicFormula.Incluida t' roc ey →
  ∃ s ebit total_assets current_assets current_liabilities market_cap
      total_debt total_cash,
    stock = Return s
    ∧ income_stmt_empty s = false ∧ balance_sheet_empty s = false
    ∧ EBIT s = Some ebit ∧ Total_Assets s = Some total_assets
    ∧ Current_Assets s = Some current_assets
    ∧ Current_Liabilities s = Some current_liabilities
    ∧ marketCap s = Some market_cap ∧ totalDebt s = Some total_debt
    ∧ totalCash s = Some total_cash
    ∧ t' = t
    ∧ roc = (ebit / (current_assets - current_liabilities
                     + (total_assets - current_assets)))%Q
    ∧ ey = (ebit / (market_cap + total_debt - total_cash))%Q
    ∧ ¬ (current_assets - current_liabilities
         + (total_assets - current_assets) == 0)%Q
    ∧ ¬ (market_cap + total_debt - total_cash == 0)%Q.
Proof.
  unfold MagicFormula.calculate_magic_formula,
    MagicFormula.calculate_magic_formula_try.
  destruct stock as [[ie be ebit ta ca cl mc td tc]|e]; simpl; [|done].
  destruct ie, be; simpl; try done.
  destruct ebit as [ebit|], ta as [ta|], ca as [ca|], cl as [cl|],
    mc as [mc|], td as [td|], tc as [tc|]; simpl; try done.
  destruct (Qeq_bool (ca - cl + (ta - ca)) 0) eqn:E1; simpl; [done|].
  destruct (Qeq_bool (mc + td - tc) 0) eqn:E2; simpl; [done|].
  unfold truediv. rewrite E1. simpl. rewrite E2. simpl.
  intros [= <- <- <-].
  apply Qeq_bool_neq in E1, E2.
  eexists _, ebit, ta, ca, cl, mc, td, tc. repeat split; done.
Qed.

(** X14.  A company included by either Magic Formula script has
    non-empty statements and all seven metrics, the provider did not
    raise, and neither divisor is zero.  Its return on capital is EBIT
    over working capital plus net fixed assets, that is over
    (current assets - current liabilities) + (total assets - current
    assets), and its earnings yield is EBIT over the enterprise value,
    market cap + total debt - total cash. *)
Theorem X14_included_magic_formula_company
    (t : string) (stock : py statements) (t' : string) (roc ey : Q) :
  MagicFormula.calculate_magic_formula t stock = MagicFormula.Incluida t' roc ey
  ∨ (MagicFormulaV2.analyze_stock t stock).1 = MagicFormulaV2.Incluida t' roc ey →
  ∃ s ebit total_assets current_assets current_liabilities market_cap
      total_debt total_cash,
    stock = Return s
    ∧ income_stmt_empty s = false ∧ balance_sheet_empty s = false
    ∧ EBIT s = Some ebit ∧ Total_Assets s = Some total_assets
    ∧ Current_Assets s = Some current_assets
    ∧ Current_Liabilities s = Some current_liabilities
    ∧ marketCap s = Some market_cap ∧ totalDebt s = Some total_debt
    ∧ totalCash s = Some total_cash
    ∧ t' = t
    ∧ ¬ (current_assets - current_liabilities
         + (total_assets - current_assets) == 0)%Q
    ∧ ¬ (market_cap + total_debt - total_cash == 0)%Q
    ∧ roc = (ebit / (current_assets - current_liabilities
                     + (total_assets - current_assets)))%Q
    ∧ ey = (ebit / (market_cap + total_debt - total_cash))%Q
    ∧ MagicFormula.calculate_magic_formula t stock
      = MagicFormula.Incluida t roc ey
    ∧ (MagicFormulaV2.analyze_stock t stock).1
      = MagicFormulaV2.Incluida t roc ey.
Proof.
  intros Hin.
  pose proof (same_magic_outcome_one t stock) as Hsame.
  assert (MagicFormula.calculate_magic_formula t stock
          = MagicFormula.Incluida t' roc ey) as Hv1.
  { destruct Hin as [Hv1|Hv2]; [done|].
    rewrite Hv2 in Hsame.
    destruct (MagicFormula.calculate_magic_formula t stock); simpl in Hsame;
      [|done].
    by destruct Hsame as (-> & -> & ->). }
  pose proof Hv1 as Hinv.
  apply MagicFormula_Incluida_inv in Hinv
    as (s & ebit & ta & ca & cl & mc & td & tc & -> & Hie & Hbe & He & Hta
        & Hca & Hcl & Hmc & Htd & Htc & -> & -> & -> & Hd & Hev).
  rewrite Hv1 in Hsame.
  destruct (MagicFormulaV2.analyze_stock t (Return s)).1 as [t2 roc2 ey2|]
    eqn:Hv2; simpl in Hsame; [|done].
  destruct Hsame as (<- & <- & <-).
  exists s, ebit, ta, ca, cl, mc, td, tc. repeat split; done.
Qed.

Lemma X14_witness :
  ∃ s, magic_statements "AAA" = Return s ∧ income_stmt_empty s = false.
Proof.
  edestruct (X14_included_magic_formula_company "AAA" (magic_statements "AAA"))
    as (s & _ & _ & _ & _ & _ & _ & _ & Hs & Hie & _).
  - left. vm_compute. reflexivity.
  - exists s. split; [exact Hs|exact Hie].
Defined.

(** ** Consecutive years: the set of years decides *)

Lemma sorted_set_ext years years' :
  (∀ y, y ∈ years ↔ y ∈ years') → sorted_set years = sorted_set years'.
Proof.
  intros Hext. apply (StronglySorted_unique_strong Z.lt).
  - intros x1 x2 _ _ ??. lia.
  - apply sorted_set_sorted.
  - apply sorted_set_sorted.
  - unfold sorted_set. rewrite !merge_sort_Permutation.
    apply NoDup_Permutation; [apply NoDup_remove_dups..|].
    intros y. rewrite !elem_of_remove_dups. apply Hext.
Qed.

Lemma run_from_le_length prev rest :
  (run_from prev rest ≤ Z.of_nat (length rest))%Z.
Proof.
  revert prev. induction rest as [|y rest IH]; intros prev; simpl; [lia|].
  case_bool_decide; [|lia]. specialize (IH y). lia.
Qed.

Lemma length_sorted_set years : length (sorted_set years) ≤ length years.
Proof.
  unfold sorted_set. rewrite merge_sort_Permutation.
  apply submseteq_length, NoDup_submseteq; [apply NoDup_remove_dups|].
  intros y. by rewrite elem_of_remove_dups.
Qed.

Lemma fmap_year_nil (index index' : list date) :
  (∀ y, y ∈ year <$> index ↔ y ∈ year <$> index') →
  index = [] → index' = [].
Proof.
  intros Hext ->. destruct index' as [|d index']; [done|].
  assert (year d ∈ year <$> @nil date) as Hin
    by (apply Hext; rewrite fmap_cons; apply list_elem_of_here).
  by apply elem_of_nil in Hin.
Qed.

(** X15.  The count of consecutive years depends only on the set of
    years in which a dividend was paid: neither the order of the
    payments, nor their number within a year, nor the month or the day
    matter. *)
Theorem X15_consecutive_years_depend_on_the_set_of_years
    (index index' : list date) :
  (∀ y, y ∈ year <$> index ↔ y ∈ year <$> index') →
  count_consecutive index = count_consecutive index'
  ∧ DividendosV2.calculate_consecutive_years index
    = DividendosV2.calculate_consecutive_years index'.
Proof.
  intros Hext.
  assert (count_consecutive index = count_consecutive index') as Hcount.
  { unfold count_consecutive. by rewrite (sorted_set_ext _ _ Hext). }
  split; [done|]. unfold DividendosV2.calculate_consecutive_years.
  destruct (decide (index = [])) as [E|E].
  - pose proof (fmap_year_nil _ _ Hext E) as E'. by subst.
  - assert (index' ≠ []) as E'.
    { intros E'. apply E. eapply fmap_year_nil; [|exact E'].
      intros y. symmetry. apply Hext. }
    rewrite !bool_decide_eq_false_2; [done| |].
    + by destruct index'.
    + by destruct index.
Qed.

Lemma X15_witness :
  DividendosV2.calculate_consecutive_years
    [{| year := 2020; month := 3; day := 1 |};
     {| year := 2021; month := 3; day := 1 |}]
  = DividendosV2.calculate_consecutive_years
      [{| year := 2021; month := 6; day := 15 |};
       {| year := 2020; month := 1; day := 2 |};
       {| year := 2020; month := 9; day := 30 |}].
Proof.
  apply X15_consecutive_years_depend_on_the_set_of_years.
  intros y. split; intros Hy; apply list_elem_of_In in Hy;
    apply list_elem_of_In; simpl in *; tauto.
Defined.

Lemma count_consecutive_bounds (index : list date) :
  index ≠ [] →
  (1 ≤ count_consecutive index)%Z
  ∧ (count_consecutive index
     ≤ Z.of_nat (length (sorted_set (year <$> index))))%Z
  ∧ length (sorted_set (year <$> index)) ≤ length index.
Proof.
  intros Hne. pose proof (length_sorted_set (year <$> index)) as Hlen.
  rewrite length_fmap in Hlen.
  destruct (count_consecutive_spec index Hne) as (m & rest & Hset & ->).
  rewrite Hset. pose proof (run_from_nonneg m rest).
  pose proof (run_from_le_length m rest). simpl.
  repeat split; try lia. by rewrite Hset in Hlen.
Qed.

(** X16.  The count of consecutive years of v2 is never negative, is
    at most the number of distinct payment years, which is at most the
    number of payments, and is 0 exactly for an empty history. *)
Theorem X16_consecutive_years_bounded (index : list date) :
  let n := DividendosV2.calculate_consecutive_years index in
  (0 ≤ n)%Z
  ∧ (n ≤ Z.of_nat (length (sorted_set (year <$> index))))%Z
  ∧ length (sorted_set (year <$> index)) ≤ length index
  ∧ (n = 0%Z ↔ index = []).
Proof.
  intros n. subst n. unfold DividendosV2.calculate_consecutive_years.
  destruct (decide (index = [])) as [->|Hne].
  - simpl. repeat split; try done; lia.
  - rewrite bool_decide_eq_false_2 by (by destruct index).
    destruct (count_consecutive_bounds index Hne) as (H1 & H2 & H3).
    repeat split; try done; lia.
Qed.

Lemma X16_witness :
  (DividendosV2.calculate_consecutive_years
     [{| year := 2020; month := 3; day := 1 |};
      {| year := 2020; month := 9; day := 1 |}] ≤ 1)%Z.
Proof.
  exact (proj1 (proj2 (X16_consecutive_years_bounded
                         [{| year := 2020; month := 3; day := 1 |};
                          {| year := 2020; month := 9; day := 1 |}]))).
Defined.

(** ** Rounding the yield *)

Lemma Qfloor_bounds (x : Q) :
  (inject_Z (Qfloor x) <= x)%Q ∧ (x < inject_Z (Qfloor x) + 1)%Q.
Proof.
  split; [apply Qfloor_le|].
  pose proof (Qlt_floor x) as Hlt. rewrite inject_Z_plus in Hlt. exact Hlt.
Qed.

Lemma round_half_even_cases (x : Q) :
  (round_half_even x = Qfloor x ∧ (x - inject_Z (Qfloor x) <= 1 # 2)%Q)
  ∨ (round_half_even x = (Qfloor x + 1)%Z
     ∧ (1 # 2 <= x - inject_Z (Qfloor x))%Q).
Proof.
  unfold round_half_even.
  destruct (Qcompare_spec (x - inject_Z (Qfloor x)) (1 # 2)) as [E|E|E].
  - destruct (Z.even (Qfloor x)); [left|right]; split; try done; lra.
  - left. split; [done|lra].
  - right. split; [done|lra].
Qed.

Lemma round_half_even_monotone (x y : Q) :
  (x <= y)%Q → (round_half_even x ≤ round_half_even y)%Z.
Proof.
  intros Hxy. pose proof (Qfloor_resp_le x y Hxy) as Hfl.
  pose proof (Qfloor_bounds x) as [Hxlo Hxhi].
  pose proof (Qfloor_bounds y) as [Hylo Hyhi].
  destruct (decide (Qfloor x = Qfloor y)) as [Heq|Hne].
  - unfold round_half_even. rewrite <- Heq.
    destruct (Qcompare_spec (x - inject_Z (Qfloor x)) (1 # 2)) as [Ex|Ex|Ex];
      destruct (Qcompare_spec (y - inject_Z (Qfloor x)) (1 # 2)) as [Ey|Ey|Ey];
      try (destruct (Z.even (Qfloor x))); try lia; exfalso; lra.
  - assert (Qfloor x + 1 ≤ Qfloor y)%Z by lia.
    destruct (round_half_even_cases x) as [[-> _]|[-> _]];
      destruct (round_half_even_cases y) as [[-> _]|[-> _]]; lia.
Qed.

Lemma round_2_monotone (x y : Q) : (x <= y)%Q → (round x 2 <= round y 2)%Q.
Proof.
  intros Hxy. unfold round. change (inject_Z (10 ^ 2)) with 100%Q.
  assert (x * 100 <= y * 100)%Q as H100 by lra.
  apply round_half_even_monotone in H100.
  assert (inject_Z (round_half_even (x * 100))
          <= inject_Z (round_half_even (y * 100)))%Q as Hle.
  { rewrite <- Zle_Qle. exact H100. }
  unfold Qdiv. change (/ 100)%Q with (1 # 100)%Q. lra.
Qed.

(** The binary64 product never inverts an order. *)

Lemma two_power_pos (z : Z) : (0 < 2 ^ z)%Q.
Proof. by apply Qpower_0_lt. Qed.

Lemma two_power_succ (z : Z) : (2 ^ (z + 1) == 2 * 2 ^ z)%Q.
Proof. rewrite Qpower_plus by done. change (2 ^ 1)%Q with 2%Q. ring. Qed.

Lemma two_power_Z (n : Z) :
  (0 < n)%Z →
  (2 ^ Z.log2 n <= inject_Z n)%Q ∧ (inject_Z n < 2 * 2 ^ Z.log2 n)%Q.
Proof.
  intros Hn. destruct (Z.log2_spec n Hn) as [Hlo Hhi].
  pose proof (Z.log2_nonneg n) as Hk.
  rewrite <- two_power_succ. change 2%Q with (inject_Z 2).
  rewrite <- !Zpower_Qpower by lia. rewrite <- Zle_Qle, <- Zlt_Qlt.
  split; [done|]. by rewrite <- Z.add_1_r in Hhi.
Qed.

Lemma floor_log2_spec (a : Q) :
  (0 < a)%Q →
  (2 ^ floor_log2 a <= a)%Q ∧ (a < 2 ^ (floor_log2 a + 1))%Q.
Proof.
  intros Ha. destruct a as [n d]. unfold floor_log2. cbn [Qnum Qden].
  assert (0 < n)%Z as Hn by (unfold Qlt in Ha; simpl in Ha; lia).
  destruct (two_power_Z n Hn) as [Hn1 Hn2].
  destruct (two_power_Z (Z.pos d) ltac:(done)) as [Hd1 Hd2].
  pose proof (two_power_pos (Z.log2 n)) as Hpn.
  pose proof (two_power_pos (Z.log2 (Z.pos d))) as Hpd.
  set (k := (Z.log2 n - Z.log2 (Z.pos d))%Z).
  assert (2 ^ k == 2 ^ Z.log2 n / 2 ^ Z.log2 (Z.pos d))%Q as Hk
    by (by apply Qpower_minus).
  assert (0 < inject_Z (Z.pos d))%Q as Hdpos by (by rewrite <- (Zlt_Qlt 0)).
  assert (n # d == inject_Z n / inject_Z (Z.pos d))%Q as Hnd
    by apply Qmake_Qdiv.
  set (N := inject_Z n) in *. set (D := inject_Z (Z.pos d)) in *.
  set (PN := (2 ^ Z.log2 n)%Q) in *. set (PD := (2 ^ Z.log2 (Z.pos d))%Q) in *.
  assert (N / D < 2 * (PN / PD))%Q as Hupper.
  { apply Qlt_shift_div_r; [done|].
    assert (2 * (PN / PD) * D == 2 * PN * D / PD)%Q as -> by (field; lra).
    apply Qlt_shift_div_l; [done|]. nra. }
  assert (PN / PD < 2 * (N / D))%Q as Hlower.
  { apply Qlt_shift_div_r; [done|].
    assert (2 * (N / D) * PD == 2 * N * PD / D)%Q as -> by (field; lra).
    apply Qlt_shift_div_l; [done|]. nra. }
  destruct (Qle_bool (2 ^ k) (n # d)) eqn:Htest.
  - apply Qle_bool_iff in Htest. split; [done|].
    rewrite two_power_succ, Hk, Hnd. done.
  - assert (¬ (2 ^ k <= n # d)%Q) as Hnot
      by (rewrite <- Qle_bool_iff; congruence).
    apply Qnot_le_lt in Hnot.
    replace (k - 1 + 1)%Z with k by lia. split; [|done].
    assert (2 ^ k == 2 * 2 ^ (k - 1))%Q as Hk'.
    { rewrite <- two_power_succ. by replace (k - 1 + 1)%Z with k by lia. }
    rewrite Hnd. rewrite Hk in Hk'. lra.
Qed.

Lemma floor_log2_monotone (a b : Q) :
  (0 < a)%Q → (a <= b)%Q → (floor_log2 a ≤ floor_log2 b)%Z.
Proof.
  intros Ha Hab.
  destruct (floor_log2_spec a Ha) as [Ha1 _].
  destruct (floor_log2_spec b ltac:(lra)) as [_ Hb2].
  assert (2 ^ floor_log2 a < 2 ^ (floor_log2 b + 1))%Q as Hlt by lra.
  apply Qpower_lt_compat_l_inv in Hlt; [lia|reflexivity].
Qed.


Lemma round_half_even_inject_Z (z : Z) : round_half_even (inject_Z z) = z.
Proof.
  unfold round_half_even. rewrite Qfloor_Z.
  destruct (Qcompare_spec (inject_Z z - inject_Z z) (1 # 2)) as [E|E|E];
    [exfalso; lra|done|exfalso; lra].
Qed.

(** The significand of a positive number is below [2 ^ 53], and at
    least [2 ^ 52] outside the subnormal range. *)
Lemma significand_bounds (a : Q) :
  (0 < a)%Q →
  (a / 2 ^ ulp_exponent a < inject_Z (2 ^ 53))%Q
  ∧ (ulp_exponent a = (floor_log2 a - 52)%Z →
     (inject_Z (2 ^ 52) <= a / 2 ^ ulp_exponent a)%Q).
Proof.
  intros Ha. destruct (floor_log2_spec a Ha) as [Hlo Hhi].
  pose proof (two_power_pos (ulp_exponent a)) as Hpe.
  pose proof (two_power_pos (floor_log2 a - 52)) as Hpk.
  assert (2 ^ (floor_log2 a - 52) <= 2 ^ ulp_exponent a)%Q as Hle.
  { apply Qpower_le_compat_l; [unfold ulp_exponent; lia|done]. }
  assert (2 ^ (floor_log2 a + 1)
          == inject_Z (2 ^ 53) * 2 ^ (floor_log2 a - 52))%Q as E1.
  { replace (floor_log2 a + 1)%Z with (53 + (floor_log2 a - 52))%Z by lia.
    by rewrite Qpower_plus. }
  assert (2 ^ floor_log2 a
          == inject_Z (2 ^ 52) * 2 ^ (floor_log2 a - 52))%Q as E2.
  { replace (floor_log2 a) with (52 + (floor_log2 a - 52))%Z at 1 by lia.
    by rewrite Qpower_plus. }
  assert (0 < inject_Z (2 ^ 53))%Q as H53 by done.
  assert (0 < inject_Z (2 ^ 52))%Q as H52 by done.
  split.
  - apply Qlt_shift_div_r; [done|]. rewrite E1 in Hhi.
    set (P := inject_Z (2 ^ 53)) in *. nra.
  - intros ->. apply Qle_shift_div_l; [done|]. by rewrite <- E2.
Qed.

(** The rounding of a positive number, as [binary64] computes it. *)
Lemma binary64_positive (a : Q) :
  (0 < a)%Q →
  binary64 a
  = (inject_Z (round_half_even (a / 2 ^ ulp_exponent a))
     * 2 ^ ulp_exponent a)%Q.
Proof.
  destruct a as [[|p|p] d]; intros Ha; try done.
Qed.

Lemma binary64_negative (a : Q) :
  (a < 0)%Q →
  binary64 a
  = (- (inject_Z (round_half_even (- a / 2 ^ ulp_exponent (- a)))
        * 2 ^ ulp_exponent (- a)))%Q.
Proof.
  destruct a as [[|p|p] d]; intros Ha; try done.
Qed.

Lemma binary64_zero (a : Q) : (a == 0)%Q → binary64 a = 0%Q.
Proof.
  destruct a as [[|p|p] d]; intros Ha; try done.
Qed.

Lemma binary64_positive_nonneg (a : Q) : (0 < a)%Q → (0 <= binary64 a)%Q.
Proof.
  intros Ha. rewrite binary64_positive by done.
  pose proof (two_power_pos (ulp_exponent a)) as Hpe.
  assert (0 <= a / 2 ^ ulp_exponent a)%Q as Hq
    by (apply Qle_shift_div_l; [done|lra]).
  apply round_half_even_monotone in Hq.
  change 0%Q with (inject_Z 0) in Hq. rewrite round_half_even_inject_Z in Hq.
  assert (0 <= inject_Z (round_half_even (a / 2 ^ ulp_exponent a)))%Q
    by (by rewrite <- (Zle_Qle 0)).
  nra.
Qed.

Lemma binary64_positive_monotone (a b : Q) :
  (0 < a)%Q → (a <= b)%Q → (binary64 a <= binary64 b)%Q.
Proof.
  intros Ha Hab. assert (0 < b)%Q as Hb by lra.
  rewrite !binary64_positive by done.
  pose proof (floor_log2_monotone a b Ha Hab) as Hk.
  pose proof (two_power_pos (ulp_exponent a)) as Hpa.
  pose proof (two_power_pos (ulp_exponent b)) as Hpb.
  destruct (decide (ulp_exponent a = ulp_exponent b)) as [E|E].
  - rewrite E in *.
    assert (a / 2 ^ ulp_exponent b <= b / 2 ^ ulp_exponent b)%Q as Hq.
    { apply Qle_shift_div_l; [done|].
      assert (a / 2 ^ ulp_exponent b * 2 ^ ulp_exponent b == a)%Q as Ea
        by (field; lra).
      by rewrite Ea. }
    apply round_half_even_monotone in Hq. rewrite Zle_Qle in Hq.
    nra.
  - assert (ulp_exponent a + 1 ≤ ulp_exponent b)%Z as Hlt
      by (unfold ulp_exponent in *; lia).
    assert (ulp_exponent b = (floor_log2 b - 52)%Z) as Hnormal
      by (unfold ulp_exponent in *; lia).
    destruct (significand_bounds a Ha) as [Ha53 _].
    destruct (significand_bounds b Hb) as [_ Hb52].
    specialize (Hb52 Hnormal).
    apply Qlt_le_weak, round_half_even_monotone in Ha53.
    apply round_half_even_monotone in Hb52.
    rewrite round_half_even_inject_Z in Ha53, Hb52.
    rewrite Zle_Qle in Ha53, Hb52.
    assert (2 * 2 ^ ulp_exponent a <= 2 ^ ulp_exponent b)%Q as Hpow.
    { rewrite <- two_power_succ. by apply Qpower_le_compat_l. }
    assert (inject_Z (2 ^ 53) == 2 * inject_Z (2 ^ 52))%Q as E53 by done.
    set (ma := inject_Z (round_half_even (a / 2 ^ ulp_exponent a))) in *.
    set (mb := inject_Z (round_half_even (b / 2 ^ ulp_exponent b))) in *.
    set (P52 := inject_Z (2 ^ 52)) in *. set (P53 := inject_Z (2 ^ 53)) in *.
    assert (0 < P52)%Q as H52 by done.
    apply Qle_trans with (P53 * 2 ^ ulp_exponent a)%Q; [nra|].
    apply Qle_trans with (P52 * 2 ^ ulp_exponent b)%Q; [|nra].
    rewrite E53. nra.
Qed.

Lemma binary64_monotone (x y : Q) :
  (x <= y)%Q → (binary64 x <= binary64 y)%Q.
Proof.
  intros Hxy.
  destruct (Q_dec x 0) as [[Hx|Hx]|Hx], (Q_dec y 0) as [[Hy|Hy]|Hy];
    try (exfalso; lra).
  - rewrite (binary64_negative x), (binary64_negative y) by done.
    pose proof (binary64_positive_monotone (- y) (- x) ltac:(lra) ltac:(lra))
      as Hm.
    rewrite !binary64_positive in Hm by lra. lra.
  - rewrite (binary64_negative x) by done.
    pose proof (binary64_positive_nonneg (- x) ltac:(lra)) as Hnx.
    pose proof (binary64_positive_nonneg y Hy) as Hny.
    rewrite binary64_positive in Hnx by lra. lra.
  - rewrite (binary64_negative x), (binary64_zero y) by done.
    pose proof (binary64_positive_nonneg (- x) ltac:(lra)) as Hnx.
    rewrite binary64_positive in Hnx by lra. lra.
  - by apply binary64_positive_monotone.
  - rewrite (binary64_zero x) by done. by apply binary64_positive_nonneg.
  - rewrite (binary64_zero x), (binary64_zero y) by done. apply Qle_refl.
Qed.

Lemma mul_float_monotone (x y c : Q) :
  (0 <= c)%Q → (x <= y)%Q → (mul_float x c <= mul_float y c)%Q.
Proof.
  intros Hc Hxy. unfold mul_float. apply binary64_monotone. nra.
Qed.

Lemma Dividendos_row_dividend_yield t info history r :
  Dividendos.calculate_yield_and_dividend_years t (Return info) (Return history)
  = Dividendos.Incluida r →
  row_dividend_yield r
  = round (mul_float (default 0%Q (info_dividendYield info)) 100) 2.
Proof.
  unfold Dividendos.calculate_yield_and_dividend_years,
    Dividendos.calculate_yield_and_dividend_years_try.
  cbn -[Qeq_bool round]. destruct (_ || _); [done|]. by intros [= <-].
Qed.

(** X17.  In the first dividend script the stored yield of an included
    company is a whole number of hundredths, and neither the binary64
    product by 100 nor the rounding to two decimals inverts two yields:
    a company whose provider reports the higher yield never has the
    lower stored yield, and a strictly higher stored yield comes from a
    strictly higher reported yield. *)
Theorem X17_rounding_keeps_the_order_of_yields
    (t1 t2 : string) (info1 info2 : dividend_info) (history1 history2 : list date)
    (r1 r2 : dividend_row) :
  let yield1 := default 0%Q (info_dividendYield info1) in
  let yield2 := default 0%Q (info_dividendYield info2) in
  Dividendos.calculate_yield_and_dividend_years t1 (Return info1)
    (Return history1) = Dividendos.Incluida r1 →
  Dividendos.calculate_yield_and_dividend_years t2 (Return info2)
    (Return history2) = Dividendos.Incluida r2 →
  (∃ hundredths : Z, row_dividend_yield r1 = (inject_Z hundredths / 100)%Q)
  ∧ ((yield1 <= yield2)%Q → (row_dividend_yield r1 <= row_dividend_yield r2)%Q)
  ∧ ((row_dividend_yield r1 < row_dividend_yield r2)%Q → (yield1 < yield2)%Q).
Proof.
  intros yield1 yield2 H1 H2.
  apply Dividendos_row_dividend_yield in H1, H2. rewrite H1, H2.
  fold yield1. fold yield2.
  assert (∀ x y, (x <= y)%Q →
                 (round (mul_float x 100) 2 <= round (mul_float y 100) 2)%Q)
    as Hmono.
  { intros x y Hxy. apply round_2_monotone, mul_float_monotone; [lra|done]. }
  split; [by eexists|]. split; [apply Hmono|].
  intros Hlt. destruct (Qlt_le_dec yield1 yield2) as [|Hge]; [done|].
  pose proof (Hmono _ _ Hge). lra.
Qed.

Lemma X17_witness :
  ∃ r1 r2,
    Dividendos.calculate_yield_and_dividend_years "AAA"
      (Return (paying float_0_03004))
      (Return [{| year := 2020; month := 3; day := 1 |}])
    = Dividendos.Incluida r1
    ∧ Dividendos.calculate_yield_and_dividend_years "BBB"
        (Return (paying float_0_03006))
        (Return [{| year := 2020; month := 3; day := 1 |}])
      = Dividendos.Incluida r2
    ∧ (row_dividend_yield r1 <= row_dividend_yield r2)%Q.
Proof.
  eexists _, _. split; [vm_compute; reflexivity|].
  split; [vm_compute; reflexivity|].
  refine (proj1 (proj2 (X17_rounding_keeps_the_order_of_yields "AAA" "BBB"
                          (paying float_0_03004) (paying float_0_03006)
                          [{| year := 2020; month := 3; day := 1 |}]
                          [{| year := 2020; month := 3; day := 1 |}]
                          _ _ _ _)) _).
  - vm_compute. reflexivity.
  - vm_compute. reflexivity.
  - vm_compute. discriminate.
Defined.

(** ** What an included company of the dividend scripts has *)

(** X18.  A company included by the first dividend script has a
    provider that did not raise, a non-empty history, a non-zero yield
    (as reported, and as the binary64 percentage the script tests), a
    non-zero price, and between 1 and as many consecutive years as it has
    payments.  The v2 script excludes the same company, for unavailable
    basic data. *)
Theorem X18_included_dividend_company (t : string)
    (stock_info : py dividend_info) (historico : py (list date))
    (r : dividend_row) :
  Dividendos.calculate_yield_and_dividend_years t stock_info historico
  = Dividendos.Incluida r →
  ∃ info history,
    stock_info = Return info ∧ historico = Return history
    ∧ history ≠ []
    ∧ ¬ (mul_float (default 0%Q (info_dividendYield info)) 100 == 0)%Q
    ∧ ¬ (default 0%Q (info_dividendYield info) == 0)%Q
    ∧ ¬ (default 0%Q (info_currentPrice info) == 0)%Q
    ∧ row_ticker r = t
    ∧ row_current_price r = default 0%Q (info_currentPrice info)
    ∧ (1 ≤ row_consecutive_years r ≤ Z.of_nat (length history))%Z
    ∧ (DividendosV2.analyze_stock t stock_info historico).1
      = DividendosV2.Excluida t ["Dados básicos não disponíveis"].
Proof.
  rewrite DividendosV2_analyze_stock.
  unfold Dividendos.calculate_yield_and_dividend_years,
    Dividendos.calculate_yield_and_dividend_years_try.
  destruct stock_info as [info|e];
    cbn -[Qeq_bool round count_consecutive]; [|done].
  destruct historico as [history|e];
    cbn -[Qeq_bool round count_consecutive]; [|done].
  destruct history as [|d history];
    cbn -[Qeq_bool round count_consecutive]; [done|].
  destruct (Qeq_bool (mul_float (default 0%Q (info_dividendYield info)) 100) 0)
    eqn:E1; cbn -[Qeq_bool round count_consecutive]; [done|].
  destruct (Qeq_bool (default 0%Q (info_currentPrice info)) 0) eqn:E2;
    cbn -[Qeq_bool round count_consecutive]; [done|].
  intros [= <-]. apply Qeq_bool_neq in E1, E2.
  exists info, (d :: history). cbn [row_ticker row_current_price
                                     row_consecutive_years].
  destruct (count_consecutive_bounds (d :: history)) as (H1 & H2 & H3);
    [done|].
  assert (¬ (default 0%Q (info_dividendYield info) == 0)%Q) as Hy.
  { intros E. apply (mul_float_0_l _ 100) in E. rewrite E in E1.
    by apply E1. }
  repeat split; try done; lia.
Qed.

Lemma X18_witness :
  ∃ r,
    Dividendos.calculate_yield_and_dividend_years "AAA"
      (yielding_3_percent "AAA") (paid_in_2020 "AAA") = Dividendos.Incluida r
    ∧ (DividendosV2.analyze_stock "AAA" (yielding_3_percent "AAA")
         (paid_in_2020 "AAA")).1
      = DividendosV2.Excluida "AAA" ["Dados básicos não disponíveis"].
Proof.
  eexists. split; [vm_compute; reflexivity|].
  edestruct (X18_included_dividend_company "AAA" (yielding_3_percent "AAA")
               (paid_in_2020 "AAA"))
    as (info & history & _ & _ & _ & _ & _ & _ & _ & _ & _ & Hv2);
    [vm_compute; reflexivity|exact Hv2].
Defined.

(** ** One outcome per company, and the statistics *)

Lemma MagicFormulaV2_split (results : list MagicFormulaV2.StockResult) :
  length (filter (λ r, MagicFormulaV2.is_Incluida r = true) results)
  + length (filter (λ r, MagicFormulaV2.is_Excluida r = true) results)
  = length results.
Proof.
  induction results as [|[t roc ey|t m] results IH]; [done| |].
  - rewrite filter_cons_True, filter_cons_False by done. simpl. lia.
  - rewrite filter_cons_False, filter_cons_True by done. simpl. lia.
Qed.

Lemma MagicFormulaV2_logged_lines yf companies line :
  line ∈ MagicFormulaV2.logged yf companies →
  ∃ t e, line = ProcessingError t e.
Proof.
  unfold MagicFormulaV2.logged. intros (t & Hline & _)%list_elem_of_bind.
  unfold MagicFormulaV2.analyze_stock, MagicFormulaV2.get_financial_data
    in Hline.
  destruct (yf t) as [s|e]; simpl in Hline.
  - destruct (_ || _); simpl in Hline; [by apply elem_of_nil in Hline|].
    destruct (negb _); simpl in Hline; [by apply elem_of_nil in Hline|].
    destruct (MagicFormulaV2.calculate_metrics _) as [[??]|?];
      by apply elem_of_nil in Hline.
  - apply list_elem_of_singleton in Hline. eauto.
Qed.

Lemma DividendosV2_logged_lines yf_info yf_history companies line :
  line ∈ DividendosV2.logged yf_info yf_history companies →
  ∃ t e, line = ProcessingError t e.
Proof.
  rewrite DividendosV2_logged. intros (t & -> & _)%list_elem_of_fmap. eauto.
Qed.

Lemma MagicFormulaV2_detail_lines excluded line :
  line ∈ excluded ≫= MagicFormulaV2.detail → ∃ t m, line = ExcludedDetail t m.
Proof.
  intros (r & Hline & _)%list_elem_of_bind. destruct r; simpl in Hline.
  - by apply elem_of_nil in Hline.
  - apply list_elem_of_singleton in Hline. eauto.
Qed.

Lemma DividendosV2_detail_lines excluded line :
  line ∈ excluded ≫= DividendosV2.detail → ∃ t m, line = ExcludedDetail t m.
Proof.
  intros (r & Hline & _)%list_elem_of_bind. destruct r; simpl in Hline.
  - by apply elem_of_nil in Hline.
  - apply list_elem_of_singleton in Hline. eauto.
Qed.

Lemma MagicFormulaV2_ticker_of_results yf companies :
  MagicFormulaV2.ticker_of <$> MagicFormulaV2.results_of yf companies
  = companies.
Proof.
  unfold MagicFormulaV2.results_of. rewrite <- list_fmap_compose.
  rewrite <- (list_fmap_id companies) at 2. apply list_fmap_ext.
  intros ? t _. apply MagicFormulaV2_ticker.
Qed.

Lemma DividendosV2_ticker_of_results yf_info yf_history companies :
  DividendosV2.ticker_of
    <$> DividendosV2.results_of yf_info yf_history companies
  = companies.
Proof.
  unfold DividendosV2.results_of. rewrite <- list_fmap_compose.
  rewrite <- (list_fmap_id companies) at 2. apply list_fmap_ext.
  intros ? t _. apply DividendosV2_ticker.
Qed.

Ltac stat_lines Hlogged Hdetail :=
  let Hin := fresh "Hin" in
  split;
  [ intros Hin; rewrite !elem_of_app in Hin;
    destruct Hin as [Hin|[Hin|[Hin|[Hin|Hin]]]];
    [ apply Hlogged in Hin as (? & ? & ?); discriminate
    | repeat (apply elem_of_cons in Hin as [Hin|Hin]; try discriminate);
      by apply elem_of_nil in Hin
    | repeat (apply elem_of_cons in Hin as [Hin|Hin]; try discriminate);
      by apply elem_of_nil in Hin
    | repeat (apply elem_of_cons in Hin as [Hin|Hin]; try discriminate;
              try (by injection Hin));
      by apply elem_of_nil in Hin
    | apply Hdetail in Hin as (? & ? & ?); discriminate ]
  | intros ->; rewrite !elem_of_app; do 3 right; left;
    rewrite !elem_of_cons; auto ].

(** X19.  In a v2 run over a non-empty universe there is one outcome
    per company, in the order of the universe, and the log states the
    total, the number of included and the number of excluded companies,
    and states no other number for them.  In the Magic Formula script
    included and excluded companies add up to the universe, and the
    number of included companies, computed as total minus excluded, is
    the number of rows ranked.  In the dividend script no company is
    included: nothing is ranked, and the log states 0 included and the
    whole universe as excluded. *)
Theorem X19_statistics_add_up `{pandas.SortValues} :
  (∀ (yf : string → py statements) (companies : list string),
     companies ≠ [] →
     let results := MagicFormulaV2.results_of yf companies in
     let included := filter (λ r, MagicFormulaV2.is_Incluida r = true) results in
     let excluded := filter (λ r, MagicFormulaV2.is_Excluida r = true) results in
     let log := (MagicFormulaV2.run_analysis yf companies).2 in
     MagicFormulaV2.ticker_of <$> results = companies
     ∧ length included + length excluded = length companies
     ∧ (∀ n, StatTotal n ∈ log ↔ n = length companies)
     ∧ (∀ n, StatIncluded n ∈ log ↔ n = length included)
     ∧ (∀ n, StatExcluded n ∈ log ↔ n = length excluded)
     ∧ (∀ df, (MagicFormulaV2.prepare_rankings results).1 = Some df →
              length df = length included))
  ∧ (∀ (yf_info : string → py dividend_info)
       (yf_history : string → py (list date)) (companies : list string),
       companies ≠ [] →
       let results := DividendosV2.results_of yf_info yf_history companies in
       let included :=
         filter (λ r, DividendosV2.is_Incluida r = true) results in
       let excluded :=
         filter (λ r, DividendosV2.is_Excluida r = true) results in
       let log := (DividendosV2.run_analysis yf_info yf_history companies).2 in
       DividendosV2.ticker_of <$> results = companies
       ∧ included = [] ∧ excluded = results
       ∧ (DividendosV2.prepare_rankings results).1 = None
       ∧ (∀ n, StatTotal n ∈ log ↔ n = length companies)
       ∧ (∀ n, StatIncluded n ∈ log ↔ n = 0)
       ∧ (∀ n, StatExcluded n ∈ log ↔ n = length companies)).
Proof.
  split.
  - intros yf companies Hne results included excluded log.
    pose proof (MagicFormulaV2_split results) as Hsplit.
    fold included in Hsplit. fold excluded in Hsplit.
    assert (length results = length companies) as Hlen
      by (unfold results, MagicFormulaV2.results_of; by rewrite length_fmap).
    split; [apply MagicFormulaV2_ticker_of_results|]. split; [lia|].
    assert (∀ df, (MagicFormulaV2.prepare_rankings results).1 = Some df →
                  length df = length included) as Hdf.
    { intros df. unfold MagicFormulaV2.prepare_rankings. fold included.
      case_bool_decide; [done|]. simpl. intros [= <-].
      rewrite <- (length_fmap Final_Rank), rank_rows_Final_Rank, length_seq.
      apply length_MagicFormulaV2_DataFrame. }
    subst log. unfold MagicFormulaV2.run_analysis.
    rewrite bool_decide_eq_false_2 by (by destruct companies).
    fold results.
    assert (∃ w, (MagicFormulaV2.prepare_rankings results).2 = w
                 ∧ (w = [] ∨ w = [NoData])) as (w & Hw & Hwcase).
    { unfold MagicFormulaV2.prepare_rankings. case_bool_decide; eauto. }
    destruct (MagicFormulaV2.prepare_rankings results) as [df w'].
    simpl in Hw. subst w'. cbn [snd]. unfold MagicFormulaV2.print_results.
    fold excluded.
    replace (length results - length excluded) with (length included) by lia.
    rewrite Hlen.
    pose proof (MagicFormulaV2_logged_lines yf companies) as Hlogged.
    pose proof (MagicFormulaV2_detail_lines excluded) as Hdetail.
    split; [|split; [|split; [|exact Hdf]]]; intros n;
      destruct Hwcase as [-> | ->]; destruct df; stat_lines Hlogged Hdetail.
  - intros yf_info yf_history companies Hne results included excluded log.
    destruct (DividendosV2_all_excluded yf_info yf_history companies)
      as [Hin Hexcl].
    fold results in Hin, Hexcl. fold included in Hin. fold excluded in Hexcl.
    assert (length results = length companies) as Hlen
      by (unfold results, DividendosV2.results_of; by rewrite length_fmap).
    assert (DividendosV2.prepare_rankings results = (None, [NoData])) as Hprep.
    { unfold DividendosV2.prepare_rankings. fold included. by rewrite Hin. }
    split; [apply DividendosV2_ticker_of_results|].
    split; [done|]. split; [done|]. split; [by rewrite Hprep|].
    subst log. unfold DividendosV2.run_analysis.
    rewrite bool_decide_eq_false_2 by (by destruct companies).
    fold results. rewrite Hprep. cbn [snd].
    unfold DividendosV2.print_results. fold excluded. rewrite Hexcl.
    replace (length results - length results) with 0 by lia.
    rewrite Hlen.
    pose proof (DividendosV2_logged_lines yf_info yf_history companies)
      as Hlogged.
    pose proof (DividendosV2_detail_lines results) as Hdetail.
    split; [|split]; intros n; stat_lines Hlogged Hdetail.
Qed.

Lemma X19_witness :
  StatIncluded 1
  ∈ (@MagicFormulaV2.run_analysis merge_sort_values magic_statements
       ["AAA"; "BBB"]).2.
Proof.
  apply (proj1 (proj2 (proj2 (proj2
           (proj1 (@X19_statistics_add_up merge_sort_values)
              magic_statements ["AAA"; "BBB"] ltac:(discriminate)))))).
  reflexivity.
Defined.

(** ** Every included company is ranked once *)

Lemma ranked_tickers_rank_rows `{pandas.SortValues} {R : Type}
    (ticker : R → string) (c1 c2 : R → Q) (df : list R) :
  ranked_tickers ticker (rank_rows c1 c2 df) ≡ₚ ticker <$> df.
Proof.
  unfold ranked_tickers.
  rewrite (list_fmap_compose (row ∘ scored_row) ticker).
  by rewrite rank_rows_rows.
Qed.

Lemma MagicFormulaV2_included_tickers yf companies :
  mf_ticker
    <$> MagicFormulaV2.DataFrame
          (filter (λ r, MagicFormulaV2.is_Incluida r = true)
                  (MagicFormulaV2.results_of yf companies))
  = filter (λ t, MagicFormulaV2.is_Incluida
                   (MagicFormulaV2.analyze_stock t (yf t)).1 = true) companies.
Proof.
  unfold MagicFormulaV2.results_of.
  induction companies as [|t companies IH]; [done|].
  rewrite fmap_cons. pose proof (MagicFormulaV2_ticker t (yf t)) as Ht.
  destruct (MagicFormulaV2.analyze_stock t (yf t)).1 as [t' roc ey|t' m] eqn:E.
  - rewrite filter_cons_True by done.
    rewrite (filter_cons_True _ t) by (by rewrite E).
    unfold MagicFormulaV2.DataFrame in *. cbn [omap list_omap].
    rewrite fmap_cons, IH. simpl in Ht. by rewrite Ht.
  - rewrite filter_cons_False by done.
    by rewrite (filter_cons_False _ t) by (by rewrite E).
Qed.

Lemma Dividendos_included_tickers yf_info yf_history companies :
  row_ticker
    <$> Dividendos.DataFrame
          (Dividendos.included
             (Dividendos.all_results yf_info yf_history companies))
  = filter (λ t, Dividendos.is_Incluida
                   (Dividendos.calculate_yield_and_dividend_years t
                      (yf_info t) (yf_history t)) = true) companies.
Proof.
  unfold Dividendos.all_results, Dividendos.included.
  induction companies as [|t companies IH]; [done|].
  rewrite fmap_cons.
  pose proof (Dividendos_Ticker t (yf_info t) (yf_history t)) as Ht.
  destruct (Dividendos.calculate_yield_and_dividend_years t (yf_info t)
              (yf_history t)) as [d|t' m] eqn:E.
  - rewrite filter_cons_True by done.
    rewrite (filter_cons_True _ t) by (by rewrite E).
    unfold Dividendos.DataFrame in *. cbn [omap list_omap].
    rewrite fmap_cons, IH. simpl in Ht. by rewrite Ht.
  - rewrite filter_cons_False by done.
    by rewrite (filter_cons_False _ t) by (by rewrite E).
Qed.

(** X20.  The tickers of a ranking of the v2 Magic Formula script, and
    of the first dividend script, are the included companies of the
    universe, each as often as the universe lists it; over a universe
    without repeated tickers no ticker is ranked twice. *)
Theorem X20_every_included_company_is_ranked_once `{pandas.SortValues} :
  (∀ (yf : string → py statements) (companies : list string) df,
     (MagicFormulaV2.prepare_rankings (MagicFormulaV2.results_of yf companies)).1
     = Some df →
     ranked_tickers mf_ticker df
     ≡ₚ filter (λ t, MagicFormulaV2.is_Incluida
                       (MagicFormulaV2.analyze_stock t (yf t)).1 = true)
               companies
     ∧ (NoDup companies → NoDup (ranked_tickers mf_ticker df)))
  ∧ (∀ (yf_info : string → py dividend_info)
       (yf_history : string → py (list date)) (companies : list string),
       let df :=
         Dividendos.scores_df
           (Dividendos.included
              (Dividendos.all_results yf_info yf_history companies)) in
       ranked_tickers row_ticker df
       ≡ₚ filter (λ t, Dividendos.is_Incluida
                         (Dividendos.calculate_yield_and_dividend_years t
                            (yf_info t) (yf_history t)) = true)
                 companies
       ∧ (NoDup companies → NoDup (ranked_tickers row_ticker df))).
Proof.
  split.
  - intros yf companies df. unfold MagicFormulaV2.prepare_rankings.
    case_bool_decide; [done|]. simpl. intros [= <-].
    assert (ranked_tickers mf_ticker
              (rank_rows mf_roc mf_earnings_yield
                 (MagicFormulaV2.DataFrame
                    (filter (λ r, MagicFormulaV2.is_Incluida r = true)
                       (MagicFormulaV2.results_of yf companies))))
            ≡ₚ filter (λ t, MagicFormulaV2.is_Incluida
                              (MagicFormulaV2.analyze_stock t (yf t)).1 = true)
                      companies) as Hperm.
    { rewrite ranked_tickers_rank_rows.
      by rewrite MagicFormulaV2_included_tickers. }
    split; [done|]. intros Hnd. rewrite Hperm. by apply NoDup_filter.
  - intros yf_info yf_history companies df.
    assert (ranked_tickers row_ticker df
            ≡ₚ filter (λ t, Dividendos.is_Incluida
                              (Dividendos.calculate_yield_and_dividend_years t
                                 (yf_info t) (yf_history t)) = true)
                      companies) as Hperm.
    { unfold df, Dividendos.scores_df. rewrite ranked_tickers_rank_rows.
      by rewrite Dividendos_included_tickers. }
    split; [done|]. intros Hnd. rewrite Hperm. by apply NoDup_filter.
Qed.

Lemma X20_witness :
  ∃ df,
    (@MagicFormulaV2.prepare_rankings merge_sort_values
       (MagicFormulaV2.results_of magic_statements ["AAA"; "BBB"; "CCC"])).1
    = Some df
    ∧ NoDup (ranked_tickers mf_ticker df).
Proof.
  eexists. split; [vm_compute; reflexivity|].
  apply (proj1 (@X20_every_included_company_is_ranked_once merge_sort_values)
           magic_statements ["AAA"; "BBB"; "CCC"]).
  - vm_compute. reflexivity.
  - apply (bool_decide_unpack _). vm_compute. exact I.
Defined.

(** ** The order of the universe and the component ranks *)

Lemma average_rank_Permutation values values' v :
  values ≡ₚ values' → average_rank values v = average_rank values' v.
Proof.
  intros Hperm. unfold average_rank, positions_occupied, n_greater, n_equal.
  by rewrite Hperm.
Qed.

Lemma add_ranks_row_elem {R} (c1 c2 : R → Q) (df : list R) (x : R) :
  x ∈ df → ∃ s, s ∈ add_ranks c1 c2 df ∧ row s = x.
Proof.
  intros Hx. rewrite <- (row_add_ranks c1 c2 df) in Hx.
  apply list_elem_of_fmap in Hx as (s & -> & Hs). eauto.
Qed.

(** X21.  The order of the universe has no influence on the ranks of
    the components or on the combined rank: after any permutation of the
    included rows every row has the same three ranks. *)
Theorem X21_component_ranks_ignore_the_order_of_the_universe {R : Type}
    (c1 c2 : R → Q) (df df' : list R) (s : scored R) :
  df ≡ₚ df' → s ∈ add_ranks c1 c2 df →
  ∃ s', s' ∈ add_ranks c1 c2 df' ∧ row s' = row s
        ∧ (Rank_1 s' == Rank_1 s)%Q ∧ (Rank_2 s' == Rank_2 s)%Q
        ∧ (Combined_Rank s' == Combined_Rank s)%Q.
Proof.
  intros Hperm Hs. apply add_ranks_elem in Hs as (Hrow & E1 & E2 & Ec).
  rewrite Hperm in Hrow.
  destruct (add_ranks_row_elem c1 c2 df' _ Hrow) as (s' & Hs' & Hrow').
  exists s'. split; [done|]. split; [done|].
  apply add_ranks_elem in Hs' as (_ & E1' & E2' & Ec').
  rewrite Hrow' in E1', E2'.
  rewrite <- (average_rank_Permutation (c1 <$> df) (c1 <$> df')) in E1'
    by (by rewrite Hperm).
  rewrite <- (average_rank_Permutation (c2 <$> df) (c2 <$> df')) in E2'
    by (by rewrite Hperm).
  assert (Rank_1 s' == Rank_1 s)%Q as H1 by (by rewrite E1, E1').
  assert (Rank_2 s' == Rank_2 s)%Q as H2 by (by rewrite E2, E2').
  split; [done|]. split; [done|]. rewrite Ec, Ec', H1, H2. reflexivity.
Qed.

Lemma X21_witness :
  ∃ s', s' ∈ add_ranks mf_roc mf_earnings_yield (reverse dominated_pair)
        ∧ row s' = row scored_AAA
        ∧ (Rank_1 s' == Rank_1 scored_AAA)%Q
        ∧ (Rank_2 s' == Rank_2 scored_AAA)%Q
        ∧ (Combined_Rank s' == Combined_Rank scored_AAA)%Q.
Proof.
  apply (X21_component_ranks_ignore_the_order_of_the_universe
           mf_roc mf_earnings_yield dominated_pair).
  - symmetry. apply reverse_Permutation.
  - vm_compute. apply list_elem_of_In. simpl. tauto.
Defined.

(** ** The factor score and the rank *)

Lemma Fatores_scores_of_elem yf companies t score :
  (t, score) ∈ Fatores.scores_of yf companies →
  t ∈ companies ∧ (Fatores.calculate_score t (yf t)).1 = Some score.
Proof.
  unfold Fatores.scores_of. intros (t0 & Ht0 & Hs)%list_elem_of_omap.
  destruct (Fatores.calculate_score t0 (yf t0)).1 as [s0|] eqn:E; [|done].
  simpl in Hs. by injection Hs as -> ->.
Qed.

Lemma Fatores_score_inv t info score :
  (Fatores.calculate_score t (Return info)).1 = Some score →
  ∃ pe roe dte dy,
    Fatores.trailingPE info = Some pe ∧ Fatores.returnOnEquity info = Some roe
    ∧ Fatores.debtToEquity info = Some dte
    ∧ Fatores.dividendYield info = Some dy
    ∧ score = Fatores.score_of pe roe dte dy.
Proof.
  unfold Fatores.calculate_score, Fatores.calculate_score_try.
  destruct info as [[pe|] [roe|] [dte|] [dy|]]; simpl; try done.
  intros [= <-]. eauto 10.
Qed.

(** X22.  In the first factor script a company with a price-earnings
    ratio and a debt-to-equity ratio no higher, and a return on equity and
    a dividend yield no lower than another company's, has a score no
    lower; it ranks ahead of the other company whenever its score is
    strictly higher, and if the other company ranks ahead of it, the two
    scores are equal. *)
Theorem X22_no_worse_metrics_no_worse_factor_score `{pandas.SortValues}
    (yf : string → py Fatores.info) (companies : list string)
    (ka kb : nat) (a b : string) (score_a score_b : Q) (info_a info_b : Fatores.info)
    (pe_a roe_a dte_a dy_a pe_b roe_b dte_b dy_b : Q) :
  (ka, (a, score_a)) ∈ Fatores.scores_df (Fatores.scores_of yf companies) →
  (kb, (b, score_b)) ∈ Fatores.scores_df (Fatores.scores_of yf companies) →
  yf a = Return info_a → yf b = Return info_b →
  Fatores.trailingPE info_a = Some pe_a → Fatores.trailingPE info_b = Some pe_b →
  Fatores.returnOnEquity info_a = Some roe_a →
  Fatores.returnOnEquity info_b = Some roe_b →
  Fatores.debtToEquity info_a = Some dte_a →
  Fatores.debtToEquity info_b = Some dte_b →
  Fatores.dividendYield info_a = Some dy_a →
  Fatores.dividendYield info_b = Some dy_b →
  (pe_a <= pe_b)%Q → (roe_b <= roe_a)%Q → (dte_a <= dte_b)%Q →
  (dy_b <= dy_a)%Q →
  score_a = Fatores.score_of pe_a roe_a dte_a dy_a
  ∧ score_b = Fatores.score_of pe_b roe_b dte_b dy_b
  ∧ (score_b <= score_a)%Q
  ∧ ((score_b < score_a)%Q → ka < kb)
  ∧ (kb < ka → (score_a == score_b)%Q).
Proof.
  intros Ha Hb Hya Hyb Hpa Hpb Hra Hrb Hda Hdb Hia Hib Hpe Hroe Hdte Hdy.
  assert (∀ k t s, (k, (t, s)) ∈ Fatores.scores_df (Fatores.scores_of yf companies) →
                   (Fatores.calculate_score t (yf t)).1 = Some s) as Hscore.
  { intros k t s Hin. apply (list_elem_of_fmap_2 snd) in Hin.
    unfold Fatores.scores_df in Hin.
    rewrite snd_imap_rank, pandas.sort_values_Permutation in Hin.
    by apply Fatores_scores_of_elem in Hin as [_ ?]. }
  pose proof (Hscore _ _ _ Ha) as Hsa. pose proof (Hscore _ _ _ Hb) as Hsb.
  rewrite Hya in Hsa. rewrite Hyb in Hsb.
  apply Fatores_score_inv in Hsa as (? & ? & ? & ? & ? & ? & ? & ? & ->).
  apply Fatores_score_inv in Hsb as (? & ? & ? & ? & ? & ? & ? & ? & ->).
  simplify_eq.
  assert (Fatores.score_of pe_b roe_b dte_b dy_b
          <= Fatores.score_of pe_a roe_a dte_a dy_a)%Q as Hle.
  { unfold Fatores.score_of, Qdiv. change (/ 10)%Q with (1 # 10)%Q. lra. }
  destruct (descending_rank_order snd _ _ _ Hb Ha) as [Hord Hlt].
  split; [done|]. split; [done|]. split; [done|]. split; [exact Hlt|].
  intros Hk. apply Qle_antisym; [|done]. apply Hord. simpl. lia.
Qed.

Lemma X22_witness :
  (Fatores.score_of 20 (1 # 5) 50 (3 # 100)
   <= Fatores.score_of 10 (1 # 5) 50 (3 # 100))%Q.
Proof.
  refine (proj1 (proj2 (proj2
    (@X22_no_worse_metrics_no_worse_factor_score merge_sort_values cheaper_AAA
           ["BBB"; "AAA"] 1 2 "AAA" "BBB" _ _
           {| Fatores.trailingPE := Some 10%Q;
              Fatores.returnOnEquity := Some (1 # 5)%Q;
              Fatores.debtToEquity := Some 50%Q;
              Fatores.dividendYield := Some (3 # 100)%Q |}
           {| Fatores.trailingPE := Some 20%Q;
              Fatores.returnOnEquity := Some (1 # 5)%Q;
              Fatores.debtToEquity := Some 50%Q;
              Fatores.dividendYield := Some (3 # 100)%Q |}
           10%Q (1 # 5)%Q 50%Q (3 # 100)%Q 20%Q (1 # 5)%Q 50%Q (3 # 100)%Q
           _ _ _ _ _ _ _ _ _ _ _ _ _ _ _ _))));
    try reflexivity; try (vm_compute; discriminate).
  - vm_compute. apply list_elem_of_In. simpl. tauto.
  - vm_compute. apply list_elem_of_In. simpl. tauto.
Defined.

(** ** The reasons of an exclusion *)

(** X23.  The reasons of an exclusion by the v2 Magic Formula script:
    the provider raised (logged as an error; the first script reports the
    error text instead) or a statement is empty; or some metrics are
    absent, and the reasons are their names; or all seven are present and
    a divisor, as the script computes it, is zero: working capital plus
    net fixed assets, or the enterprise value.  There is no other reason,
    and the first script excludes the company in each of these cases
    too. *)
Theorem X23_reasons_of_a_magic_formula_exclusion
    (t : string) (stock : py statements) (t' : string) (missing : list string) :
  (MagicFormulaV2.analyze_stock t stock).1 = MagicFormulaV2.Excluida t' missing →
  t' = t
  ∧ (((∃ e, stock = Raise e
            ∧ (MagicFormulaV2.analyze_stock t stock).2 = [ProcessingError t e]
            ∧ MagicFormula.calculate_magic_formula t stock
              = MagicFormula.Excluida t [e])
      ∧ missing = ["Dados financeiros não disponíveis"])
     ∨ (∃ s, stock = Return s
             ∧ (MagicFormulaV2.analyze_stock t stock).2 = []
             ∧ ((income_stmt_empty s || balance_sheet_empty s = true
                 ∧ missing = ["Dados financeiros não disponíveis"]
                 ∧ MagicFormula.calculate_magic_formula t stock
                   = MagicFormula.Excluida t missing)
                ∨ (income_stmt_empty s || balance_sheet_empty s = false
                   ∧ missing ≠ []
                   ∧ missing
                     = (filter (λ kv, is_None kv.2 = true)
                               [("EBIT", EBIT s);
                                ("Total_Assets", Total_Assets s);
                                ("Current_Assets", Current_Assets s);
                                ("Current_Liabilities", Current_Liabilities s);
                                ("Market_Cap", marketCap s);
                                ("Total_Debt", totalDebt s);
                                ("Total_Cash", totalCash s)]).*1
                   ∧ MagicFormula.calculate_magic_formula t stock
                     = MagicFormula.Excluida t
                         (filter (λ kv, is_None kv.2 = true)
                                 (MagicFormula.required_data s)).*1)
                ∨ (income_stmt_empty s || balance_sheet_empty s = false
                   ∧ missing = ["Division by zero in calculations"]
                   ∧ MagicFormula.calculate_magic_formula t stock
                     = MagicFormula.Excluida t
                         ["Divisão por zero nos cálculos"]
                   ∧ ∃ ebit total_assets current_assets current_liabilities
                       market_cap total_debt total_cash,
                       EBIT s = Some ebit
                       ∧ Total_Assets s = Some total_assets
                       ∧ Current_Assets s = Some current_assets
                       ∧ Current_Liabilities s = Some current_liabilities
                       ∧ marketCap s = Some market_cap
                       ∧ totalDebt s = Some total_debt
                       ∧ totalCash s = Some total_cash
                       ∧ ((current_assets - current_liabilities
                           + (total_assets - current_assets) == 0)%Q
                          ∨ (market_cap + total_debt - total_cash == 0)%Q))))).
Proof.
  intros Hex. split.
  { pose proof (MagicFormulaV2_ticker t stock) as Ht. by rewrite Hex in Ht. }
  revert Hex.
  unfold MagicFormula.calculate_magic_formula,
    MagicFormula.calculate_magic_formula_try, MagicFormulaV2.analyze_stock,
    MagicFormulaV2.get_financial_data, MagicFormulaV2.calculate_metrics.
  destruct stock as [[ie be ebit ta ca cl mc td tc]|e]; simpl.
  2:{ intros [= <- <-]. left. eauto 10. }
  intros Hex. right. eexists. split; [reflexivity|].
  destruct (ie || be) eqn:Hempty; simpl in *.
  { injection Hex as <- <-. split; [done|]. left. done. }
  destruct ebit as [ebit|], ta as [ta|], ca as [ca|], cl as [cl|],
    mc as [mc|], td as [td|], tc as [tc|]; simpl in *;
    try (injection Hex as <- <-; split; [done|]; right; left; done).
  destruct (Qeq_bool (ca - cl + (ta - ca)) 0) eqn:E1; simpl in *.
  { injection Hex as <- <-. split; [done|]. right. right.
    split; [done|]. split; [done|]. split; [done|].
    exists ebit, ta, ca, cl, mc, td, tc. repeat split; try done.
    left. by apply Qeq_bool_iff in E1. }
  destruct (Qeq_bool (mc + td - tc) 0) eqn:E2; simpl in *.
  { injection Hex as <- <-. split; [done|]. right. right.
    split; [done|]. split; [done|]. split; [done|].
    exists ebit, ta, ca, cl, mc, td, tc. repeat split; try done.
    right. by apply Qeq_bool_iff in E2. }
  unfold truediv in Hex. rewrite E1 in Hex. simpl in Hex.
  rewrite E2 in Hex. done.
Qed.

Lemma X23_witness :
  ∃ s, magic_statements "BBB" = Return s
       ∧ (MagicFormulaV2.analyze_stock "BBB" (magic_statements "BBB")).2 = [].
Proof.
  destruct (X23_reasons_of_a_magic_formula_exclusion "BBB"
              (magic_statements "BBB") "BBB" ["EBIT"])
    as [_ [[(e & He & _) _]|(s & Hs & Hlog & _)]].
  - vm_compute. reflexivity.
  - discriminate He.
  - exists s. split; [exact Hs|exact Hlog].
Defined.

(** X24.  The reasons of an exclusion by the first dividend script: the
    provider of [stock.info] raised, or it answered and the provider of
    the history raised, the reason being the error text; or both
    answered and the history is empty, the binary64 percentage of the
    yield is zero or the price is zero, the reason being insufficient
    data.  There is no other reason.  The v2 script excludes each of
    these companies too, always for unavailable basic data. *)
Theorem X24_reasons_of_a_dividend_exclusion
    (t : string) (stock_info : py dividend_info)
    (historico : py (list date)) (t' : string) (missing : list string) :
  Dividendos.calculate_yield_and_dividend_years t stock_info historico
  = Dividendos.Excluida t' missing →
  t' = t
  ∧ ((∃ e, stock_info = Raise e ∧ missing = [e])
     ∨ (∃ info e, stock_info = Return info ∧ historico = Raise e
                  ∧ missing = [e])
     ∨ (∃ info history,
          stock_info = Return info ∧ historico = Return history
          ∧ missing = ["Dados insuficientes"]
          ∧ (history = []
             ∨ (mul_float (default 0%Q (info_dividendYield info)) 100 == 0)%Q
             ∨ (default 0%Q (info_currentPrice info) == 0)%Q)))
  ∧ (DividendosV2.analyze_stock t stock_info historico).1
    = DividendosV2.Excluida t ["Dados básicos não disponíveis"].
Proof.
  intros Hex. split.
  { pose proof (Dividendos_Ticker t stock_info historico) as Ht.
    by rewrite Hex in Ht. }
  split; [|by rewrite DividendosV2_analyze_stock].
  revert Hex.
  unfold Dividendos.calculate_yield_and_dividend_years,
    Dividendos.calculate_yield_and_dividend_years_try.
  destruct stock_info as [info|e]; cbn -[Qeq_bool round].
  2:{ intros [= <- <-]. left. eauto. }
  destruct historico as [history|e]; cbn -[Qeq_bool round].
  2:{ intros [= <- <-]. right. left. eauto. }
  destruct (bool_decide (length history = 0)
            || Qeq_bool (mul_float (default 0%Q (info_dividendYield info)) 100) 0
            || Qeq_bool (default 0%Q (info_currentPrice info)) 0) eqn:Hc;
    [|done].
  intros [= <- <-]. right. right. exists info, history.
  split; [done|]. split; [done|]. split; [done|].
  apply orb_true_iff in Hc as [Hc|Hp].
  - apply orb_true_iff in Hc as [Hh|Hy].
    + left. apply bool_decide_eq_true in Hh. by destruct history.
    + right. left. by apply Qeq_bool_iff.
  - right. right. by apply Qeq_bool_iff.
Qed.

Lemma X24_witness :
  ∃ info e, yielding_3_percent "AAA" = Return info
            ∧ (Raise "no history" : py (list date)) = Raise e.
Proof.
  destruct (X24_reasons_of_a_dividend_exclusion "AAA"
              (yielding_3_percent "AAA") (Raise "no history") "AAA"
              ["no history"])
    as [_ [[(e & He & _)|[(info & e & Hinfo & Hhist & _)
                         |(info & history & _ & Hhist & _)]] _]].
  - vm_compute. reflexivity.
  - discriminate He.
  - exists info, e. split; [exact Hinfo|exact Hhist].
  - discriminate Hhist.
Defined.
